(** * Document-intelligence workflow: suspend / resume core

    A shallow embedding of the human-in-the-loop core of the repository:

    - [workflow_small.py]: the correlation store [APPROVAL_CONTEXT], the
      coordinator's two handlers, the function executors, the blob sink and
      the graph that [workflow_small] builds;
    - [workflow_one.py]: [_parse_compliance_json] and the compliance adapter,
      and the runner [small_workflow] with its agent factory;
    - [workflow_api.py]: the session tables, the start, approval and status
      endpoints and the server-sent-event generator with its polling wait;
    - [main.py]: [run_once], which drives a workflow from the console.

    Python objects are modelled as data ([Py.value]), exceptions as the
    [Raise] case of [Py.Result], module-level dictionaries as [gmap]s that
    are threaded explicitly, and an async generator as the list of records
    it yields. The run engine of [agent_framework] is not part of the
    sources: the bridge is proved against any workflow object, and the
    graph of [workflow_small] is run by an engine modelled from the
    specification. *)

From stdpp Require Import base option list strings pretty gmap.

Local Open Scope string_scope.
Local Open Scope list_scope.
Set Warnings "-register-all".

(** ** Python values, truthiness and exceptions *)

Module Py.

(** The exceptions that occur in the modelled code. [StepFailure] stands for
    whatever an external collaborator raises. *)
Inductive exn : Type :=
| AttributeError (what : string)
| KeyError (key : string)
| TypeError (what : string)
| UnboundLocalError (name : string)
| JSONDecodeError
| HTTPException (status_code : nat) (detail : string)
| CorrelationError (request_id : string)
| IterationLimitExceeded
| StepFailure (message : string).

Inductive Result (A : Type) : Type :=
| Ok (a : A)
| Raise (e : exn).
Arguments Ok {A} a.
Arguments Raise {A} e.

#[global] Instance result_ret : MRet Result := fun A a => Ok a.
#[global] Instance result_bind : MBind Result := fun A B f r =>
  match r with
  | Ok a => f a
  | Raise e => Raise e
  end.

Definition is_ok {A} (r : Result A) : bool :=
  match r with Ok _ => true | Raise _ => false end.

(** What [json.loads] can return, which is also all the plain data the
    handlers pass around. A float keeps only what the code can observe of
    it: whether it is zero, and its rendering. A [VDict] lists its items in
    insertion order, keys unique. *)
Inductive value : Type :=
| VNone
| VBool (b : bool)
| VInt (z : Z)
| VFloat (nonzero : bool) (rendering : string)
| VStr (s : string)
| VList (xs : list value)
| VDict (items : list (string * value)).

(** [bool(v)], the test behind [if v], [a or b] and [a and b]. *)
Definition truthy (v : value) : bool :=
  match v with
  | VNone => false
  | VBool b => b
  | VInt z => negb (Z.eqb z 0)
  | VFloat nz _ => nz
  | VStr s => negb (String.eqb s "")
  | VList xs => match xs with [] => false | _ => true end
  | VDict items => match items with [] => false | _ => true end
  end.

(** [a or b] *)
Definition or_ (a b : value) : value := if truthy a then a else b.

(** Items of a dict: lookup, [k in d], [d[k] = v], [d.setdefault(k, v)]. *)
Fixpoint items_get (k : string) (items : list (string * value)) : option value :=
  match items with
  | [] => None
  | (k', v) :: rest => if String.eqb k k' then Some v else items_get k rest
  end.

Definition items_mem (k : string) (items : list (string * value)) : bool :=
  match items_get k items with Some _ => true | None => false end.

Fixpoint items_set (k : string) (v : value) (items : list (string * value))
  : list (string * value) :=
  match items with
  | [] => [(k, v)]
  | (k', v') :: rest =>
      if String.eqb k k' then (k, v) :: rest else (k', v') :: items_set k v rest
  end.

Definition items_setdefault (k : string) (v : value) (items : list (string * value))
  : list (string * value) :=
  if items_mem k items then items else items_set k v items.

(** [obj.get(k, dflt)]: only a dict has the method. *)
Definition get (obj : value) (k : string) (dflt : value) : Result value :=
  match obj with
  | VDict items => Ok (default dflt (items_get k items))
  | _ => Raise (AttributeError "get")
  end.

(** [len(v)] *)
Definition len (v : value) : Result nat :=
  match v with
  | VStr s => Ok (String.length s)
  | VList xs => Ok (length xs)
  | VDict items => Ok (length items)
  | _ => Raise (TypeError "len")
  end.

(** [s[:n]] and [s[-n:]] on strings. A [string] stands for a Python [str]
    with one element per character, which is exact for ASCII text. Text
    outside ASCII is held as the bytes of its UTF-8 form, so that a length
    counts more elements than Python counts characters and a cut may fall
    earlier (the ellipsis that [slice_then_ellipsis] appends is three
    elements). The statements below name a cut by [prefix] or [suffix] and
    use of a length only that it is an upper bound. *)
Definition prefix (n : nat) (s : string) : string := String.substring 0 n s.
Definition suffix (n : nat) (s : string) : string :=
  String.substring (String.length s - n) n s.

(** [x or dflt] for an optional string. *)
Definition str_or (x : option string) (dflt : string) : string :=
  match x with
  | Some s => if String.eqb s "" then dflt else s
  | None => dflt
  end.

End Py.
Export Py.

(** ** The data models ([doc_data_models]) as the code uses them *)

Record DocInput : Type := {
  document_uri : string;
  document_title : option string;
  page_count : option Z
}.

Record ApprovalRequest : Type := {
  req_approval_id : string;
  req_title : string;
  req_message : string;
  req_source_uri : value;
  req_preview : value
}.

Record ApprovalResponse : Type := {
  resp_approval_id : string;
  resp_approved : bool;
  resp_comment : option string
}.

(** [RequestResponse[ApprovalRequest, ApprovalResponse]]: the answer wrapped
    with the request it correlates to. *)
Record RequestResponse : Type := {
  rr_data : ApprovalResponse;
  rr_original_request : ApprovalRequest;
  rr_request_id : string
}.

(** A message travelling along an edge of the graph. *)
Inductive Message : Type :=
| MsgDocInput (d : DocInput)
| MsgValue (v : value)
| MsgApprovalRequest (r : ApprovalRequest)
| MsgRequestResponse (r : RequestResponse).

(** ** What the code takes from its libraries

    [json], [uuid] and [str()] are library code; the model is parametric in
    them. [json_loads] returns [None] where [json.loads] raises
    [JSONDecodeError]. [slice_hashable] tells whether the interpreter hashes
    slice objects (CPython does from 3.12), which decides the exception of
    [d[:240]] on a dict. [executor_event_is_workflow_event] tells whether
    the engine derives [ExecutorCompletedEvent] from [WorkflowEvent], which
    decides the [isinstance] test that takes such an event. The two laws are
    the facts about [json.loads] the proofs use. *)
Class Runtime : Type := {
  json_loads : string -> option value;
  json_dumps : value -> string;
  py_repr : value -> string;
  object_repr : Message -> string;
  uuid4 : nat -> string;
  slice_hashable : bool;
  executor_event_is_workflow_event : bool;
  json_loads_empty_object : json_loads "{}" = Some (VDict []);
  json_loads_empty_text : json_loads "" = None
}.

(** [str(v)] *)
Definition py_str `{Runtime} (v : value) : string :=
  match v with
  | VStr s => s
  | _ => py_repr v
  end.

Definition message_str `{Runtime} (m : Message) : string :=
  match m with
  | MsgValue v => py_str v
  | _ => object_repr m
  end.

(** The two agents the executors call, [run_extractor_20_agent] and
    [run_compliance_20_agent]: external collaborators that return text or
    raise. *)
Record Agents : Type := {
  run_extractor_20_agent : string -> Result string;
  run_compliance_20_agent : string -> Result string
}.

(** ** Events of the run engine ([agent_framework])

    [WorkflowEvent data] is a custom event built by a handler; the other
    constructors are the engine's own event classes. *)
Inductive Event : Type :=
| WorkflowOutputEvent (data : Message)
| RequestInfoEvent (request_id : string) (data : ApprovalRequest)
| WorkflowEvent (data : value)
| ExecutorCompletedEvent (executor_id : string)
| OtherEvent (name : string).

(** An event stream as its consumer sees it: the events in order and, when
    the iteration ends by an exception, that exception. *)
Definition Stream : Type := (list Event * option exn)%type.

(** ** workflow_small.py *)

Module WorkflowSmall.

(** What a handler does to its [WorkflowContext] and to the blob service, in
    program order. *)
Inductive Effect : Type :=
| SendMessage (message : Message) (target_id : option string)
| AddEvent (data : value)
| YieldOutput (output : Message)
| CreateContainer (container : string)
| UploadBlob (name : string) (data : string).

(** Module-level state: the dictionary [APPROVAL_CONTEXT], and how many
    times [uuid.uuid4()] has been drawn. *)
Record World : Type := {
  APPROVAL_CONTEXT : gmap string (list (string * value));
  uuid_drawn : nat
}.

Record Outcome (A : Type) : Type := {
  effects : list Effect;
  world : World;
  result : Result A
}.
Arguments effects {A} o.
Arguments world {A} o.
Arguments result {A} o.

(** A handler body: a computation over the module state that logs its
    context effects and may raise. *)
Definition Handler (A : Type) : Type := World -> Outcome A.

#[global] Instance handler_ret : MRet Handler := fun A a w =>
  {| effects := []; world := w; result := Ok a |}.

#[global] Instance handler_bind : MBind Handler := fun A B f m w =>
  let o := m w in
  match result o with
  | Ok a =>
      let o' := f a (world o) in
      {| effects := effects o ++ effects o'; world := world o'; result := result o' |}
  | Raise e => {| effects := effects o; world := world o; result := Raise e |}
  end.

Definition lift {A} (r : Result A) : Handler A := fun w =>
  {| effects := []; world := w; result := r |}.

Definition tell (e : Effect) : Handler unit := fun w =>
  {| effects := [e]; world := w; result := Ok tt |}.

Definition send_message (m : Message) (target_id : option string) : Handler unit :=
  tell (SendMessage m target_id).
Definition add_event (data : value) : Handler unit := tell (AddEvent data).
Definition yield_output (m : Message) : Handler unit := tell (YieldOutput m).

(** [str(uuid.uuid4())] *)
Definition draw_uuid4 `{Runtime} : Handler string := fun w =>
  {| effects := [];
     world := {| APPROVAL_CONTEXT := APPROVAL_CONTEXT w; uuid_drawn := S (uuid_drawn w) |};
     result := Ok (uuid4 (uuid_drawn w)) |}.

(** [APPROVAL_CONTEXT[rid] = info] *)
Definition store_context (rid : string) (info : list (string * value)) : Handler unit :=
  fun w =>
  {| effects := [];
     world := {| APPROVAL_CONTEXT := <[rid := info]> (APPROVAL_CONTEXT w);
                 uuid_drawn := uuid_drawn w |};
     result := Ok tt |}.

(** [APPROVAL_CONTEXT.pop(rid, {})] *)
Definition pop_context (rid : string) : Handler (list (string * value)) := fun w =>
  {| effects := [];
     world := {| APPROVAL_CONTEXT := delete rid (APPROVAL_CONTEXT w);
                 uuid_drawn := uuid_drawn w |};
     result := Ok (default [] (APPROVAL_CONTEXT w !! rid)) |}.

Section Handlers.
Context `{Runtime}.

(** [summary_text[:240] + ellipsis], reached only when [len] succeeded and
    exceeded 240. *)
Definition slice_then_ellipsis (summary_text : value) : Result value :=
  match summary_text with
  | VStr s => Ok (VStr (prefix 240 s +:+ "…"))
  | VList _ => Raise (TypeError "can only concatenate list to list")
  | VDict _ =>
      if slice_hashable then Raise (KeyError "slice(None, 240, None)")
      else Raise (TypeError "unhashable type: slice")
  | _ => Raise (TypeError "not subscriptable")
  end.

(** The body of the [try] in [prepare_request]: the source uri and the
    preview read off the parsed input. *)
Definition parse_input (prev : string) : Result (value * value) :=
  match json_loads prev with
  | None => Raise JSONDecodeError
  | Some data =>
      details ← get data "document_details" (VDict []);
      source_uri ← get details "source_uri" VNone;
      uri ← (if truthy source_uri then Ok source_uri
             else source_doc_uri ← get data "source_doc_uri" VNone;
                  Ok (or_ source_doc_uri (VStr "n/a")));
      summary ← get data "document_summary" (VDict []);
      text ← get summary "text" VNone;
      let summary_text := or_ text (VStr "") in
      n ← len summary_text;
      preview ← (if Nat.ltb 240 n then slice_then_ellipsis summary_text
                 else Ok (or_ summary_text (VStr "No preview")));
      Ok (uri, preview)
  end.

(** [except (json.JSONDecodeError, TypeError)]: the fall-back values; any
    other exception propagates. *)
Definition describe_input (prev : string) : Result (value * value) :=
  match parse_input prev with
  | Raise JSONDecodeError | Raise (TypeError _) =>
      Ok (VStr prev, VStr ("Testing HITL for document: " +:+ suffix 60 prev))
  | r => r
  end.

(** [HitlCoordinator.prepare_request] *)
Definition prepare_request (prev : string) : Handler unit :=
  rid ← draw_uuid4;
  '(uri, preview) ← lift (describe_input prev);
  store_context rid
    [("payload", VStr prev); ("source_uri", uri); ("preview", preview)];;
  send_message
    (MsgApprovalRequest
       {| req_approval_id := rid;
          req_title := "Manual approval required";
          req_message := "Please review the extracted result.";
          req_source_uri := uri;
          req_preview := preview |})
    (Some "human_review_exec").

(** The message of the rejection branch:
    [json.dumps({overall_status: rejected_by_human, remarks: comment or Rejected})]. *)
Definition rejection_message (comment : option string) : Message :=
  MsgValue (VStr (json_dumps
    (VDict [("overall_status", VStr "rejected_by_human");
            ("remarks", VStr (str_or comment "Rejected"))]))).

(** [HitlCoordinator.handle_response] *)
Definition handle_response (feedback : RequestResponse) : Handler unit :=
  let response := rr_data feedback in
  info ← pop_context (resp_approval_id response);
  let payload := default VNone (items_get "payload" info) in
  add_event
    (VDict [("type", VStr "hitl");
            ("status", VStr (if resp_approved response then "approved" else "rejected"));
            ("approval_id", VStr (resp_approval_id response))]);;
  if resp_approved response && truthy payload
  then send_message (MsgValue payload) None
  else send_message (rejection_message (resp_comment response)) None.

Definition progress (phase status : string) : value :=
  VDict [("type", VStr "progress"); ("phase", VStr phase); ("status", VStr status)].

Definition nl : string := String (Ascii.ascii_of_nat 10) EmptyString.

(** The f-string of [build_prompt]. *)
Definition prompt_text (doc : DocInput) : string :=
  nl +:+ "        Document Details:" +:+ nl
  +:+ "        - Document URI: " +:+ document_uri doc +:+ nl
  +:+ "        - Document Title: " +:+ str_or (document_title doc) "N/A" +:+ nl
  +:+ "        - Page Count: "
  +:+ py_str (from_option VInt VNone (page_count doc)) +:+ nl
  +:+ "        ".

(** [build_prompt] *)
Definition build_prompt (doc : DocInput) : Handler unit :=
  send_message (MsgValue (VStr (prompt_text doc))) None.

Section Executors.
Variable agents : Agents.

(** [extractor_node] *)
Definition extractor_node (msg : string) : Handler unit :=
  result ← lift (run_extractor_20_agent agents msg);
  add_event (progress "extraction" "running");;
  send_message (MsgValue (VStr result)) None.

(** [extractor_result] *)
Definition extractor_result (extractor_output : string) : Handler unit :=
  send_message (MsgValue (VStr extractor_output)) None;;
  add_event (progress "extraction" "completed").

(** [compliance_node] *)
Definition compliance_node (prompt : string) : Handler unit :=
  add_event (progress "compliance" "running");;
  result ← lift (run_compliance_20_agent agents prompt);
  send_message (MsgValue (VStr result)) None.

(** [compliance_result] *)
Definition compliance_result (compliance_output : string) : Handler unit :=
  add_event (progress "compliance" "completed");;
  send_message (MsgValue (VStr compliance_output)) None.

(** [final_result_placeholder] *)
Definition final_result_placeholder (prev : Message) : Handler unit :=
  yield_output prev.

End Executors.
End Handlers.

(** *** The blob sink *)

(** The objects the name [datetime] can reach: the module, the class of
    the same name, and their members. *)
Inductive PyObject : Type :=
| DatetimeModule
| DatetimeClass
| Member (owner : PyObject) (name : string).

Definition datetime_module_names : list string :=
  ["date"; "time"; "timedelta"; "timezone"; "tzinfo"; "MINYEAR"; "MAXYEAR"; "UTC"].

Definition datetime_class_names : list string :=
  ["min"; "max"; "resolution"; "year"; "month"; "day"; "hour"; "minute";
   "second"; "microsecond"; "tzinfo"; "fold"; "today"; "now"; "utcnow";
   "fromtimestamp"; "utcfromtimestamp"; "fromordinal"; "combine";
   "fromisoformat"; "fromisocalendar"; "strptime"; "strftime"; "date";
   "time"; "timetz"; "replace"; "astimezone"; "timetuple"; "utctimetuple";
   "toordinal"; "weekday"; "isoweekday"; "isocalendar"; "isoformat";
   "ctime"; "timestamp"; "utcoffset"; "dst"; "tzname"].

(** Attribute lookup [o.name]. *)
Definition getattr (o : PyObject) (name : string) : Result PyObject :=
  match o with
  | DatetimeModule =>
      if String.eqb name "datetime" then Ok DatetimeClass
      else if existsb (String.eqb name) datetime_module_names then Ok (Member o name)
      else Raise (AttributeError name)
  | DatetimeClass =>
      if existsb (String.eqb name) datetime_class_names then Ok (Member o name)
      else Raise (AttributeError name)
  | Member _ _ => Raise (AttributeError name)
  end.

(** [from datetime import datetime]: what the module-level name [datetime]
    is bound to in [workflow_small.py]. *)
Definition datetime : Result PyObject := getattr DatetimeModule "datetime".

(** The process environment and the services [save_result_to_blob] calls:
    credentials, the blob client, the two helpers of [tools.utils], the
    clock and the compact JSON encoder. Each call returns or raises. *)
Record BlobService : Type := {
  environ : gmap string string;
  DefaultAzureCredential : Result unit;
  AzureCliCredential : Result unit;
  BlobServiceClient : string -> Result unit;
  get_container_client : string -> Result unit;
  create_container : string -> Result unit;
  _name_from_uri : string -> Result string;
  _stable_id : string -> Result string;
  utcnow_strftime : string -> string;
  json_dumps_compact : value -> string;
  upload_blob : string -> string -> Result unit
}.

(** [os.environ[k]] *)
Definition environ_get (az : BlobService) (k : string) : Result string :=
  match environ az !! k with
  | Some v => Ok v
  | None => Raise (KeyError k)
  end.

(** [s.rstrip('/')] *)
Fixpoint rstrip_slash (s : string) : string :=
  match s with
  | EmptyString => EmptyString
  | String c rest =>
      match rstrip_slash rest with
      | EmptyString => if Ascii.eqb c (Ascii.ascii_of_nat 47) then EmptyString else String c EmptyString
      | r => String c r
      end
  end.

Section BlobSink.
Context `{Runtime}.
Variable az : BlobService.

(** The statements of [save_result_to_blob] before the blob name is built:
    configuration, credential, clients, container, and the two ids. *)
Definition blob_prelude (prev : value) : Handler (string * string * string * string * string) :=
  account_url ← lift (environ_get az "AZURE_STORAGE_ACCOUNT_URL");
  container ← lift (environ_get az "AZURE_STORAGE_CONTAINER");
  lift (match DefaultAzureCredential az with
        | Ok _ => Ok tt
        | Raise _ => AzureCliCredential az
        end);;
  lift (BlobServiceClient az account_url);;
  lift (get_container_client az container);;
  match create_container az container with
  | Ok _ => tell (CreateContainer container)
  | Raise _ => mret tt
  end;;
  source_uri ← lift (get prev "source_uri" (VStr "n/a"));
  let src := py_str source_uri in
  fname ← lift (_name_from_uri az src);
  approval_id ← lift (get prev "approval_id" (VStr ""));
  rid ← lift (_stable_id az (src +:+ "|" +:+ py_str approval_id));
  mret (account_url, container, src, fname, rid).

(** [datetime.datetime.utcnow().strftime(fmt)], with [datetime] the name
    the module imported. *)
Definition date_path (fmt : string) : Result string :=
  dt ← datetime;
  cls ← getattr dt "datetime";
  _ ← getattr cls "utcnow";
  Ok (utcnow_strftime az fmt).

(** [save_result_to_blob] *)
Definition save_result_to_blob (prev : value) : Handler unit :=
  '(account_url, container, src, fname, rid) ← blob_prelude prev;
  day ← lift (date_path "%Y/%m/%d");
  let blob_name := "runs/" +:+ day +:+ "/" +:+ fname +:+ "-" +:+ rid +:+ ".json" in
  status ← lift (get prev "status" VNone);
  comment ← lift (get prev "comment" VNone);
  approval_id ← lift (get prev "approval_id" VNone);
  preview ← lift (get prev "preview" VNone);
  timestamp_utc ← lift (get prev "timestamp_utc" VNone);
  let payload :=
    [("source_uri", VStr src); ("status", status); ("comment", comment);
     ("approval_id", approval_id); ("preview", preview);
     ("timestamp_utc", timestamp_utc);
     ("workflow", VDict [("name", VStr "doc_20_page_workflow");
                         ("node", VStr "save_results");
                         ("version", VStr "v1")])] in
  let data := json_dumps_compact az (VDict payload) in
  lift (upload_blob az blob_name data);;
  tell (UploadBlob blob_name data);;
  let blob_url := rstrip_slash account_url +:+ "/" +:+ container +:+ "/" +:+ blob_name in
  yield_output
    (MsgValue (VDict (payload ++ [("blob_url", VStr blob_url);
                                  ("blob_name", VStr blob_name);
                                  ("container", VStr container)]))).

End BlobSink.

(** *** The graph that [workflow_small] builds *)

(** An executor of the graph: a function or class executor, which handles
    the messages whose shape its handlers declare, or the library's
    [RequestInfoExecutor]. *)
Inductive Node : Type :=
| FunctionNode (handle : Message -> option (Handler unit))
| RequestInfoNode.

Record Graph : Type := {
  start_executor : string;
  executors : list (string * Node);
  edges : list (string * string);
  max_iterations : nat
}.

Section Builder.
Context `{Runtime}.
Variable agents : Agents.

(** A [FunctionExecutor] over a handler annotated [str]. *)
Definition on_str (h : string -> Handler unit) : Node :=
  FunctionNode (fun m => match m with MsgValue (VStr s) => Some (h s) | _ => None end).

(** [HitlCoordinator]: [prepare_request] takes a [str], [handle_response]
    a [RequestResponse]. *)
Definition HitlCoordinator : Node :=
  FunctionNode (fun m =>
    match m with
    | MsgValue (VStr prev) => Some (prepare_request prev)
    | MsgRequestResponse feedback => Some (handle_response feedback)
    | _ => None
    end).

(** [workflow_small]: the executors and the edges added to the builder.
    Writing the diagram file is left out. *)
Definition workflow_small : Graph :=
  {| start_executor := "doc_prompt";
     executors :=
       [("doc_prompt",
          FunctionNode (fun m =>
            match m with MsgDocInput doc => Some (build_prompt doc) | _ => None end));
        ("extractor_node", on_str (extractor_node agents));
        ("extractor_result_node", on_str extractor_result);
        ("compliance_node", on_str (compliance_node agents));
        ("compliance_result_node", on_str compliance_result);
        ("hitl_coordinator", HitlCoordinator);
        ("human_review_exec", RequestInfoNode);
        ("final_result_placeholder",
          FunctionNode (fun m => Some (final_result_placeholder m)))];
     edges :=
       [("doc_prompt", "extractor_node");
        ("extractor_node", "extractor_result_node");
        ("extractor_result_node", "compliance_node");
        ("compliance_node", "compliance_result_node");
        ("compliance_result_node", "hitl_coordinator");
        ("hitl_coordinator", "human_review_exec");
        ("human_review_exec", "hitl_coordinator");
        ("hitl_coordinator", "final_result_placeholder")];
     max_iterations := 80 |}.

End Builder.

(** *** The run engine *)

(** Modelled from the spec: the state of a run of the engine
    ([agent_framework]'s workflow runner, which is not part of the
    sources): the messages not yet consumed with their destination, the
    outstanding requests with the node that raised them, and the iteration
    counter; together with the module state the handlers work on. *)
Record RunState : Type := {
  pending : list (string * Message);
  outstanding : gmap string (string * ApprovalRequest);
  iteration : nat;
  globals : World
}.

Inductive Status : Type :=
| Running
| Completed
| Failed (e : exn).

Section Engine.
Context `{Runtime}.
Variable g : Graph.

Fixpoint find_node (id : string) (nodes : list (string * Node)) : option Node :=
  match nodes with
  | [] => None
  | (id', n) :: rest => if String.eqb id id' then Some n else find_node id rest
  end.

(** Modelled from the spec: a step declares the payload shapes it accepts;
    a message of another shape does not trigger it. *)
Definition accepts (id : string) (m : Message) : bool :=
  match find_node id (executors g) with
  | Some (FunctionNode handle) =>
      match handle m with Some _ => true | None => false end
  | Some RequestInfoNode =>
      match m with MsgApprovalRequest _ => true | _ => false end
  | None => false
  end.

(** Modelled from the spec: [Forward]: a message goes to every outgoing
    edge of its sender, or to the target override alone. *)
Definition route (sender : string) (m : Message) (target_id : option string)
  : list (string * Message) :=
  omap (fun e : string * string =>
          if String.eqb e.1 sender
             && match target_id with
                | Some t => String.eqb e.2 t
                | None => true
                end
             && accepts e.2 m
          then Some (e.2, m) else None)
       (edges g).

(** Modelled from the spec: the effects of one invocation read as a step
    result: events in emission order, forwarded messages, and whether the
    step yielded the final output, after which nothing further executes. *)
Fixpoint interpret (sender : string) (effs : list Effect)
  : list Event * list (string * Message) * bool :=
  match effs with
  | [] => ([], [], false)
  | SendMessage m t :: rest =>
      let '(evs, msgs, y) := interpret sender rest in
      (evs, route sender m t ++ msgs, y)
  | AddEvent d :: rest =>
      let '(evs, msgs, y) := interpret sender rest in
      (WorkflowEvent d :: evs, msgs, y)
  | YieldOutput m :: _ => ([WorkflowOutputEvent m], [], true)
  | CreateContainer _ :: rest | UploadBlob _ _ :: rest => interpret sender rest
  end.

(** Modelled from the spec: one node invoked on one message. The request
    node suspends: it records the request under a generated id and emits
    the request event. A raising handler fails the run. *)
Definition invoke (id : string) (m : Message) (st : RunState)
  : list Event * list (string * Message) * RunState * Status :=
  match find_node id (executors g) with
  | None => ([], [], st, Running)
  | Some RequestInfoNode =>
      match m with
      | MsgApprovalRequest req =>
          let w := globals st in
          let request_id := uuid4 (uuid_drawn w) in
          ([RequestInfoEvent request_id req], [],
           {| pending := pending st;
              outstanding := <[request_id := (id, req)]> (outstanding st);
              iteration := iteration st;
              globals := {| APPROVAL_CONTEXT := APPROVAL_CONTEXT w;
                            uuid_drawn := S (uuid_drawn w) |} |},
           Running)
      | _ => ([], [], st, Running)
      end
  | Some (FunctionNode handle) =>
      match handle m with
      | None => ([], [], st, Running)
      | Some h =>
          let o := h (globals st) in
          let '(evs, msgs, yielded) := interpret id (effects o) in
          let st' := {| pending := pending st; outstanding := outstanding st;
                        iteration := iteration st; globals := world o |} in
          match result o with
          | Raise e => (evs, [], st', Failed e)
          | Ok _ =>
              if yielded then (evs, [], st', Completed)
              else (evs ++ [ExecutorCompletedEvent id], msgs, st', Running)
          end
      end
  end.

(** Modelled from the spec: one pass over the ready messages, in order,
    stopping at the first final output or failure. *)
Fixpoint deliver (ready : list (string * Message)) (st : RunState)
  : list Event * list (string * Message) * RunState * Status :=
  match ready with
  | [] => ([], [], st, Running)
  | (id, m) :: rest =>
      let '(evs, msgs, st', status) := invoke id m st in
      match status with
      | Running =>
          let '(evs', msgs', st'', status') := deliver rest st' in
          (evs ++ evs', msgs ++ msgs', st'', status')
      | _ => (evs, msgs, st', status)
      end
  end.

(** Modelled from the spec: passes until no message is ready (the run is
    then awaiting input, or idle), a node yields the final output, a step
    fails, or the iteration bound is exceeded. [fuel] is the number of
    passes left under the bound. *)
Fixpoint run_passes (fuel : nat) (st : RunState) : Stream * RunState :=
  match pending st with
  | [] => (([], None), st)
  | ready =>
      match fuel with
      | 0 => (([], Some IterationLimitExceeded), st)
      | S fuel' =>
          let '(evs, msgs, st', status) := deliver ready st in
          let st'' := {| pending := msgs; outstanding := outstanding st';
                         iteration := S (iteration st'); globals := globals st' |} in
          match status with
          | Running =>
              let '((evs', e), st3) := run_passes fuel' st'' in
              ((evs ++ evs', e), st3)
          | Completed => ((evs, None), st'')
          | Failed e => ((evs, Some e), st'')
          end
      end
  end.

(** Modelled from the spec: [start]: a fresh run state at the start node. *)
Definition run_stream (doc : DocInput) (st : RunState) : Stream * RunState :=
  run_passes (max_iterations g)
    {| pending := [(start_executor g, MsgDocInput doc)];
       outstanding := ∅;
       iteration := 0;
       globals := globals st |}.

(** Modelled from the spec: the messages a batch of answers turns into:
    each answer is wrapped with its request and leaves the node that asked
    along its outgoing edges; an answer for an id that is not outstanding
    is a [CorrelationError]. *)
Fixpoint resume_messages (answers : list (string * ApprovalResponse))
    (out : gmap string (string * ApprovalRequest))
  : Result (list (string * Message) * gmap string (string * ApprovalRequest)) :=
  match answers with
  | [] => Ok ([], out)
  | (request_id, response) :: rest =>
      match out !! request_id with
      | None => Raise (CorrelationError request_id)
      | Some (node, req) =>
          '(msgs, out') ← resume_messages rest (delete request_id out);
          Ok (route node
                (MsgRequestResponse
                   {| rr_data := response; rr_original_request := req;
                      rr_request_id := request_id |})
                None ++ msgs, out')
      end
  end.

(** Modelled from the spec: [resume]: the run continues from the answered
    requests; a rejected batch leaves the run state unchanged. *)
Definition send_responses_streaming (responses : gmap string ApprovalResponse)
    (st : RunState) : Stream * RunState :=
  match resume_messages (map_to_list responses) (outstanding st) with
  | Raise e => (([], Some e), st)
  | Ok (msgs, out') =>
      run_passes (max_iterations g - iteration st)
        {| pending := msgs; outstanding := out';
           iteration := iteration st; globals := globals st |}
  end.

End Engine.

End WorkflowSmall.

(** ** workflow_one.py *)

Module WorkflowOne.

Record HumanReviewPacket : Type := {
  hr_document_uri : string;
  hr_summary : string;
  hr_compliance_notes : string;
  hr_prompt : string
}.

(** The second positional argument of a [ctx.send_message] call. *)
Inductive Arg : Type :=
| ArgValue (v : value)
| ArgPacket (p : HumanReviewPacket).

(** The context as the adapter uses it: the state dictionary and the
    [send_message] calls made so far, each with its two arguments. *)
Record Context : Type := {
  state : gmap string value;
  sent : list (value * Arg)
}.

Section Adapter.
Context `{Runtime}.

(** The value of the [except] branch of [_parse_compliance_json]. *)
Definition forced_review (text : string) : value :=
  VDict [("compliance", VDict [("is_compliant", VBool false);
                               ("notes", VList [VStr text])]);
         ("needs_human_review", VBool true)].

(** The [try] body of [_parse_compliance_json]. On anything but a dict the
    membership test, the item assignment or [setdefault] raises (a
    [TypeError] or an [AttributeError], by the shape). *)
Definition parse_body (text : string) : Result value :=
  match json_loads (if String.eqb text "" then "{}" else text) with
  | None => Raise JSONDecodeError
  | Some (VDict items) =>
      let obj := if items_mem "compliance" items then items
                 else items_set "compliance" (VDict []) items in
      Ok (VDict (items_setdefault "needs_human_review" (VBool false) obj))
  | Some _ => Raise (TypeError "not a dict")
  end.

(** [_parse_compliance_json]: [except Exception] catches every failure of
    the body. *)
Definition _parse_compliance_json (text : string) : value :=
  match parse_body text with
  | Ok obj => obj
  | Raise _ => forced_review text
  end.

Definition set_state (k : string) (v : value) (ctx : Context) : Context :=
  {| state := <[k := v]> (state ctx); sent := sent ctx |}.

Definition call_send_message (a : value) (b : Arg) (ctx : Context) : Context :=
  {| state := state ctx; sent := sent ctx ++ [(a, b)] |}.

(** [ComplianceAdapter.on_compliance], on the text of the agent's response
    ([None] when the response has no text). *)
Definition on_compliance (text : option string) (ctx : Context) : Context * Result unit :=
  let comp_text := str_or text "" in
  let ctx := set_state "compliance_text" (VStr comp_text) ctx in
  let comp := _parse_compliance_json comp_text in
  let flags :=
    compliance ← get comp "compliance" (VDict []);
    is_compliant ← get compliance "is_compliant" (VBool false);
    needs_human_review ← get comp "needs_human_review" (VBool false);
    Ok (truthy is_compliant, truthy needs_human_review) in
  match flags with
  | Raise e => (ctx, Raise e)
  | Ok (is_ok, needs_human) =>
      if is_ok && negb needs_human then
        (call_send_message (VStr "save_results")
           (ArgValue (VDict [("approved", VBool true); ("auto", VBool true);
                             ("compliance", comp)])) ctx,
         Ok tt)
      else
        let extracted_text := py_str (default (VStr "") (state ctx !! "extractor_text")) in
        match (compliance ← get comp "compliance" (VDict []);
               get compliance "notes" (VList [])) with
        | Raise e => (ctx, Raise e)
        | Ok notes =>
            let notes_text :=
              match notes with
              | VList xs => String.concat "; " (map py_str xs)
              | _ => py_str notes
              end in
            let packet :=
              {| hr_document_uri := py_str (default (VStr "") (state ctx !! "document_uri"));
                 hr_summary := prefix 1000 extracted_text;
                 hr_compliance_notes :=
                   if String.eqb notes_text "" then "(no notes)" else notes_text;
                 hr_prompt := "Approve or Reject? (type 'approve' / 'reject')" |} in
            (call_send_message (VStr "human_review_exec") (ArgPacket packet) ctx, Ok tt)
        end
  end.

(** The auto-pass branch was taken: a [send_message] call whose first
    argument is [save_results]. *)
Definition auto_passed (ctx : Context) : bool :=
  existsb (fun c : value * Arg =>
             match c.1 with VStr s => String.eqb s "save_results" | _ => false end)
          (sent ctx).

End Adapter.

End WorkflowOne.

(** ** workflow_api.py *)

Module WorkflowApi.

(** An entry of [workflow_sessions]: the three keys [start_workflow] sets,
    and the [pending_responses] dictionary that [submit_approval] adds on
    first use. *)
Record Session : Type := {
  status : string;
  session_document_uri : string;
  created_at : string;
  pending_responses : option (gmap string ApprovalResponse)
}.

(** An entry of [pending_approvals]. *)
Record ApprovalInfo : Type := {
  info_session_id : string;
  info_approval_data : list (string * value)
}.

(** The two module-level tables. *)
Record Globals : Type := {
  workflow_sessions : gmap string Session;
  pending_approvals : gmap string ApprovalInfo
}.

(** The body of a POST to the approval endpoint. *)
Record ApprovalDecision : Type := {
  request_id : string;
  approval_id : string;
  approved : bool;
  comment : option string
}.

(** One server-sent event: the two arguments of [format_sse]. The wall
    clock is not modelled, so the [timestamp] entries are left out. *)
Record SseRecord : Type := {
  event_type : string;
  data : list (string * value)
}.

Definition sse (event_type : string) (data : list (string * value)) : SseRecord :=
  {| event_type := event_type; data := data |}.

(** [format_sse] *)
Definition format_sse `{Runtime} (r : SseRecord) : string :=
  "event: " +:+ event_type r +:+ WorkflowSmall.nl
  +:+ "data: " +:+ json_dumps (VDict (data r)) +:+ WorkflowSmall.nl +:+ WorkflowSmall.nl.

(** The message an error record carries for a caught exception. It stands
    for [str(e)], of which it keeps what identifies the exception: Python's
    text says more (the type of the object in front of the attribute of an
    [AttributeError], quotes around the key of a [KeyError], the position
    after a [JSONDecodeError]). The statements below compare error records
    built with this function and never look into the text. *)
Definition exn_str (e : exn) : string :=
  match e with
  | AttributeError what => "no attribute " +:+ what
  | KeyError key => key
  | TypeError what => what
  | UnboundLocalError name => "cannot access local variable " +:+ name
  | JSONDecodeError => "Expecting value"
  | HTTPException _ detail => detail
  | CorrelationError request_id => "unknown request " +:+ request_id
  | IterationLimitExceeded => "iteration limit exceeded"
  | StepFailure message => message
  end.

(** [start_workflow], given the generated session id and the clock reading. *)
Definition start_workflow (document_uri session_id now : string) (g : Globals) : Globals :=
  {| workflow_sessions :=
       <[session_id := {| status := "initializing";
                          session_document_uri := document_uri;
                          created_at := now;
                          pending_responses := None |}]> (workflow_sessions g);
     pending_approvals := pending_approvals g |}.

(** [submit_approval]: the reply (or the HTTP error) and the tables after. *)
Definition submit_approval (decision : ApprovalDecision) (g : Globals)
  : Result value * Globals :=
  match pending_approvals g !! request_id decision with
  | None => (Raise (HTTPException 404 "Approval request not found"), g)
  | Some approval_info =>
      let session_id := info_session_id approval_info in
      match workflow_sessions g !! session_id with
      | None => (Raise (HTTPException 404 "Workflow session not found"), g)
      | Some session =>
          let resp := {| resp_approval_id := approval_id decision;
                         resp_approved := approved decision;
                         resp_comment := comment decision |} in
          let responses := default ∅ (pending_responses session) in
          let session' :=
            {| status := status session;
               session_document_uri := session_document_uri session;
               created_at := created_at session;
               pending_responses := Some (<[request_id decision := resp]> responses) |} in
          (Ok (VDict [("status", VStr "success");
                      ("message", VStr ("Approval " +:+
                         (if approved decision then "granted" else "rejected")));
                      ("approval_id", VStr (approval_id decision))]),
           {| workflow_sessions := <[session_id := session']> (workflow_sessions g);
              pending_approvals := delete (request_id decision) (pending_approvals g) |})
      end
  end.

(** The workflow object the generator drives: [workflow_small(uri)] builds
    it, [run_stream] and [send_responses_streaming] run it. *)
Record Workflow : Type := {
  wf_state : Type;
  wf_build : string -> Result wf_state;
  wf_run_stream : DocInput -> wf_state -> Stream * wf_state;
  wf_send_responses_streaming :
    gmap string ApprovalResponse -> wf_state -> Stream * wf_state
}.

(** A call the generator makes on the workflow object. *)
Inductive EngineCall : Type :=
| RunStream (doc_input : DocInput)
| SendResponses (responses : gmap string ApprovalResponse).

(** What one run of the generator leaves behind: the records it yielded,
    the tables at its end, its calls on the workflow, and the replies given
    to the submissions that arrived meanwhile. *)
Record Trace : Type := {
  records : list SseRecord;
  final : Globals;
  calls : list EngineCall;
  replies : list (ApprovalDecision * Result value)
}.

(** How the [async for] over a stream ends: by the [return] after a
    workflow output, or at the end of the stream with the requests seen. *)
Inductive StreamEnd : Type :=
| Returned
| Exhausted (request_info_events : list (string * ApprovalRequest)).

Definition is_str (v : value) (s : string) : bool :=
  match v with VStr s' => String.eqb s' s | _ => false end.

Section Generator.
Context `{Runtime}.

(** The records of a custom [WorkflowEvent]. *)
Definition custom_records (event_data : value) : list SseRecord :=
  match event_data with
  | VDict items =>
      let event_type := default VNone (items_get "type" items) in
      if is_str event_type "progress" then
        [sse "progress" [("phase", default VNone (items_get "phase" items));
                         ("status", default VNone (items_get "status" items))]]
      else if is_str event_type "hitl" then
        [sse "hitl_status" [("status", default VNone (items_get "status" items));
                            ("approval_id", default VNone (items_get "approval_id" items))]]
      else []
  | _ => []
  end.

(** The records of an executor-completed event. Where its class derives
    from [WorkflowEvent], the third test of the dispatch takes the event
    before the fourth can, and its data, which is no dictionary, yields
    nothing. *)
Definition completed_records (executor_id : string) : list SseRecord :=
  if executor_event_is_workflow_event then []
  else [sse "executor_completed" [("executor_id", VStr executor_id)]].

(** The body of [async for event in stream], folded over the events. *)
Fixpoint consume (session_id : string) (events : list Event)
    (request_info_events : list (string * ApprovalRequest)) (g : Globals)
  : list SseRecord * Globals * StreamEnd :=
  match events with
  | [] => ([], g, Exhausted request_info_events)
  | WorkflowOutputEvent output :: _ =>
      ([sse "workflow_completed" [("session_id", VStr session_id);
                                  ("result", VStr (message_str output))]],
       g, Returned)
  | RequestInfoEvent rid req :: rest =>
      let approval_data :=
        [("request_id", VStr rid);
         ("approval_id", VStr (req_approval_id req));
         ("title", VStr (req_title req));
         ("message", VStr (req_message req));
         ("source_uri", req_source_uri req);
         ("preview", req_preview req)] in
      let g' :=
        {| workflow_sessions := workflow_sessions g;
           pending_approvals :=
             <[rid := {| info_session_id := session_id;
                         info_approval_data := approval_data |}]> (pending_approvals g) |} in
      let '(recs, g'', fin) :=
        consume session_id rest (request_info_events ++ [(rid, req)]) g' in
      (sse "approval_required" approval_data :: recs, g'', fin)
  | WorkflowEvent event_data :: rest =>
      let '(recs, g', fin) := consume session_id rest request_info_events g in
      (custom_records event_data ++ recs, g', fin)
  | ExecutorCompletedEvent executor_id :: rest =>
      let '(recs, g', fin) := consume session_id rest request_info_events g in
      (completed_records executor_id ++ recs, g', fin)
  | OtherEvent _ :: rest => consume session_id rest request_info_events g
  end.

Variable wf : Workflow.

(** The submissions that reach [submit_approval] while the generator
    sleeps, by clock tick. The coroutine gives up control only there and at
    its own yields, and [submit_approval] touches nothing but the two
    tables, which the generator never reads back: a submission served at a
    yield after its request was registered has the effect of one served
    during the first sleep, and one served before that finds no request and
    changes nothing. *)
Variable posts : nat -> list ApprovalDecision.

(** [await asyncio.sleep(1)]: the submissions of this tick are served. *)
Definition sleep (now : nat) (g : Globals)
  : Globals * list (ApprovalDecision * Result value) :=
  foldl (fun acc decision =>
           let '(reply, g') := submit_approval decision acc.1 in
           (g', acc.2 ++ [(decision, reply)]))
        (g, []) (posts now).

Definition max_wait : nat := 300.

(** The polling loop [while waited < max_wait], with [n] iterations left.
    It returns the last value of [all_responses_ready] ([None] if it was
    never assigned), the clock, the tables and the replies given. *)
Fixpoint poll (n : nat) (request_info_events : list (string * ApprovalRequest))
    (pending_responses : gmap string ApprovalResponse)
    (all_responses_ready : option bool) (now : nat) (g : Globals)
  : option bool * nat * Globals * list (ApprovalDecision * Result value) :=
  match n with
  | 0 => (all_responses_ready, now, g, [])
  | S n' =>
      if forallb (fun req_event : string * ApprovalRequest =>
                    bool_decide (is_Some (pending_responses !! req_event.1)))
                 request_info_events
      then (Some true, now, g, [])
      else
        let '(g', served) := sleep now g in
        let '(ready, now', g'', served') :=
          poll n' request_info_events pending_responses (Some false) (S now) g' in
        (ready, now', g'', served ++ served')
  end.

(** One turn of the generator's [while True]. *)
Inductive Turn : Type :=
| Done (t : Trace)
| Again (t : Trace) (pending_responses : gmap string ApprovalResponse)
        (w : wf_state wf) (now : nat).

Definition timeout_record : SseRecord :=
  sse "error" [("message", VStr "Approval timeout - no response received")].

Definition error_record (e : exn) : SseRecord :=
  sse "error" [("message", VStr (exn_str e))].

Definition loop_body (session_id : string) (doc_input : DocInput)
    (pending_responses : gmap string ApprovalResponse)
    (w : wf_state wf) (now : nat) (g : Globals) : Turn :=
  let '(call, (stream, w'), pending_responses') :=
    if bool_decide (pending_responses = ∅)
    then (RunStream doc_input, wf_run_stream wf doc_input w, pending_responses)
    else (SendResponses pending_responses,
          wf_send_responses_streaming wf pending_responses w, ∅) in
  let '(recs, g1, fin) := consume session_id stream.1 [] g in
  match fin with
  | Returned =>
      Done {| records := recs; final := g1; calls := [call]; replies := [] |}
  | Exhausted request_info_events =>
      match stream.2 with
      | Some e =>
          Done {| records := recs ++ [error_record e]; final := g1;
                  calls := [call]; replies := [] |}
      | None =>
          match request_info_events with
          | [] => Done {| records := recs; final := g1; calls := [call]; replies := [] |}
          | _ =>
              let waiting :=
                sse "waiting_for_approval"
                    [("count", VInt (Z.of_nat (length request_info_events)))] in
              let '(ready, now', g2, served) :=
                poll max_wait request_info_events pending_responses' None now g1 in
              match ready with
              | Some true =>
                  Again {| records := recs ++ [waiting]; final := g2;
                           calls := [call]; replies := served |}
                        pending_responses' w' now'
              | Some false =>
                  Done {| records := recs ++ [waiting; timeout_record]; final := g2;
                          calls := [call]; replies := served |}
              | None =>
                  Done {| records := recs ++ [waiting;
                            error_record (UnboundLocalError "all_responses_ready")];
                          final := g2; calls := [call]; replies := served |}
              end
          end
      end
  end.

(** [t] followed by what the rest of the run leaves. *)
Definition followed_by (t rest : Trace) : Trace :=
  {| records := records t ++ records rest; final := final rest;
     calls := calls t ++ calls rest; replies := replies t ++ replies rest |}.

(** The [while True] loop; [fuel] bounds its turns. *)
Fixpoint run_loop (fuel : nat) (session_id : string) (doc_input : DocInput)
    (pending_responses : gmap string ApprovalResponse)
    (w : wf_state wf) (now : nat) (g : Globals) : option Trace :=
  match fuel with
  | 0 => None
  | S fuel' =>
      match loop_body session_id doc_input pending_responses w now g with
      | Done t => Some t
      | Again t pending_responses' w' now' =>
          followed_by t <$>
            run_loop fuel' session_id doc_input pending_responses' w' now' (final t)
      end
  end.

(** [event_generator]: the session dictionary has no title or page count,
    so [session.get] gives [None] for both. *)
Definition event_generator (fuel : nat) (session_id : string) (session : Session)
    (now : nat) (g : Globals) : option Trace :=
  let connected := sse "connected" [("session_id", VStr session_id)] in
  match wf_build wf (session_document_uri session) with
  | Raise e =>
      Some {| records := [connected; error_record e]; final := g;
              calls := []; replies := [] |}
  | Ok w =>
      let doc_input := {| document_uri := session_document_uri session;
                          document_title := None; page_count := None |} in
      let started :=
        sse "workflow_started" [("session_id", VStr session_id);
                                ("document_uri", VStr (session_document_uri session))] in
      followed_by {| records := [connected; started]; final := g;
                     calls := []; replies := [] |}
        <$> run_loop fuel session_id doc_input ∅ w now g
  end.

(** [stream_workflow_events] *)
Definition stream_workflow_events (fuel : nat) (session_id : string) (now : nat)
    (g : Globals) : Result (option Trace) :=
  match workflow_sessions g !! session_id with
  | None => Raise (HTTPException 404 "Workflow session not found")
  | Some session => Ok (event_generator fuel session_id session now g)
  end.

End Generator.

(** A terminal record is [workflow_completed] or [error]. *)
Definition is_terminal (r : SseRecord) : bool :=
  String.eqb (event_type r) "workflow_completed" || String.eqb (event_type r) "error".

Definition has_type (ty : string) (r : SseRecord) : bool := String.eqb (event_type r) ty.

End WorkflowApi.

(** ** The served workflow and sample collaborators *)

Module Samples.
Import WorkflowSmall WorkflowApi.

(** The workflow object of a session: the graph of [workflow_small] run by
    the engine, over the module state [w0] of the process. *)
Definition served `{Runtime} (agents : Agents) (w0 : World) : Workflow :=
  {| wf_state := RunState;
     wf_build := fun _ =>
       Ok {| pending := []; outstanding := ∅; iteration := 0; globals := w0 |};
     wf_run_stream := run_stream (workflow_small agents);
     wf_send_responses_streaming := send_responses_streaming (workflow_small agents) |}.

(** A workflow object whose first stream is the given one and whose later
    streams are empty. *)
Definition scripted (stream : Stream) : Workflow :=
  {| wf_state := unit;
     wf_build := fun _ => Ok tt;
     wf_run_stream := fun _ w => (stream, w);
     wf_send_responses_streaming := fun _ w => (([], None), w) |}.

Definition quote : string := String (Ascii.ascii_of_nat 34) EmptyString.

(** A compliance verdict in the shape the compliance prompt asks for. *)
Definition compliant_text : string :=
  "{" +:+ quote +:+ "overall_status" +:+ quote +:+ ": "
  +:+ quote +:+ "compliant" +:+ quote +:+ "}".

(** A small JSON encoder, enough to run the model on sample inputs. *)
Fixpoint sample_dumps (v : value) : string :=
  match v with
  | VNone => "null"
  | VBool b => if b then "true" else "false"
  | VInt z => pretty z
  | VFloat _ rendering => rendering
  | VStr s => quote +:+ s +:+ quote
  | VList xs => "[" +:+ String.concat ", " (map sample_dumps xs) +:+ "]"
  | VDict items =>
      "{" +:+ String.concat ", "
                (map (fun '(k, x) => quote +:+ k +:+ quote +:+ ": " +:+ sample_dumps x) items)
      +:+ "}"
  end.

(** A decoder that knows the documents of the samples. *)
Definition sample_loads (s : string) : option value :=
  if String.eqb s "{}" then Some (VDict [])
  else if String.eqb s compliant_text
  then Some (VDict [("overall_status", VStr "compliant")])
  else None.

#[refine] Instance sample_runtime : Runtime :=
  {| json_loads := sample_loads;
     json_dumps := sample_dumps;
     py_repr := sample_dumps;
     object_repr := fun _ => "<object>";
     uuid4 := fun n => "uuid-" +:+ pretty n;
     slice_hashable := true;
     executor_event_is_workflow_event := true |}.
Proof. all: reflexivity. Defined.

(** Agents that extract a fixed text and return the given verdict. *)
Definition sample_agents (verdict : string) : Agents :=
  {| run_extractor_20_agent := fun _ => Ok "extracted fields";
     run_compliance_20_agent := fun _ => Ok verdict |}.

Definition empty_world : World := {| APPROVAL_CONTEXT := ∅; uuid_drawn := 0 |}.

(** The tables after [start_workflow] created session [s1]. *)
Definition one_session : Globals :=
  start_workflow "doc-1" "s1" "2025-01-01T00:00:00"
    {| workflow_sessions := ∅; pending_approvals := ∅ |}.

Definition session_s1 : Session :=
  {| status := "initializing"; session_document_uri := "doc-1";
     created_at := "2025-01-01T00:00:00"; pending_responses := None |}.

(** Nobody submits anything. *)
Definition no_posts : nat -> list ApprovalDecision := fun _ => [].

(** One submission, made during the first second of the wait. *)
Definition post_at_first_tick (d : ApprovalDecision) : nat -> list ApprovalDecision :=
  fun now => match now with 0 => [d] | _ => [] end.

End Samples.

(** ** workflow_api.py: the other endpoints *)

Module Endpoints.
Import WorkflowApi.

(** The body of a POST to the start endpoint. *)
Record WorkflowStartRequest : Type := {
  start_document_uri : string;
  start_document_title : option string;
  start_page_count : option Z
}.

(** [start_workflow] as an endpoint: the reply and the tables after, given
    the generated session id and the clock reading. Only the uri of the
    request is kept. *)
Definition start_workflow_endpoint (request : WorkflowStartRequest)
    (session_id now : string) (g : Globals) : value * Globals :=
  (VDict [("session_id", VStr session_id);
          ("message", VStr "Workflow session created. Connect to /api/workflow/{session_id}/events for real-time updates.")],
   start_workflow (start_document_uri request) session_id now g).

(** [get_workflow_status] *)
Definition get_workflow_status (session_id : string) (g : Globals) : Result Session :=
  match workflow_sessions g !! session_id with
  | None => Raise (HTTPException 404 "Workflow session not found")
  | Some session => Ok session
  end.

End Endpoints.

(** ** main.py *)

Module Main.
Import WorkflowApi.

(** The operator's terminal: the lines typed at the successive [input]
    calls, and the two string methods applied to them. *)
Record Console : Type := {
  typed : nat -> string;
  str_strip : string -> string;
  str_lower : string -> string
}.

(** How the [async for] of [run_once] ends. *)
Inductive Collected : Type :=
| Output (data : Message)
| Requests (request_info_events : list (string * ApprovalRequest)).

Section RunOnce.
Context `{Runtime}.
Variable console : Console.

(** What the branch for custom events evaluates before printing:
    [phase.upper()] of a progress event and [approval_id[:8]] of a hitl
    event, each with its default for a missing key. *)
Definition inspect_custom (event_data : value) : Result unit :=
  match event_data with
  | VDict items =>
      let event_type := default VNone (items_get "type" items) in
      if is_str event_type "progress" then
        match default (VStr "unknown") (items_get "phase" items) with
        | VStr _ => Ok tt
        | _ => Raise (AttributeError "upper")
        end
      else if is_str event_type "hitl" then
        match default (VStr "N/A") (items_get "approval_id" items) with
        | VStr _ | VList _ => Ok tt
        | VDict _ =>
            if slice_hashable then Raise (KeyError "slice(None, 8, None)")
            else Raise (TypeError "unhashable type: slice")
        | _ => Raise (TypeError "not subscriptable")
        end
      else Ok tt
  | _ => Ok tt
  end.

(** The body of [async for event in stream] of [run_once]. *)
Fixpoint collect (events : list Event)
    (request_info_events : list (string * ApprovalRequest)) : Result Collected :=
  match events with
  | [] => Ok (Requests request_info_events)
  | WorkflowOutputEvent output :: _ => Ok (Output output)
  | RequestInfoEvent rid req :: rest =>
      collect rest (request_info_events ++ [(rid, req)])
  | WorkflowEvent event_data :: rest =>
      inspect_custom event_data;; collect rest request_info_events
  | ExecutorCompletedEvent _ :: rest | OtherEvent _ :: rest =>
      collect rest request_info_events
  end.

(** The loop over the collected requests: two lines are read for each, the
    decision and the comment, and the response is stored under the request
    id. [line] counts the [input] calls made so far. *)
Fixpoint ask (request_info_events : list (string * ApprovalRequest)) (line : nat)
    (pending_responses : gmap string ApprovalResponse)
  : gmap string ApprovalResponse * nat :=
  match request_info_events with
  | [] => (pending_responses, line)
  | (rid, req) :: rest =>
      let decision :=
        String.eqb (str_lower console (str_strip console (typed console line))) "y" in
      let comment :=
        let c := str_strip console (typed console (S line)) in
        if String.eqb c "" then None else Some c in
      ask rest (S (S line))
        (<[rid := {| resp_approval_id := req_approval_id req;
                     resp_approved := decision;
                     resp_comment := comment |}]> pending_responses)
  end.

Variable wf : Workflow.

(** What [run_once] leaves: its result ([None] when the loop breaks) or its
    exception, and its calls on the workflow. *)
Record Run : Type := {
  returned : Result (option Message);
  run_calls : list EngineCall
}.

(** The [while True] loop of [run_once]; [fuel] bounds its turns. *)
Fixpoint turns (fuel : nat) (input_data : DocInput)
    (pending_responses : gmap string ApprovalResponse) (w : wf_state wf) (line : nat)
  : option Run :=
  match fuel with
  | 0 => None
  | S fuel' =>
      let '(call, (stream, w')) :=
        if bool_decide (pending_responses = ∅)
        then (RunStream input_data, wf_run_stream wf input_data w)
        else (SendResponses pending_responses,
              wf_send_responses_streaming wf pending_responses w) in
      match collect stream.1 [] with
      | Raise e => Some {| returned := Raise e; run_calls := [call] |}
      | Ok (Output output) => Some {| returned := Ok (Some output); run_calls := [call] |}
      | Ok (Requests request_info_events) =>
          match stream.2 with
          | Some e => Some {| returned := Raise e; run_calls := [call] |}
          | None =>
              match request_info_events with
              | [] => Some {| returned := Ok None; run_calls := [call] |}
              | _ =>
                  let '(pending_responses', line') := ask request_info_events line ∅ in
                  match turns fuel' input_data pending_responses' w' line' with
                  | Some r =>
                      Some {| returned := returned r; run_calls := call :: run_calls r |}
                  | None => None
                  end
              end
          end
      end
  end.

(** [run_once] *)
Definition run_once (fuel : nat) (input_data : DocInput) (w : wf_state wf) : option Run :=
  turns fuel input_data ∅ w 0.

End RunOnce.

End Main.

(** ** workflow_one.py: the runner *)

Module WorkflowOneRun.

(** The exceptions of [small_workflow]: one raised by a library or service
    call, the [NameError] of a global name that is not bound, and the
    [RuntimeError] that the [except] clause raises from what it caught. *)
Inductive failure : Type :=
| Library (e : exn)
| NameError (name : string)
| RuntimeError (cause : failure).

Inductive Ending (A : Type) : Type :=
| Returns (a : A)
| Fails (f : failure).
Arguments Returns {A} a.
Arguments Fails {A} f.

(** The calls on the outside that returned, in program order. *)
Inductive Step : Type :=
| EnterCredential
| EnterProject
| CreateAgent (name instructions : string)
| EnterAgent (agent_id : string)
| BuildWorkflow
| RunWorkflow
| CloseStack.

(** A program: the steps done and how it ends. *)
Definition Prog (A : Type) : Type := (list Step * Ending A)%type.

#[global] Instance prog_ret : MRet Prog := fun A a => ([], Returns a).
#[global] Instance prog_bind : MBind Prog := fun A B f m =>
  match m.2 with
  | Returns a => (m.1 ++ (f a).1, (f a).2)
  | Fails e => (m.1, Fails e)
  end.

Definition call {A} (s : Step) (r : Result A) : Prog A :=
  match r with
  | Ok a => ([s], Returns a)
  | Raise e => ([], Fails (Library e))
  end.

Definition fails {A} (f : failure) : Prog A := ([], Fails f).

(** The names bound at module level in [workflow_one.py] once its imports
    and definitions have run. *)
Definition module_names : list string :=
  ["asyncio"; "json"; "os";
   "WorkflowExecutor"; "AgentExecutor"; "AgentExecutorResponse"; "handler";
   "ChatMessage"; "Role"; "Executor"; "WorkflowContext";
   "AgentRunUpdateEvent"; "WorkflowBuilder"; "WorkflowOutputEvent";
   "RequestInfoMessage"; "AgentExecutorRequest";
   "AzureCliCredential"; "AIProjectClient"; "AzureAIAgentClient"; "dataclass";
   "extractor_agent_20"; "compliance_agent"; "AsyncExitStack";
   "Any"; "Awaitable"; "Callable"; "Dict"; "Optional"; "ChatAgent";
   "HumanReviewPacket"; "_parse_compliance_json"; "StartAdapter";
   "ComplianceAdapter"; "PROJECT_ENDPOINT"; "MODEL_DEPLOYMENT";
   "create_agent_factory"; "small_workflow"].

(** Evaluating a global name that is no builtin. *)
Definition global_name (name : string) : Prog unit :=
  if existsb (String.eqb name) module_names then mret tt else fails (NameError name).

(** The outside of the runner: the environment, entering the credential
    and the project client on the exit stack, creating an agent in the
    project (which returns its id), entering a chat agent on the stack,
    building and running the workflow, and closing the stack. Each call
    returns or raises. *)
Record Services : Type := {
  os_environ : gmap string string;
  enter_credential : Result unit;
  enter_project : Result unit;
  create_agent : string -> string -> Result string;
  enter_agent : string -> Result unit;
  build_workflow : Result unit;
  run_workflow : Result unit;
  aclose : Result unit
}.

Section Runner.
Variable sv : Services.

(** [os.environ[k]] *)
Definition getenv (k : string) : Prog string :=
  match os_environ sv !! k with
  | Some v => mret v
  | None => fails (Library (KeyError k))
  end.

(** [create_agent_factory]: both contexts are entered on a new stack. *)
Definition create_agent_factory : Prog unit :=
  call EnterCredential (enter_credential sv);;
  call EnterProject (enter_project sv).

(** The [factory] closure, called with an agent id and instructions: an id
    that is not empty is bound; an empty one makes a new agent first, named
    [AdhocAgent] as no name is given. *)
Definition factory (agent_id instructions : string) : Prog unit :=
  if negb (String.eqb agent_id "") then
    call (EnterAgent agent_id) (enter_agent sv agent_id)
  else
    let name := "AdhocAgent" in
    let instr := str_or (Some instructions) "You are a helpful assistant." in
    created ← call (CreateAgent name instr) (create_agent sv name instr);
    call (EnterAgent created) (enter_agent sv created).

(** The [try] body of [small_workflow] after the factory is made. The
    document uri is only handed to the constructors of the adapters. *)
Definition build_and_run (document_uri : string) : Prog unit :=
  compliance_id ← getenv "COMPLIANCE_AGENT_ID";
  factory compliance_id "<<compliance prompt>>";;
  extractor_id ← getenv "EXTRACTOR_AGENT_20_ID";
  factory extractor_id "<<extractor prompt 20>>";;
  global_name "AgentExecutor";;
  global_name "AgentExecutor";;
  global_name "StartAdapter";;
  global_name "ExtractorToCompliance";;
  global_name "ComplianceAdapter";;
  global_name "HumanReviewTerminal";;
  global_name "SaveResults";;
  global_name "WorkflowBuilder";;
  call BuildWorkflow (build_workflow sv);;
  global_name "WorkflowExecutor";;
  call RunWorkflow (run_workflow sv).

(** [small_workflow]: [except Exception] wraps what the body raised into a
    [RuntimeError]; [finally] calls [close], a local name that is bound only
    if [create_agent_factory] returned, and an exception of the [finally]
    clause replaces the pending one. *)
Definition small_workflow (document_uri : string) : Prog unit :=
  let made := create_agent_factory in
  let body := made ≫= (fun _ => build_and_run document_uri) in
  let after_except : Ending unit :=
    match body.2 with
    | Returns a => Returns a
    | Fails f => Fails (RuntimeError f)
    end in
  match made.2 with
  | Fails _ => (body.1, Fails (Library (UnboundLocalError "close")))
  | Returns _ =>
      match aclose sv with
      | Ok _ => (body.1 ++ [CloseStack], after_except)
      | Raise e => (body.1, Fails (Library e))
      end
  end.

End Runner.

End WorkflowOneRun.

(** * Vocabulary of the statements *)

(** ** Runs of the graph *)

Module RunTerms.
Import WorkflowSmall.

Section Terms.
Context `{Runtime}.

(** The request that [prepare_request] sends for the input [prev]. *)
Definition request_for (rid : string) (uri preview : value) : ApprovalRequest :=
  {| req_approval_id := rid;
     req_title := "Manual approval required";
     req_message := "Please review the extracted result.";
     req_source_uri := uri;
     req_preview := preview |}.

Definition context_for (prev : string) (uri preview : value) : list (string * value) :=
  [("payload", VStr prev); ("source_uri", uri); ("preview", preview)].

(** The events of a first run in which no step fails. *)
Definition first_run_events (rid request_id : string) (uri preview : value) : list Event :=
  [ExecutorCompletedEvent "doc_prompt";
   WorkflowEvent (progress "extraction" "running");
   ExecutorCompletedEvent "extractor_node";
   WorkflowEvent (progress "extraction" "completed");
   ExecutorCompletedEvent "extractor_result_node";
   WorkflowEvent (progress "compliance" "running");
   ExecutorCompletedEvent "compliance_node";
   WorkflowEvent (progress "compliance" "completed");
   ExecutorCompletedEvent "compliance_result_node";
   ExecutorCompletedEvent "hitl_coordinator";
   RequestInfoEvent request_id (request_for rid uri preview)].

(** The run state a first run suspends in. *)
Definition suspended (w : World) (prev : string) (uri preview : value) : RunState :=
  let rid := uuid4 (uuid_drawn w) in
  let request_id := uuid4 (S (uuid_drawn w)) in
  {| pending := [];
     outstanding := {[ request_id := ("human_review_exec", request_for rid uri preview) ]};
     iteration := 7;
     globals := {| APPROVAL_CONTEXT :=
                     <[rid := context_for prev uri preview]> (APPROVAL_CONTEXT w);
                   uuid_drawn := S (S (uuid_drawn w)) |} |}.

(** The status event of [handle_response]. *)
Definition hitl_event (response : ApprovalResponse) : value :=
  VDict [("type", VStr "hitl");
         ("status", VStr (if resp_approved response then "approved" else "rejected"));
         ("approval_id", VStr (resp_approval_id response))].

(** The value [handle_response] forwards: the cached payload when the
    answer approves and the payload is truthy, the rejection notice
    otherwise. *)
Definition forwarded (w : World) (response : ApprovalResponse) : value :=
  let info := default [] (APPROVAL_CONTEXT w !! resp_approval_id response) in
  let payload := default VNone (items_get "payload" info) in
  if resp_approved response && truthy payload then payload
  else VStr (json_dumps
         (VDict [("overall_status", VStr "rejected_by_human");
                 ("remarks", VStr (str_or (resp_comment response) "Rejected"))])).

End Terms.

End RunTerms.

(** ** Traces of the event bridge *)

Module BridgeTerms.
Import WorkflowApi.

Definition terminal_count (recs : list SseRecord) : nat :=
  length (List.filter is_terminal recs).

Definition count_type (ty : string) (recs : list SseRecord) : nat :=
  length (List.filter (has_type ty) recs).

(** A submission for [rid] arrives within the [max_wait] seconds that
    start at [now]. *)
Definition answered (posts : nat -> list ApprovalDecision) (now : nat) (rid : string) : Prop :=
  ∃ k d, k < max_wait ∧ d ∈ posts (now + k) ∧ request_id d = rid.

Definition connected (session_id : string) : SseRecord :=
  sse "connected" [("session_id", VStr session_id)].

Definition started (session_id : string) (session : Session) : SseRecord :=
  sse "workflow_started" [("session_id", VStr session_id);
                          ("document_uri", VStr (session_document_uri session))].

Definition waiting (n : nat) : SseRecord :=
  sse "waiting_for_approval" [("count", VInt (Z.of_nat n))].

Definition doc_of (session : Session) : DocInput :=
  {| document_uri := session_document_uri session;
     document_title := None; page_count := None |}.

(** The types of the records that [consume] can yield. *)
Definition stream_record_types : list string :=
  ["workflow_completed"; "approval_required"; "progress"; "hitl_status";
   "executor_completed"].

Section Terms.
Context `{Runtime}.
Variable wf : Workflow.

(** The first stream of the session ends without a workflow output and
    without an exception, leaving the requests [reqs] outstanding: the
    session reaches the waiting-for-approval state. *)
Definition awaits_approval (session_id : string) (session : Session) (g : Globals)
    (reqs : list (string * ApprovalRequest)) : Prop :=
  ∃ w stream w' recs g1,
    wf_build wf (session_document_uri session) = Ok w ∧
    wf_run_stream wf (doc_of session) w = (stream, w') ∧
    stream.2 = None ∧
    consume session_id stream.1 [] g = (recs, g1, Exhausted reqs) ∧
    reqs ≠ [].

(** The first stream drains: no output, no exception, no request. *)
Definition drains (session_id : string) (session : Session) (g : Globals) : Prop :=
  ∃ w stream w' recs g1,
    wf_build wf (session_document_uri session) = Ok w ∧
    wf_run_stream wf (doc_of session) w = (stream, w') ∧
    stream.2 = None ∧
    consume session_id stream.1 [] g = (recs, g1, Exhausted []).

End Terms.

End BridgeTerms.

(** ** The properties as the specification states them, and sample inputs *)

Module Statements.
Import WorkflowSmall WorkflowOne WorkflowApi RunTerms BridgeTerms Samples.

(** C4 as stated, at the coordinator: an answer that matches no stored
    request is rejected as an error and changes nothing. *)
Definition rejects_without_advance `{Runtime} (feedback : RequestResponse) (w : World) : Prop :=
  let o := handle_response feedback w in
  is_ok (result o) = false ∧ effects o = [] ∧ world o = w.

(** C5 as stated, at the coordinator: the second answer for a consumed id
    is an error. *)
Definition second_take_fails `{Runtime} (feedback : RequestResponse) (w : World) : Prop :=
  let w1 := world (handle_response feedback w) in
  is_ok (result (handle_response feedback w1)) = false.

(** An approval that carries the ids of the first request of a session. *)
Definition approve_first : ApprovalResponse :=
  {| resp_approval_id := "uuid-0"; resp_approved := true; resp_comment := None |}.

(** An approval whose approval id was never issued. *)
Definition approve_unknown : ApprovalResponse :=
  {| resp_approval_id := "no-such-id"; resp_approved := true; resp_comment := None |}.

Definition feedback_of (response : ApprovalResponse) : RequestResponse :=
  {| rr_data := response;
     rr_original_request := request_for "uuid-0" (VStr "n/a") (VStr "No preview");
     rr_request_id := "uuid-1" |}.

(** The module state after [prepare_request] cached the sample verdict. *)
Definition one_cached : World :=
  world (prepare_request (H := sample_runtime) compliant_text empty_world).

(** A run state with nothing outstanding. *)
Definition idle_run : RunState :=
  {| pending := []; outstanding := ∅; iteration := 0; globals := empty_world |}.

(** The tables with the request [uuid-1] of session [s1] registered. *)
Definition one_pending : Globals :=
  {| workflow_sessions := workflow_sessions one_session;
     pending_approvals :=
       {[ "uuid-1" := {| info_session_id := "s1"; info_approval_data := [] |} ]} |}.

Definition approve_request : ApprovalDecision :=
  {| request_id := "uuid-1"; approval_id := "uuid-0"; approved := true; comment := None |}.

(** Every effect of a handler satisfies [P], whatever the state it runs in. *)
Definition only (P : Effect -> Prop) {A} (m : Handler A) : Prop :=
  ∀ w, Forall P (effects (m w)).

Definition is_create_container (e : Effect) : Prop :=
  match e with CreateContainer _ => True | _ => False end.

(** A sample service in which every call before the date path succeeds. *)
Definition sample_service : BlobService :=
  {| environ := {[ "AZURE_STORAGE_ACCOUNT_URL" := "https://acct.blob.core.windows.net/";
                   "AZURE_STORAGE_CONTAINER" := "results" ]};
     DefaultAzureCredential := Ok tt;
     AzureCliCredential := Ok tt;
     BlobServiceClient := fun _ => Ok tt;
     get_container_client := fun _ => Ok tt;
     create_container := fun _ => Ok tt;
     _name_from_uri := fun _ => Ok "doc";
     _stable_id := fun _ => Ok "0001";
     utcnow_strftime := fun _ => "2025/01/01";
     json_dumps_compact := sample_dumps;
     upload_blob := fun _ _ => Ok tt |}.

Definition sample_record : value :=
  VDict [("status", VStr "approved"); ("source_uri", VStr "doc-1");
         ("approval_id", VStr "uuid-0")].

(** C10 as stated: on a text that is not valid JSON the parser forces the
    review flag, with the raw text as the note. *)
Definition forces_review `{Runtime} (text : string) : Prop :=
  json_loads text = None -> _parse_compliance_json text = forced_review text.

Definition empty_context : Context := {| state := ∅; sent := [] |}.

(** The data of an [approval_required] record. *)
Definition approval_data_for (request_id : string) (req : ApprovalRequest)
  : list (string * value) :=
  [("request_id", VStr request_id);
   ("approval_id", VStr (req_approval_id req));
   ("title", VStr (req_title req));
   ("message", VStr (req_message req));
   ("source_uri", req_source_uri req);
   ("preview", req_preview req)].

Definition progress_record (phase status : string) : SseRecord :=
  sse "progress" [("phase", VStr phase); ("status", VStr status)].

(** The records of a first run in which no step fails. *)
Definition first_run_records `{Runtime} (request_id : string) (req : ApprovalRequest)
  : list SseRecord :=
  completed_records "doc_prompt"
  ++ [progress_record "extraction" "running"]
  ++ completed_records "extractor_node"
  ++ [progress_record "extraction" "completed"]
  ++ completed_records "extractor_result_node"
  ++ [progress_record "compliance" "running"]
  ++ completed_records "compliance_node"
  ++ [progress_record "compliance" "completed"]
  ++ completed_records "compliance_result_node"
  ++ completed_records "hitl_coordinator"
  ++ [sse "approval_required" (approval_data_for request_id req)].

(** The messages of the output events of a stream. *)
Definition outputs (s : Stream) : list Message :=
  omap (fun ev => match ev with WorkflowOutputEvent m => Some m | _ => None end) s.1.

(** The messages a handler outcome sends on from the coordinator. *)
Definition downstream `{Runtime} (agents : Agents) (o : Outcome unit)
  : list (string * Message) :=
  (interpret (workflow_small agents) "hitl_coordinator" (effects o)).1.2.

(** Following the words of the spec for C6: the step that asks for review
    receives the answer synchronously, as an input next to the payload in
    flight, and forwards that payload when the answer approves, the
    rejection notice otherwise. *)
Definition synchronous_review `{Runtime} (payload : string) (answer : ApprovalResponse)
  : Handler unit :=
  if resp_approved answer then send_message (MsgValue (VStr payload)) None
  else send_message (rejection_message (resp_comment answer)) None.

(** C2 as stated, on the trace of a session: both completion records and a
    [workflow_completed] record are there, and no [approval_required]. *)
Definition skips_approval (t : option Trace) : Prop :=
  ∃ tr, t = Some tr
        ∧ progress_record "extraction" "completed" ∈ records tr
        ∧ progress_record "compliance" "completed" ∈ records tr
        ∧ count_type "workflow_completed" (records tr) = 1
        ∧ count_type "approval_required" (records tr) = 0.

(** C3 as stated, on the trace of a session: the last record is the
    timeout error and the given request ids are gone from the table. *)
Definition purged_after_timeout (t : option Trace) (rids : list string) : Prop :=
  ∃ tr, t = Some tr
        ∧ last (records tr) = Some timeout_record
        ∧ Forall (fun rid => pending_approvals (final tr) !! rid = None) rids.

(** C8 as stated, on the trace of a session. *)
Definition exactly_one_terminal (t : option Trace) : Prop :=
  ∃ tr, t = Some tr ∧ terminal_count (records tr) = 1.

(** C6 as stated, on a resumed stream: its output is the payload that was
    in flight. *)
Definition delivers_payload (resumed : Stream) (payload : string) : Prop :=
  outputs resumed = [MsgValue (VStr payload)].

(** The session of the samples, with a verdict and a schedule of
    submissions. *)
Definition sample_session (verdict : string) (posts : nat -> list ApprovalDecision)
  : option Trace :=
  event_generator (H := sample_runtime) (served (sample_agents verdict) empty_world)
    posts 1 "s1" session_s1 0 one_session.

(** The client approves the request of the sample session as soon as the
    wait starts. *)
Definition approve_uuid1 : ApprovalDecision :=
  {| request_id := "uuid-1"; approval_id := "uuid-0"; approved := true; comment := None |}.

(** A stream of one progress event: no output, no request. *)
Definition progress_only : Stream :=
  ([WorkflowEvent (progress "extraction" "running")], None).

End Statements.

(** ** Values *)

Module ValueTerms.

(** A value that is no dict, on which [.get] raises. *)
Definition not_object (v : value) : Prop := ∀ items, v ≠ VDict items.

End ValueTerms.

(** ** The tables of the bridge *)

Module TableTerms.
Import WorkflowApi.

(** Every registered approval names a session that exists. *)
Definition well_linked (g : Globals) : Prop :=
  ∀ rid info, pending_approvals g !! rid = Some info ->
              is_Some (workflow_sessions g !! info_session_id info).

(** What [start_workflow] wrote into a session. *)
Definition as_created (s : Session) : string * string * string :=
  (status s, session_document_uri s, created_at s).

(** The same sessions, each as it was created. *)
Definition same_sessions (g g' : Globals) : Prop :=
  ∀ sid, as_created <$> workflow_sessions g' !! sid
         = as_created <$> workflow_sessions g !! sid.

(** The answers stored for a session so far. *)
Definition stored_answers (g : Globals) (session_id : string)
  : gmap string ApprovalResponse :=
  default ∅ (workflow_sessions g !! session_id ≫= pending_responses).

Definition response_of (d : ApprovalDecision) : ApprovalResponse :=
  {| resp_approval_id := approval_id d; resp_approved := approved d;
     resp_comment := comment d |}.

(** The reply of an accepted submission. *)
Definition accepted (d : ApprovalDecision) : value :=
  VDict [("status", VStr "success");
         ("message", VStr ("Approval " +:+ (if approved d then "granted" else "rejected")));
         ("approval_id", VStr (approval_id d))].

(** The requests the stream loop collects are registered for its session. *)
Definition registered_here (session_id rid : string) (g : Globals) : Prop :=
  ∀ info, pending_approvals g !! rid = Some info -> info_session_id info = session_id.

End TableTerms.

(** ** The compliance adapter *)

Module AdapterTerms.
Import WorkflowOne.

(** [text or "{}"], the text [_parse_compliance_json] gives to [json.loads]. *)
Definition text_or_braces (text : string) : string :=
  if String.eqb text "" then "{}" else text.

(** The packet of the review branch, read off the context and the notes. *)
Definition review_packet `{Runtime} (ctx : Context) (notes_text : string) : HumanReviewPacket :=
  {| hr_document_uri := py_str (default (VStr "") (state ctx !! "document_uri"));
     hr_summary := prefix 1000 (py_str (default (VStr "") (state ctx !! "extractor_text")));
     hr_compliance_notes := notes_text;
     hr_prompt := "Approve or Reject? (type 'approve' / 'reject')" |}.

(** What the parser returns on an object. *)
Definition with_defaults (items : list (string * value)) : list (string * value) :=
  items_setdefault "needs_human_review" (VBool false)
    (if items_mem "compliance" items then items
     else items_set "compliance" (VDict []) items).

(** The outcome of a call of the adapter that returns: one message sent,
    to the sink with the verdict or to the review step with a packet. *)
Definition sent_once (ctx ctx' : Context) : Prop :=
  ∃ target arg,
    sent ctx' = sent ctx ++ [(VStr target, arg)]
    ∧ ((target = "save_results" ∧ ∃ v, arg = ArgValue v)
       ∨ (target = "human_review_exec"
          ∧ ∃ packet, arg = ArgPacket packet
                      ∧ String.length (hr_summary packet) <= 1000
                      ∧ hr_compliance_notes packet ≠ "")).

End AdapterTerms.

(** ** The console driver *)

Module ConsoleTerms.
Import WorkflowSmall WorkflowApi Main RunTerms.

(** What the operator's lines [line] and [line + 1] say: the decision and
    the comment of one answer. *)
Definition decision_at (console : Console) (line : nat) : bool :=
  String.eqb (str_lower console (str_strip console (typed console line))) "y".

Definition comment_at (console : Console) (line : nat) : option string :=
  let c := str_strip console (typed console (S line)) in
  if String.eqb c "" then None else Some c.

(** The workflow object as [workflow_small] returns it, before any run. *)
Definition fresh_run (w0 : World) : RunState :=
  {| pending := []; outstanding := ∅; iteration := 0; globals := w0 |}.

(** The record that the bridge yields for a workflow output. *)
Definition completed_record `{Runtime} (session_id : string) (output : Message) : SseRecord :=
  sse "workflow_completed" [("session_id", VStr session_id);
                            ("result", VStr (message_str output))].

End ConsoleTerms.

(** ** The runner of [workflow_one.py] *)

Module RunnerTerms.
Import WorkflowOneRun.

(** A program that does not return, and whose steps all satisfy [P]. *)
Definition halts (P : Step -> Prop) {A} (m : Prog A) : Prop :=
  Forall P m.1
  ∧ (m.2 = Fails (NameError "ExtractorToCompliance") ∨ ∃ e, m.2 = Fails (Library e)).

(** A program whose steps all satisfy [P], and which returns or fails by a
    library exception. *)
Definition quiet (P : Step -> Prop) {A} (m : Prog A) : Prop :=
  Forall P m.1 ∧ ((∃ a, m.2 = Returns a) ∨ ∃ e, m.2 = Fails (Library e)).

(** A step before the workflow is built. *)
Definition before_build (s : Step) : Prop :=
  s ≠ BuildWorkflow ∧ s ≠ RunWorkflow ∧ s ≠ CloseStack.

(** Services that are all up, with both agent ids configured. *)
Definition services_up : Services :=
  {| os_environ := {[ "COMPLIANCE_AGENT_ID" := "agent-c"; "EXTRACTOR_AGENT_20_ID" := "agent-e" ]};
     enter_credential := Ok tt;
     enter_project := Ok tt;
     create_agent := fun _ _ => Ok "agent-new";
     enter_agent := fun _ => Ok tt;
     build_workflow := Ok tt;
     run_workflow := Ok tt;
     aclose := Ok tt |}.

(** The project endpoint cannot be reached. *)
Definition project_down : Services :=
  {| os_environ := os_environ services_up;
     enter_credential := Ok tt;
     enter_project := Raise (StepFailure "project endpoint unreachable");
     create_agent := create_agent services_up;
     enter_agent := enter_agent services_up;
     build_workflow := Ok tt;
     run_workflow := Ok tt;
     aclose := Ok tt |}.

End RunnerTerms.

(** ** More sample inputs *)

Module MoreSamples.
Import WorkflowSmall WorkflowOne WorkflowApi Main Samples.

(** A JSON text that is no object. *)
Definition list_text : string := "[]".

(** A verdict whose [is_compliant] entry is a string. *)
Definition string_flag_text : string :=
  "{" +:+ quote +:+ "compliance" +:+ quote +:+ ": {"
  +:+ quote +:+ "is_compliant" +:+ quote +:+ ": " +:+ quote +:+ "no" +:+ quote +:+ "}}".

(** A verdict whose [compliance] entry is a string. *)
Definition bare_compliance_text : string :=
  "{" +:+ quote +:+ "compliance" +:+ quote +:+ ": " +:+ quote +:+ "ok" +:+ quote +:+ "}".

(** A decoder that knows these texts. *)
Definition review_loads (s : string) : option value :=
  if String.eqb s "{}" then Some (VDict [])
  else if String.eqb s list_text then Some (VList [])
  else if String.eqb s string_flag_text
  then Some (VDict [("compliance", VDict [("is_compliant", VStr "no")])])
  else if String.eqb s bare_compliance_text
  then Some (VDict [("compliance", VStr "ok")])
  else None.

(** The sample runtime with this decoder. *)
Definition review_runtime : Runtime :=
  {| json_loads := review_loads;
     json_dumps := sample_dumps;
     py_repr := sample_dumps;
     object_repr := fun _ => "<object>";
     uuid4 := fun n => "uuid-" +:+ pretty n;
     slice_hashable := true;
     executor_event_is_workflow_event := true;
     json_loads_empty_object := eq_refl;
     json_loads_empty_text := eq_refl |}.

(** Agents of which one is out of service. *)
Definition extractor_down : Agents :=
  {| run_extractor_20_agent := fun _ => Raise (StepFailure "extractor unavailable");
     run_compliance_20_agent := fun _ => Ok compliant_text |}.

Definition compliance_down : Agents :=
  {| run_extractor_20_agent := fun _ => Ok "extracted fields";
     run_compliance_20_agent := fun _ => Raise (StepFailure "compliance unavailable") |}.

(** The tables with two requests of session [s1] registered. *)
Definition two_pending : Globals :=
  {| workflow_sessions := workflow_sessions one_session;
     pending_approvals :=
       {[ "uuid-1" := {| info_session_id := "s1"; info_approval_data := [] |};
          "uuid-3" := {| info_session_id := "s1"; info_approval_data := [] |} ]} |}.

Definition reject_uuid3 : ApprovalDecision :=
  {| request_id := "uuid-3"; approval_id := "uuid-2"; approved := false;
     comment := Some "figures do not add up" |}.

(** An operator who types the two given lines, on a console that hands
    them over as typed. *)
Definition operator (decision comment : string) : Console :=
  {| typed := fun line => match line with 0 => decision | _ => comment end;
     str_strip := fun s => s;
     str_lower := fun s => s |}.

(** The request of the sample session. *)
Definition sample_request : ApprovalRequest :=
  {| req_approval_id := "uuid-0";
     req_title := "Manual approval required";
     req_message := "Please review the extracted result.";
     req_source_uri := VStr "n/a";
     req_preview := VStr "No preview" |}.

End MoreSamples.

(** * Properties of the coordinator and of a run ([workflow_small.py]) *)

Module RunFacts.
Import WorkflowSmall RunTerms.

Section Run.
Context `{Runtime}.
Variable agents : Agents.

Lemma run_passes_S g fuel st :
  run_passes g (S fuel) st =
  match pending st with
  | [] => (([], None), st)
  | ready =>
      let '(evs, msgs, st', status) := deliver g ready st in
      let st'' := {| pending := msgs; outstanding := outstanding st';
                     iteration := S (iteration st'); globals := globals st' |} in
      match status with
      | Running =>
          let '((evs', e), st3) := run_passes g fuel st'' in
          ((evs ++ evs', e), st3)
      | Completed => ((evs, None), st'')
      | Failed e => ((evs, Some e), st'')
      end
  end.
Proof. destruct st as [[|? ?] ? ? ?]; reflexivity. Qed.

Lemma run_passes_idle g fuel out it w :
  run_passes g fuel {| pending := []; outstanding := out; iteration := it; globals := w |}
  = (([], None), {| pending := []; outstanding := out; iteration := it; globals := w |}).
Proof. destruct fuel; reflexivity. Qed.

(** What each handler does. *)
Lemma extractor_node_ok msg w ex :
  run_extractor_20_agent agents msg = Ok ex ->
  extractor_node agents msg w
  = {| effects := [AddEvent (progress "extraction" "running");
                   SendMessage (MsgValue (VStr ex)) None];
       world := w; result := Ok tt |}.
Proof.
  intros Hex. unfold extractor_node, mbind, handler_bind, lift. rewrite Hex. reflexivity.
Qed.

Lemma compliance_node_ok prompt w c :
  run_compliance_20_agent agents prompt = Ok c ->
  compliance_node agents prompt w
  = {| effects := [AddEvent (progress "compliance" "running");
                   SendMessage (MsgValue (VStr c)) None];
       world := w; result := Ok tt |}.
Proof.
  intros Hc. unfold compliance_node, mbind, handler_bind, lift. simpl. rewrite Hc. reflexivity.
Qed.

Lemma extractor_result_ok extractor_output w :
  extractor_result extractor_output w
  = {| effects := [SendMessage (MsgValue (VStr extractor_output)) None;
                   AddEvent (progress "extraction" "completed")];
       world := w; result := Ok tt |}.
Proof. reflexivity. Qed.

Lemma compliance_result_ok compliance_output w :
  compliance_result compliance_output w
  = {| effects := [AddEvent (progress "compliance" "completed");
                   SendMessage (MsgValue (VStr compliance_output)) None];
       world := w; result := Ok tt |}.
Proof. reflexivity. Qed.

Lemma prepare_request_ok prev w uri preview :
  describe_input prev = Ok (uri, preview) ->
  prepare_request prev w
  = {| effects := [SendMessage
                     (MsgApprovalRequest (request_for (uuid4 (uuid_drawn w)) uri preview))
                     (Some "human_review_exec")];
       world := {| APPROVAL_CONTEXT :=
                     <[uuid4 (uuid_drawn w) := context_for prev uri preview]>
                       (APPROVAL_CONTEXT w);
                   uuid_drawn := S (uuid_drawn w) |};
       result := Ok tt |}.
Proof.
  intros Hd. unfold prepare_request, mbind, handler_bind, lift. simpl. rewrite Hd. reflexivity.
Qed.

Lemma prepare_request_raises prev w e :
  describe_input prev = Raise e ->
  prepare_request prev w
  = {| effects := [];
       world := {| APPROVAL_CONTEXT := APPROVAL_CONTEXT w; uuid_drawn := S (uuid_drawn w) |};
       result := Raise e |}.
Proof.
  intros Hd. unfold prepare_request, mbind, handler_bind, lift. simpl. rewrite Hd. reflexivity.
Qed.

Arguments run_passes : simpl never.

Lemma run_stream_suspends doc st ex c uri preview :
  run_extractor_20_agent agents (prompt_text doc) = Ok ex ->
  run_compliance_20_agent agents ex = Ok c ->
  describe_input c = Ok (uri, preview) ->
  run_stream (workflow_small agents) doc st
  = ((first_run_events (uuid4 (uuid_drawn (globals st)))
                       (uuid4 (S (uuid_drawn (globals st)))) uri preview, None),
     suspended (globals st) c uri preview).
Proof.
  intros Hex Hc Hd.
  unfold run_stream. cbn [max_iterations workflow_small start_executor].
  rewrite run_passes_S. cbn -[prompt_text describe_input].
  rewrite run_passes_S. cbn -[prompt_text describe_input].
  rewrite (extractor_node_ok _ _ _ Hex). cbn -[prompt_text describe_input].
  rewrite run_passes_S. cbn -[prompt_text describe_input].
  rewrite extractor_result_ok. cbn -[prompt_text describe_input].
  rewrite run_passes_S. cbn -[prompt_text describe_input].
  rewrite (compliance_node_ok _ _ _ Hc). cbn -[prompt_text describe_input].
  rewrite run_passes_S. cbn -[prompt_text describe_input].
  rewrite compliance_result_ok. cbn -[prompt_text describe_input].
  rewrite run_passes_S. cbn -[prompt_text describe_input].
  rewrite (prepare_request_ok _ _ _ _ Hd). cbn -[prompt_text describe_input].
  rewrite run_passes_S. cbn -[prompt_text describe_input].
  rewrite run_passes_idle.
  reflexivity.
Qed.

Lemma final_result_placeholder_ok prev w :
  final_result_placeholder prev w
  = {| effects := [YieldOutput prev]; world := w; result := Ok tt |}.
Proof. reflexivity. Qed.

Lemma handle_response_ok feedback w :
  handle_response feedback w
  = {| effects := [AddEvent (hitl_event (rr_data feedback));
                   SendMessage (MsgValue (forwarded w (rr_data feedback))) None];
       world := {| APPROVAL_CONTEXT :=
                     delete (resp_approval_id (rr_data feedback)) (APPROVAL_CONTEXT w);
                   uuid_drawn := uuid_drawn w |};
       result := Ok tt |}.
Proof.
  unfold handle_response, forwarded, rejection_message, mbind, handler_bind. simpl.
  destruct (resp_approved (rr_data feedback)
            && truthy (default VNone (items_get "payload"
                 (default [] (APPROVAL_CONTEXT w !! resp_approval_id (rr_data feedback))))));
    reflexivity.
Qed.

Lemma forwarded_rejected w response :
  resp_approved response = false ->
  MsgValue (forwarded w response) = rejection_message (resp_comment response).
Proof. intros Hr. unfold forwarded, rejection_message. rewrite Hr. reflexivity. Qed.

Lemma forwarded_unknown w response :
  APPROVAL_CONTEXT w !! resp_approval_id response = None ->
  MsgValue (forwarded w response) = rejection_message (resp_comment response).
Proof.
  intros Hn. unfold forwarded, rejection_message. rewrite Hn. simpl.
  rewrite andb_false_r. reflexivity.
Qed.

Lemma truthy_str s : s ≠ "" -> truthy (VStr s) = true.
Proof. intros Hs. simpl. destruct (String.eqb_spec s ""); [done|reflexivity]. Qed.

Lemma forwarded_approved w response prev uri preview :
  APPROVAL_CONTEXT w !! resp_approval_id response = Some (context_for prev uri preview) ->
  resp_approved response = true ->
  prev ≠ "" ->
  forwarded w response = VStr prev.
Proof.
  intros Hctx Ha Hp. unfold forwarded. rewrite Hctx, Ha. simpl.
  destruct (String.eqb_spec prev ""); [done|reflexivity].
Qed.

(** A resumed run: one outstanding request of the review gate answered. *)
Lemma resume_one st request_id req response :
  outstanding st !! request_id = Some ("human_review_exec", req) ->
  (iteration st + 2 <= 80)%nat ->
  (send_responses_streaming (workflow_small agents) {[request_id := response]} st).1
  = ([WorkflowEvent (hitl_event response);
      ExecutorCompletedEvent "hitl_coordinator";
      WorkflowOutputEvent (MsgValue (forwarded (globals st) response))], None).
Proof.
  intros Hout Hit. unfold send_responses_streaming.
  rewrite map_to_list_singleton. cbn [resume_messages]. rewrite Hout.
  cbn -[run_passes].
  destruct (80 - iteration st) as [|[|fuel]] eqn:Hf; [lia|lia|].
  rewrite run_passes_S. cbn -[handle_response].
  rewrite handle_response_ok. cbn.
  rewrite run_passes_S. cbn. reflexivity.
Qed.

End Run.

End RunFacts.

(** * Properties of the event bridge ([workflow_api.py]) *)

Module BridgeFacts.
Import WorkflowApi BridgeTerms.

Section Facts.
Context `{Runtime}.

Lemma custom_records_types event_data :
  Forall (fun r => event_type r = "progress" ∨ event_type r = "hitl_status")
         (custom_records event_data).
Proof.
  unfold custom_records.
  destruct event_data; try (by constructor).
  cbv zeta.
  repeat case_match; repeat (apply Forall_cons || apply Forall_nil); simpl; auto.
Qed.

Lemma completed_records_not_terminal executor_id :
  List.filter is_terminal (completed_records executor_id) = [].
Proof. unfold completed_records. by destruct executor_event_is_workflow_event. Qed.

Lemma custom_records_not_terminal event_data :
  List.filter is_terminal (custom_records event_data) = [].
Proof.
  unfold custom_records.
  destruct event_data; try reflexivity.
  cbv zeta.
  repeat case_match; reflexivity.
Qed.

(** The stream loop yields one terminal record when it returns, none when
    the stream is exhausted. *)
Lemma consume_terminal_count session_id events acc g recs g' fin :
  consume session_id events acc g = (recs, g', fin) ->
  terminal_count recs = match fin with Returned => 1 | Exhausted _ => 0 end.
Proof.
  unfold terminal_count.
  revert acc g recs g' fin.
  induction events as [|ev events IH]; intros acc g recs g' fin Hc; simpl in Hc.
  - inversion Hc; subst; reflexivity.
  - destruct ev as [output|rid req|event_data|executor_id|name].
    + inversion Hc; subst; reflexivity.
    + destruct (consume _ events _ _) as [[recs0 g0] fin0] eqn:E.
      inversion Hc; subst. simpl. eapply IH; eauto.
    + destruct (consume _ events _ _) as [[recs0 g0] fin0] eqn:E.
      inversion Hc; subst.
      rewrite List.filter_app, custom_records_not_terminal. simpl.
      eapply IH; eauto.
    + destruct (consume _ events _ _) as [[recs0 g0] fin0] eqn:E.
      inversion Hc; subst.
      rewrite List.filter_app, completed_records_not_terminal. simpl.
      eapply IH; eauto.
    + eapply IH; eauto.
Qed.

Lemma consume_record_types session_id events acc g recs g' fin :
  consume session_id events acc g = (recs, g', fin) ->
  Forall (fun r => event_type r ∈ stream_record_types) recs.
Proof.
  revert acc g recs g' fin.
  induction events as [|ev events IH]; intros acc g recs g' fin Hc; simpl in Hc.
  - inversion Hc; subst; constructor.
  - destruct ev as [output|rid req|event_data|executor_id|name].
    + inversion Hc; subst. repeat constructor.
    + destruct (consume _ events _ _) as [[recs0 g0] fin0] eqn:E.
      inversion Hc; subst. constructor; [|eapply IH; eauto].
      simpl. unfold stream_record_types. set_solver.
    + destruct (consume _ events _ _) as [[recs0 g0] fin0] eqn:E.
      inversion Hc; subst. apply Forall_app; split; [|eapply IH; eauto].
      eapply Forall_impl; [apply custom_records_types|].
      intros r [-> | ->]; unfold stream_record_types; set_solver.
    + destruct (consume _ events _ _) as [[recs0 g0] fin0] eqn:E.
      inversion Hc; subst. apply Forall_app; split; [|eapply IH; eauto].
      unfold completed_records.
      destruct executor_event_is_workflow_event; [constructor|].
      constructor; [|constructor].
      simpl. unfold stream_record_types. set_solver.
    + eapply IH; eauto.
Qed.

(** The stream loop only adds entries to [pending_approvals], and leaves
    the sessions alone. *)
Lemma consume_keeps session_id events acc g recs g' fin rid :
  consume session_id events acc g = (recs, g', fin) ->
  is_Some (pending_approvals g !! rid) ->
  is_Some (pending_approvals g' !! rid).
Proof.
  revert acc g recs g' fin.
  induction events as [|ev events IH]; intros acc g recs g' fin Hc Hin; simpl in Hc.
  - inversion Hc; subst; done.
  - destruct ev as [output|rid' req|event_data|executor_id|name].
    + inversion Hc; subst; done.
    + destruct (consume _ events _ _) as [[recs0 g0] fin0] eqn:E.
      inversion Hc; subst. eapply IH; eauto. simpl.
      destruct (decide (rid' = rid)) as [->|Hne].
      * rewrite lookup_insert_eq. eauto.
      * rewrite lookup_insert_ne; done.
    + destruct (consume _ events _ _) as [[recs0 g0] fin0] eqn:E.
      inversion Hc; subst. eapply IH; eauto.
    + destruct (consume _ events _ _) as [[recs0 g0] fin0] eqn:E.
      inversion Hc; subst. eapply IH; eauto.
    + eapply IH; eauto.
Qed.

(** Every request seen by the stream loop is registered when it ends. *)
Lemma consume_registers session_id events acc g recs g' reqs rid :
  consume session_id events acc g = (recs, g', Exhausted reqs) ->
  rid ∈ reqs.*1 ->
  rid ∈ acc.*1 ∨ is_Some (pending_approvals g' !! rid).
Proof.
  revert acc g recs g' reqs.
  induction events as [|ev events IH]; intros acc g recs g' reqs Hc Hin; simpl in Hc.
  - inversion Hc; subst; auto.
  - destruct ev as [output|rid' req|event_data|executor_id|name].
    + inversion Hc.
    + destruct (consume _ events _ _) as [[recs0 g0] fin0] eqn:E.
      inversion Hc; subst.
      destruct (IH _ _ _ _ _ E Hin) as [Hacc|Hreg]; [|auto].
      rewrite fmap_app in Hacc. apply elem_of_app in Hacc as [Hacc|Hnew]; [auto|].
      right. simpl in Hnew. apply list_elem_of_singleton in Hnew as ->.
      eapply consume_keeps; eauto. simpl. rewrite lookup_insert_eq. eauto.
    + destruct (consume _ events _ _) as [[recs0 g0] fin0] eqn:E.
      inversion Hc; subst. eapply IH; eauto.
    + destruct (consume _ events _ _) as [[recs0 g0] fin0] eqn:E.
      inversion Hc; subst. eapply IH; eauto.
    + eapply IH; eauto.
Qed.

End Facts.

Section Loop.
Context `{Runtime}.
Variable wf : Workflow.
Variable posts : nat -> list ApprovalDecision.

Lemma submit_approval_keeps d g rid :
  request_id d ≠ rid ->
  is_Some (pending_approvals g !! rid) ->
  is_Some (pending_approvals (submit_approval d g).2 !! rid).
Proof.
  intros Hne Hin. unfold submit_approval.
  destruct (pending_approvals g !! request_id d) as [info|]; [|done].
  destruct (workflow_sessions g !! info_session_id info) as [session|]; [|done].
  simpl. rewrite lookup_delete_ne; done.
Qed.

Lemma serve_keeps (ds : list ApprovalDecision) acc rid :
  (∀ d, d ∈ ds -> request_id d ≠ rid) ->
  is_Some (pending_approvals acc.1 !! rid) ->
  is_Some (pending_approvals
     (foldl (fun (acc : Globals * list (ApprovalDecision * Result value)) decision =>
               let '(reply, g') := submit_approval decision acc.1 in
               (g', acc.2 ++ [(decision, reply)])) acc ds).1 !! rid).
Proof.
  revert acc. induction ds as [|d ds IH]; intros acc Hds Hin; simpl; [done|].
  apply IH.
  - intros d' Hd'. apply Hds. by right.
  - pose proof (submit_approval_keeps d acc.1 rid) as Hk.
    destruct (submit_approval d acc.1) as [reply g'] eqn:E. simpl in *.
    apply Hk; [|done]. apply Hds. by left.
Qed.

Lemma sleep_keeps now g rid :
  (∀ d, d ∈ posts now -> request_id d ≠ rid) ->
  is_Some (pending_approvals g !! rid) ->
  is_Some (pending_approvals (sleep posts now g).1 !! rid).
Proof. intros. unfold sleep. by apply serve_keeps. Qed.

Lemma poll_keeps n reqs pend last now g rid :
  (∀ k d, k < n -> d ∈ posts (now + k) -> request_id d ≠ rid) ->
  is_Some (pending_approvals g !! rid) ->
  is_Some (pending_approvals (poll posts n reqs pend last now g).1.2 !! rid).
Proof.
  revert last now g. induction n as [|n IH]; intros last now g Hposts Hin; simpl; [done|].
  case_match; [done|].
  destruct (sleep posts now g) as [g' served] eqn:Es.
  destruct (poll posts n reqs pend (Some false) (S now) g') as [[[ready now'] g''] served'] eqn:Ep.
  simpl. specialize (IH (Some false) (S now) g'). rewrite Ep in IH. simpl in IH.
  apply IH.
  - intros k d Hk Hd. apply (Hposts (S k)); [lia|]. by replace (now + S k) with (S now + k) by lia.
  - pose proof (sleep_keeps now g rid) as Hs. rewrite Es in Hs. apply Hs; [|done].
    intros d Hd. apply (Hposts 0); [lia|]. by rewrite Nat.add_0_r.
Qed.

(** With an empty answer buffer and a request outstanding, the poll is
    never satisfied. *)
Lemma poll_empty_buffer n reqs last now g :
  reqs ≠ [] ->
  (poll posts n reqs ∅ last now g).1.1.1 = match n with 0 => last | S _ => Some false end.
Proof.
  intros Hreqs. revert last now g.
  induction n as [|n IH]; intros last now g; simpl; [done|].
  destruct reqs as [|[rid req] reqs]; [done|]. simpl.
  rewrite lookup_empty. rewrite bool_decide_eq_false_2 by (by intros [? ?]). simpl.
  destruct (sleep posts now g) as [g' served] eqn:Es.
  specialize (IH (Some false) (S now) g').
  destruct (poll posts n _ ∅ (Some false) (S now) g') as [[[ready now'] g''] served'] eqn:Ep.
  simpl in *. rewrite IH. by destruct n.
Qed.

(** The four ways the first turn of the loop ends. None of them goes round
    again: the buffer the poll reads is the local one, which is empty. *)
Lemma turn_returned session_id doc w now g stream w' recs g1 :
  wf_run_stream wf doc w = (stream, w') ->
  consume session_id stream.1 [] g = (recs, g1, Returned) ->
  loop_body wf posts session_id doc ∅ w now g
  = Done wf {| records := recs; final := g1; calls := [RunStream doc]; replies := [] |}.
Proof.
  intros Hs Hc. unfold loop_body.
  rewrite bool_decide_eq_true_2 by done. rewrite Hs, Hc. reflexivity.
Qed.

Lemma turn_raised session_id doc w now g stream w' recs g1 reqs e :
  wf_run_stream wf doc w = (stream, w') ->
  consume session_id stream.1 [] g = (recs, g1, Exhausted reqs) ->
  stream.2 = Some e ->
  loop_body wf posts session_id doc ∅ w now g
  = Done wf {| records := recs ++ [error_record e]; final := g1;
               calls := [RunStream doc]; replies := [] |}.
Proof.
  intros Hs Hc He. unfold loop_body.
  rewrite bool_decide_eq_true_2 by done. rewrite Hs, Hc, He. reflexivity.
Qed.

Lemma turn_drained session_id doc w now g stream w' recs g1 :
  wf_run_stream wf doc w = (stream, w') ->
  consume session_id stream.1 [] g = (recs, g1, Exhausted []) ->
  stream.2 = None ->
  loop_body wf posts session_id doc ∅ w now g
  = Done wf {| records := recs; final := g1; calls := [RunStream doc]; replies := [] |}.
Proof.
  intros Hs Hc He. unfold loop_body.
  rewrite bool_decide_eq_true_2 by done. rewrite Hs, Hc, He. reflexivity.
Qed.

Lemma turn_timed_out session_id doc w now g stream w' recs g1 reqs :
  wf_run_stream wf doc w = (stream, w') ->
  consume session_id stream.1 [] g = (recs, g1, Exhausted reqs) ->
  stream.2 = None ->
  reqs ≠ [] ->
  loop_body wf posts session_id doc ∅ w now g
  = Done wf {| records := recs ++ [waiting (length reqs); timeout_record];
               final := (poll posts max_wait reqs ∅ None now g1).1.2;
               calls := [RunStream doc];
               replies := (poll posts max_wait reqs ∅ None now g1).2 |}.
Proof.
  intros Hs Hc He Hreqs. unfold loop_body.
  rewrite bool_decide_eq_true_2 by done. rewrite Hs, Hc, He.
  pose proof (poll_empty_buffer max_wait reqs None now g1 Hreqs) as Hp.
  destruct (poll posts max_wait reqs ∅ None now g1) as [[[ready now'] g2] served] eqn:Ep.
  simpl in Hp. subst ready. destruct reqs; [done|]. reflexivity.
Qed.

Lemma generator_unfold fuel session_id session now g w :
  wf_build wf (session_document_uri session) = Ok w ->
  event_generator wf posts fuel session_id session now g
  = followed_by {| records := [connected session_id; started session_id session];
                   final := g; calls := []; replies := [] |}
      <$> run_loop wf posts fuel session_id (doc_of session) ∅ w now g.
Proof. intros Hb. unfold event_generator. rewrite Hb. reflexivity. Qed.

Lemma last_two_more {A} (l : list A) (a b : A) : last (l ++ [a; b]) = Some b.
Proof.
  induction l as [|x l IH]; [done|].
  simpl. destruct (l ++ [a; b]) eqn:E; [by destruct l|]. done.
Qed.

(** The generator never calls [send_responses_streaming], and always ends. *)
Lemma generator_runs_once fuel session_id session now g :
  ∃ t, event_generator wf posts (S fuel) session_id session now g = Some t ∧
       (calls t = [] ∨ calls t = [RunStream (doc_of session)]).
Proof.
  destruct (wf_build wf (session_document_uri session)) as [w|e] eqn:Hb.
  2:{ unfold event_generator. rewrite Hb. eauto. }
  rewrite (generator_unfold _ _ _ _ _ _ Hb). simpl.
  destruct (wf_run_stream wf (doc_of session) w) as [stream w'] eqn:Hs.
  destruct (consume session_id stream.1 [] g) as [[recs g1] fin] eqn:Hc.
  destruct fin as [|reqs].
  { erewrite turn_returned by eauto. simpl. eauto. }
  destruct (stream.2) as [e|] eqn:He.
  { erewrite turn_raised by eauto. simpl. eauto. }
  destruct reqs as [|r reqs].
  { erewrite turn_drained by eauto. simpl. eauto. }
  erewrite turn_timed_out by eauto.
  generalize (poll posts max_wait (r :: reqs) ∅ None now g1). intros p.
  simpl. eauto.
Qed.

(** Once the session waits for approval, the wait runs out whatever is
    submitted meanwhile: the stream ends with the timeout error and the
    workflow is not resumed. *)
Lemma wait_always_times_out fuel session_id session now g reqs :
  awaits_approval wf session_id session g reqs ->
  ∃ t, event_generator wf posts (S fuel) session_id session now g = Some t ∧
       last (records t) = Some timeout_record ∧
       calls t = [RunStream (doc_of session)].
Proof.
  intros (w & stream & w' & recs & g1 & Hb & Hs & He & Hc & Hreqs).
  rewrite (generator_unfold _ _ _ _ _ _ Hb).
  cbn [run_loop]. erewrite turn_timed_out by eauto.
  generalize (poll posts max_wait reqs ∅ None now g1). intros p.
  eexists; split; [reflexivity|]. simpl. split; [|reflexivity].
  apply (last_two_more (connected session_id :: started session_id session :: recs)).
Qed.

(** C8 (as amended). For every workflow object, every schedule of
    submissions and every session, the generator ends, and its records hold
    at most one terminal record ([workflow_completed] or [error]): none when
    the first stream drains with no output, no exception and no request, and
    exactly one in every other case. *)
Theorem terminal_record_at_most_once fuel session_id session now g :
  ∃ t, event_generator wf posts (S fuel) session_id session now g = Some t ∧
       (terminal_count (records t) <= 1)%nat ∧
       (terminal_count (records t) = 0 ↔ drains wf session_id session g).
Proof.
  destruct (wf_build wf (session_document_uri session)) as [w|e] eqn:Hb.
  2:{ unfold event_generator. rewrite Hb. eexists; split; [reflexivity|].
      simpl. split; [reflexivity|]. split; [discriminate|].
      intros (w & ? & ? & ? & ? & Hw & _). congruence. }
  rewrite (generator_unfold _ _ _ _ _ _ Hb). simpl.
  destruct (wf_run_stream wf (doc_of session) w) as [stream w'] eqn:Hs.
  destruct (consume session_id stream.1 [] g) as [[recs g1] fin] eqn:Hc.
  pose proof (consume_terminal_count _ _ _ _ _ _ _ Hc) as Hn.
  assert (Hdr : drains wf session_id session g ->
                stream.2 = None ∧ fin = Exhausted []).
  { intros (w0 & stream0 & w0' & recs0 & g0 & Hb0 & Hs0 & He0 & Hc0).
    rewrite Hb in Hb0. inversion Hb0; subst w0.
    rewrite Hs in Hs0. inversion Hs0; subst stream0 w0'.
    rewrite Hc in Hc0. inversion Hc0; subst. done. }
  destruct fin as [|reqs].
  { erewrite turn_returned by eauto. eexists; split; [reflexivity|].
    unfold terminal_count in *. simpl. rewrite Hn.
    split; [reflexivity|]. split; [discriminate|].
    intros Hd. destruct (Hdr Hd) as [_ ?]. discriminate. }
  destruct (stream.2) as [e|] eqn:He.
  { erewrite turn_raised by eauto. eexists; split; [reflexivity|].
    unfold terminal_count in *. simpl. rewrite List.filter_app, length_app, Hn.
    split; [reflexivity|]. split; [discriminate|].
    intros Hd. destruct (Hdr Hd) as [? _]. discriminate. }
  destruct reqs as [|r reqs].
  { erewrite turn_drained by eauto. eexists; split; [reflexivity|].
    unfold terminal_count in *. simpl. rewrite Hn.
    split; [lia|]. split; [|done].
    intros _. exists w, stream, w', recs, g1. done. }
  erewrite turn_timed_out by eauto.
  generalize (poll posts max_wait (r :: reqs) ∅ None now g1). intros p.
  eexists; split; [reflexivity|].
  unfold terminal_count in *. simpl. rewrite List.filter_app, length_app, Hn.
  split; [reflexivity|]. split; [discriminate|].
  intros Hd. destruct (Hdr Hd) as [_ ?]. discriminate.
Qed.

(** C3 (as amended). If the session reaches the waiting-for-approval state
    and some outstanding request gets no answer within the wait, the
    generator ends with the timeout error as its last record, after a single
    call on the workflow ([run_stream]; it never resumes, so no submitted
    answer is delivered), and every request that got no answer is still in
    [pending_approvals]. *)
Theorem timeout_closes_without_purge fuel session_id session now g reqs :
  awaits_approval wf session_id session g reqs ->
  (∃ rid, rid ∈ reqs.*1 ∧ ¬ answered posts now rid) ->
  ∃ t, event_generator wf posts (S fuel) session_id session now g = Some t ∧
       last (records t) = Some timeout_record ∧
       calls t = [RunStream (doc_of session)] ∧
       ∀ rid, rid ∈ reqs.*1 -> ¬ answered posts now rid ->
              is_Some (pending_approvals (final t) !! rid).
Proof.
  intros (w & stream & w' & recs & g1 & Hb & Hs & He & Hc & Hreqs) _.
  rewrite (generator_unfold _ _ _ _ _ _ Hb).
  cbn [run_loop]. erewrite turn_timed_out by eauto.
  set (p := poll posts max_wait reqs ∅ None now g1).
  assert (Hkeep : ∀ rid, rid ∈ reqs.*1 -> ¬ answered posts now rid ->
                         is_Some (pending_approvals p.1.2 !! rid)).
  { intros rid Hrid Hun. apply poll_keeps.
    - intros k d Hk Hd Heq. apply Hun. exists k, d. done.
    - destruct (consume_registers _ _ _ _ _ _ _ rid Hc Hrid) as [Hacc|Hreg]; [|done].
      simpl in Hacc. by apply elem_of_nil in Hacc. }
  clearbody p.
  eexists; split; [reflexivity|].
  simpl. split; [|split; [reflexivity|done]].
  apply (last_two_more (connected session_id :: started session_id session :: recs)).
Qed.

End Loop.

End BridgeFacts.

(** * The coordinator: unknown and repeated answers *)

Module CoordinatorProps.
Import WorkflowSmall WorkflowApi RunTerms Statements RunFacts Samples.

Section Coordinator.
Context `{Runtime}.

(** C4 (as amended). An answer whose request id is not in
    [pending_approvals] is rejected by [submit_approval] with status 404 and
    leaves the tables unchanged; the engine, as the spec describes it,
    rejects an answer for a request id that is not outstanding with a
    [CorrelationError] and leaves the run state unchanged. At the
    coordinator, an answer whose approval id matches no cached context
    raises nothing: the cache is left unchanged, and the answer is handled
    as a rejection, whatever its decision: a status event and the
    [rejected_by_human] notice are emitted. *)
Theorem unknown_answer_handling (d : ApprovalDecision) (g : Globals)
    (graph : Graph) (st : RunState) (feedback : RequestResponse) (w : World) :
  pending_approvals g !! request_id d = None ->
  outstanding st !! rr_request_id feedback = None ->
  APPROVAL_CONTEXT w !! resp_approval_id (rr_data feedback) = None ->
  submit_approval d g = (Raise (HTTPException 404 "Approval request not found"), g)
  ∧ send_responses_streaming graph {[rr_request_id feedback := rr_data feedback]} st
    = (([], Some (CorrelationError (rr_request_id feedback))), st)
  ∧ handle_response feedback w
    = {| effects := [AddEvent (hitl_event (rr_data feedback));
                     SendMessage (rejection_message (resp_comment (rr_data feedback))) None];
         world := w; result := Ok tt |}.
Proof.
  intros Hd Hst Hw. split; [|split].
  - unfold submit_approval. rewrite Hd. reflexivity.
  - unfold send_responses_streaming. rewrite map_to_list_singleton.
    cbn [resume_messages]. rewrite Hst. reflexivity.
  - rewrite handle_response_ok, forwarded_unknown by done.
    rewrite delete_id by done. destruct w; reflexivity.
Qed.

(** C5 (as amended). Taking a stored id twice yields the stored record the
    first time and not-found the second time, after which the id behaves as
    an unknown one. At the coordinator the store is [APPROVAL_CONTEXT]:
    the first [pop] returns the cached record and removes it; the second
    returns the empty default and raises nothing. At the submit entry point
    the store is [pending_approvals]: the first submission is accepted and
    removes the id, the second gets status 404 and changes nothing. *)
Theorem take_is_exactly_once (w : World) (rid : string) (info : list (string * value))
    (d : ApprovalDecision) (g : Globals) (ainfo : ApprovalInfo) (session : Session) :
  APPROVAL_CONTEXT w !! rid = Some info ->
  pending_approvals g !! request_id d = Some ainfo ->
  workflow_sessions g !! info_session_id ainfo = Some session ->
  (let first := pop_context rid w in
   let second := pop_context rid (world first) in
   result first = Ok info
   ∧ APPROVAL_CONTEXT (world first) !! rid = None
   ∧ result second = Ok []
   ∧ world second = world first)
  ∧ (let first := submit_approval d g in
     is_ok first.1 = true
     ∧ pending_approvals first.2 !! request_id d = None
     ∧ submit_approval d first.2
       = (Raise (HTTPException 404 "Approval request not found"), first.2)).
Proof.
  intros Hw Hd Hs. split.
  - cbv zeta. unfold pop_context. cbn [result world APPROVAL_CONTEXT uuid_drawn].
    rewrite Hw, lookup_delete_eq. cbn [default].
    rewrite delete_id by apply lookup_delete_eq. done.
  - cbv zeta. destruct (submit_approval d g) as [r1 g1] eqn:E.
    unfold submit_approval in E. rewrite Hd, Hs in E. inversion E; subst r1 g1.
    cbn [fst snd is_ok]. split; [done|].
    split; [apply lookup_delete_eq|].
    unfold submit_approval. cbn [pending_approvals].
    rewrite lookup_delete_eq. reflexivity.
Qed.

End Coordinator.

(** C4, counterexample. The cache is empty and the answer approves under
    an approval id that was never issued: [handle_response] returns normally
    and forwards the rejection notice, so the answer is not rejected as an
    error and the run advances. *)
Lemma unknown_answer_is_taken_as_rejection :
  ¬ rejects_without_advance (H := sample_runtime) (feedback_of approve_unknown) empty_world.
Proof. intros [Hr _]. vm_compute in Hr. discriminate. Qed.

(** C5, counterexample. The same approval is delivered twice for a cached
    request: the second delivery is no error either. *)
Lemma second_delivery_is_no_error :
  ¬ second_take_fails (H := sample_runtime) (feedback_of approve_first) one_cached.
Proof. intro Hr. vm_compute in Hr. discriminate. Qed.

Lemma unknown_answer_handling_witness :
  submit_approval
    {| request_id := "uuid-9"; approval_id := "uuid-0"; approved := true; comment := None |}
    one_session
  = (Raise (HTTPException 404 "Approval request not found"), one_session)
  ∧ send_responses_streaming (H := sample_runtime)
      (workflow_small (sample_agents compliant_text))
      {[ "uuid-1" := approve_unknown ]} idle_run
    = (([], Some (CorrelationError "uuid-1")), idle_run)
  ∧ handle_response (H := sample_runtime) (feedback_of approve_unknown) empty_world
    = {| effects := [AddEvent (hitl_event approve_unknown);
                     SendMessage (rejection_message (H := sample_runtime) None) None];
         world := empty_world; result := Ok tt |}.
Proof.
  apply (unknown_answer_handling (H := sample_runtime)
           {| request_id := "uuid-9"; approval_id := "uuid-0";
              approved := true; comment := None |}
           one_session (workflow_small (sample_agents compliant_text)) idle_run
           (feedback_of approve_unknown) empty_world); reflexivity.
Defined.

Lemma take_is_exactly_once_witness :
  result (pop_context "uuid-0" (world (pop_context "uuid-0" one_cached))) = Ok []
  ∧ submit_approval approve_request (submit_approval approve_request one_pending).2
    = (Raise (HTTPException 404 "Approval request not found"),
       (submit_approval approve_request one_pending).2).
Proof.
  destruct (take_is_exactly_once one_cached "uuid-0"
              (context_for compliant_text (VStr "n/a") (VStr "No preview"))
              approve_request one_pending
              {| info_session_id := "s1"; info_approval_data := [] |} session_s1
              ltac:(vm_compute; reflexivity) ltac:(vm_compute; reflexivity)
              ltac:(vm_compute; reflexivity))
    as [(_ & _ & Hpop & _) (_ & _ & Hsub)].
  split; [exact Hpop | exact Hsub].
Defined.

End CoordinatorProps.

(** * The blob sink and the compliance adapter *)

Module SinkProps.
Import WorkflowSmall Statements Samples.

Lemma only_ret P {A} (a : A) : only P (mret a).
Proof. intros w. constructor. Qed.

Lemma only_lift P {A} (r : Result A) : only P (lift r).
Proof. intros w. constructor. Qed.

Lemma only_tell (P : Effect -> Prop) e : P e -> only P (tell e).
Proof. intros He w. repeat constructor. exact He. Qed.

Lemma only_bind P {A B} (m : Handler A) (f : A -> Handler B) :
  only P m -> (∀ a, only P (f a)) -> only P (m ≫= f).
Proof.
  intros Hm Hf w. unfold mbind, handler_bind.
  destruct (result (m w)) as [a|e] eqn:E; simpl.
  - apply Forall_app. split; [apply Hm | apply Hf].
  - apply Hm.
Qed.

Lemma bind_ok {A B} (m : Handler A) (f : A -> Handler B) w a :
  result (m w) = Ok a ->
  (m ≫= f) w
  = {| effects := effects (m w) ++ effects (f a (world (m w)));
       world := world (f a (world (m w)));
       result := result (f a (world (m w))) |}.
Proof. intros Hr. unfold mbind, handler_bind. rewrite Hr. reflexivity. Qed.

Lemma bind_raise {A B} (m : Handler A) (f : A -> Handler B) w e :
  result (m w) = Raise e ->
  (m ≫= f) w = {| effects := effects (m w); world := world (m w); result := Raise e |}.
Proof. intros Hr. unfold mbind, handler_bind. rewrite Hr. reflexivity. Qed.

Create HintDb only_db.
#[local] Hint Resolve only_ret only_lift only_tell only_bind : only_db.

Section Sink.
Context `{Runtime}.
Variable az : BlobService.

Lemma blob_prelude_effects prev : only is_create_container (blob_prelude az prev).
Proof.
  unfold blob_prelude.
  repeat (apply only_bind; [|intros ?]); auto with only_db.
  destruct (create_container az _); auto with only_db.
  apply only_tell. exact I.
Qed.

Lemma date_path_raises fmt : date_path az fmt = Raise (AttributeError "datetime").
Proof. reflexivity. Qed.

(** C9. For every input record, every environment and every behaviour of
    the services, [save_result_to_blob] ends by an exception, uploads no
    blob and yields no output; whenever the statements before the date path
    succeed, the exception is the [AttributeError] of looking up [datetime]
    on the class [datetime]. *)
Theorem save_result_to_blob_never_stores (prev : value) (w : World) :
  let o := save_result_to_blob az prev w in
  is_ok (result o) = false
  ∧ (∀ name data, UploadBlob name data ∉ effects o)
  ∧ (∀ output, YieldOutput output ∉ effects o)
  ∧ (is_ok (result (blob_prelude az prev w)) = true ->
     result o = Raise (AttributeError "datetime")).
Proof.
  cbv zeta. unfold save_result_to_blob.
  pose proof (blob_prelude_effects prev w) as Heff.
  rewrite Forall_forall in Heff.
  destruct (result (blob_prelude az prev w))
    as [[[[[account_url container] src] fname] rid]|e] eqn:Hpre.
  - rewrite (bind_ok _ _ _ _ Hpre). cbv beta iota.
    rewrite (bind_raise (lift (date_path az "%Y/%m/%d")) _ _
               (AttributeError "datetime") eq_refl).
    cbn [effects world result is_ok lift]. rewrite app_nil_r.
    repeat split; try done.
    + intros name data Hin. by apply Heff in Hin.
    + intros output Hin. by apply Heff in Hin.
  - rewrite (bind_raise _ _ _ _ Hpre). cbn [effects world result is_ok].
    repeat split; try done.
    + intros name data Hin. by apply Heff in Hin.
    + intros output Hin. by apply Heff in Hin.
Qed.

End Sink.

(** The date path is reached in the sample service, so the last part of C9
    is not vacuous. *)
Example sample_service_reaches_date_path :
  result (save_result_to_blob (H := sample_runtime) sample_service sample_record empty_world)
  = Raise (AttributeError "datetime")
  ∧ effects (save_result_to_blob (H := sample_runtime) sample_service sample_record empty_world)
    = [CreateContainer "results"].
Proof. split; vm_compute; reflexivity. Qed.

End SinkProps.

Module AdapterProps.
Import WorkflowOne Statements Samples.

Section Adapter.
Context `{Runtime}.

Lemma parse_empty_text :
  _parse_compliance_json ""
  = VDict [("compliance", VDict []); ("needs_human_review", VBool false)].
Proof.
  unfold _parse_compliance_json, parse_body. cbn [String.eqb].
  rewrite json_loads_empty_object. reflexivity.
Qed.

Lemma parse_non_json text :
  text ≠ "" -> json_loads text = None -> _parse_compliance_json text = forced_review text.
Proof.
  intros Hne Hn. unfold _parse_compliance_json, parse_body.
  destruct (String.eqb_spec text ""); [done|]. rewrite Hn. reflexivity.
Qed.

(** Whatever the runtime, the empty text is read as the empty object. *)
Lemma empty_text_never_forced : ¬ forces_review "".
Proof.
  intros Hf. specialize (Hf json_loads_empty_text).
  rewrite parse_empty_text in Hf. discriminate.
Qed.

(** C10 (as amended). For every text that is not valid JSON the adapter
    returns normally and makes one call, the one that routes to human
    review: the auto-pass call is not made. For every such text but the
    empty one, [_parse_compliance_json] returns the forced-review record,
    with the review flag set and the raw text as the note. *)
Theorem non_json_never_auto_passes (text : string) (ctx : Context) :
  json_loads text = None ->
  (∃ packet,
     on_compliance (Some text) ctx
     = ({| state := <["compliance_text" := VStr text]> (state ctx);
           sent := sent ctx ++ [(VStr "human_review_exec", ArgPacket packet)] |}, Ok tt))
  ∧ (text ≠ "" -> _parse_compliance_json text = forced_review text).
Proof.
  intros Hn. split; [|intros Hne; by apply parse_non_json].
  unfold on_compliance.
  destruct (String.eqb_spec text "") as [->|Hne].
  - cbn [str_or String.eqb]. rewrite parse_empty_text. cbn. eauto.
  - assert (Hs : str_or (Some text) "" = text).
    { unfold str_or. destruct (String.eqb_spec text ""); done. }
    rewrite Hs, parse_non_json by done. cbn.
    eexists. reflexivity.
Qed.

End Adapter.

(** C10, counterexample. The empty text is not valid JSON, yet the parser
    reads it as the empty object and leaves the review flag unset. *)
Lemma empty_text_is_not_forced : ¬ forces_review (H := sample_runtime) "".
Proof.
  intros Hf. specialize (Hf eq_refl). rewrite parse_empty_text in Hf. discriminate.
Qed.

Lemma non_json_never_auto_passes_witness :
  (∃ packet,
     on_compliance (H := sample_runtime) (Some "not json") empty_context
     = ({| state := <["compliance_text" := VStr "not json"]> ∅;
           sent := [] ++ [(VStr "human_review_exec", ArgPacket packet)] |}, Ok tt))
  ∧ ("not json" ≠ "" ->
     _parse_compliance_json (H := sample_runtime) "not json" = forced_review "not json").
Proof.
  apply (non_json_never_auto_passes (H := sample_runtime) "not json" empty_context).
  reflexivity.
Defined.

End AdapterProps.

(** * Sessions of the served workflow *)

Module SessionProps.
Import WorkflowSmall WorkflowApi RunTerms BridgeTerms Statements RunFacts BridgeFacts Samples.

Section Served.
Context `{Runtime}.
Variable agents : Agents.
Variable w0 : World.
Variable posts : nat -> list ApprovalDecision.

Lemma consume_first_run session_id g rid request_id uri preview :
  consume session_id (first_run_events rid request_id uri preview) [] g
  = (first_run_records request_id (request_for rid uri preview),
     {| workflow_sessions := workflow_sessions g;
        pending_approvals :=
          <[request_id := {| info_session_id := session_id;
                             info_approval_data :=
                               approval_data_for request_id (request_for rid uri preview) |}]>
            (pending_approvals g) |},
     Exhausted [(request_id, request_for rid uri preview)]).
Proof. reflexivity. Qed.

(** The trace of a served session in which no step fails. *)
Lemma served_session_trace fuel session_id session now g ex c uri preview :
  run_extractor_20_agent agents (prompt_text (doc_of session)) = Ok ex ->
  run_compliance_20_agent agents ex = Ok c ->
  describe_input c = Ok (uri, preview) ->
  ∃ t, event_generator (served agents w0) posts (S fuel) session_id session now g = Some t
       ∧ records t
         = [connected session_id; started session_id session]
           ++ first_run_records (uuid4 (S (uuid_drawn w0)))
                (request_for (uuid4 (uuid_drawn w0)) uri preview)
           ++ [waiting 1; timeout_record]
       ∧ calls t = [RunStream (doc_of session)].
Proof.
  intros Hex Hc Hd.
  rewrite (generator_unfold (served agents w0) posts (S fuel) session_id session now g
             {| pending := []; outstanding := ∅; iteration := 0; globals := w0 |} eq_refl).
  cbn [run_loop].
  pose proof (run_stream_suspends agents (doc_of session)
                {| pending := []; outstanding := ∅; iteration := 0; globals := w0 |}
                _ _ _ _ Hex Hc Hd) as Hs.
  cbn [globals] in Hs.
  pose proof (consume_first_run session_id g (uuid4 (uuid_drawn w0))
                (uuid4 (S (uuid_drawn w0))) uri preview) as Hcons.
  rewrite (turn_timed_out (served agents w0) posts session_id (doc_of session)
             _ now g _ _ _ _ _ Hs Hcons eq_refl ltac:(discriminate)).
  eexists. split; [reflexivity|]. split; reflexivity.
Qed.

(** C2 (as amended). For every run of the served workflow in which the
    extractor and the compliance evaluator return and [prepare_request] does
    not raise, whatever the verdict says, the first pass of the run emits
    [progress(extraction, completed)] and [progress(compliance, completed)],
    then exactly one request for approval, and suspends with that request
    outstanding and without a workflow output: the graph has no branch that
    skips the human-approval step. In the stream of the session, whatever
    is submitted meanwhile, both progress records come before the
    [approval_required] record of that request, and neither another
    [approval_required] nor a [workflow_completed] record comes before it. *)
Theorem approval_is_never_skipped fuel session_id session now g ex c uri preview :
  run_extractor_20_agent agents (prompt_text (doc_of session)) = Ok ex ->
  run_compliance_20_agent agents ex = Ok c ->
  describe_input c = Ok (uri, preview) ->
  let rid := uuid4 (uuid_drawn w0) in
  let request_id := uuid4 (S (uuid_drawn w0)) in
  let first :=
    run_stream (workflow_small agents) (doc_of session)
      {| pending := []; outstanding := ∅; iteration := 0; globals := w0 |} in
  first.1 = (first_run_events rid request_id uri preview, None)
  ∧ outputs first.1 = []
  ∧ outstanding first.2
    = {[ request_id := ("human_review_exec", request_for rid uri preview) ]}
  ∧ ∃ t before after,
      event_generator (served agents w0) posts (S fuel) session_id session now g = Some t
      ∧ records t
        = before
          ++ sse "approval_required"
               (approval_data_for request_id (request_for rid uri preview))
          :: after
      ∧ progress_record "extraction" "completed" ∈ before
      ∧ progress_record "compliance" "completed" ∈ before
      ∧ count_type "approval_required" before = 0
      ∧ count_type "workflow_completed" before = 0.
Proof.
  intros Hex Hc Hd. cbv zeta.
  rewrite (run_stream_suspends agents _ _ _ _ _ _ Hex Hc Hd).
  split; [reflexivity|]. split; [reflexivity|]. split; [reflexivity|].
  destruct (served_session_trace fuel session_id session now g _ _ _ _ Hex Hc Hd)
    as (t & Ht & Hrec & _).
  exists t,
    ([connected session_id; started session_id session]
     ++ completed_records "doc_prompt"
     ++ [progress_record "extraction" "running"]
     ++ completed_records "extractor_node"
     ++ [progress_record "extraction" "completed"]
     ++ completed_records "extractor_result_node"
     ++ [progress_record "compliance" "running"]
     ++ completed_records "compliance_node"
     ++ [progress_record "compliance" "completed"]
     ++ completed_records "compliance_result_node"
     ++ completed_records "hitl_coordinator"),
    [waiting 1; timeout_record].
  split; [done|]. rewrite Hrec. cbn [globals].
  unfold first_run_records, completed_records.
  destruct executor_event_is_workflow_event.
  - repeat split; try reflexivity; apply list_elem_of_In; cbn; tauto.
  - repeat split; try reflexivity; apply list_elem_of_In; cbn; tauto.
Qed.

(** C6 (as amended). A run suspended on a non-empty payload and resumed
    with the matching approval yields exactly that payload as its output,
    and the coordinator sends downstream what the review step would send if
    it had the answer at hand. *)
Theorem approved_resume_delivers_payload doc st ex c uri preview comment :
  run_extractor_20_agent agents (prompt_text doc) = Ok ex ->
  run_compliance_20_agent agents ex = Ok c ->
  describe_input c = Ok (uri, preview) ->
  c ≠ "" ->
  let st1 := (run_stream (workflow_small agents) doc st).2 in
  let rid := uuid4 (uuid_drawn (globals st)) in
  let request_id := uuid4 (S (uuid_drawn (globals st))) in
  let answer := {| resp_approval_id := rid; resp_approved := true;
                   resp_comment := comment |} in
  let feedback := {| rr_data := answer;
                     rr_original_request := request_for rid uri preview;
                     rr_request_id := request_id |} in
  let resumed :=
    (send_responses_streaming (workflow_small agents) {[request_id := answer]} st1).1 in
  resumed = ([WorkflowEvent (hitl_event answer);
              ExecutorCompletedEvent "hitl_coordinator";
              WorkflowOutputEvent (MsgValue (VStr c))], None)
  ∧ delivers_payload resumed c
  ∧ downstream agents (handle_response feedback (globals st1))
    = [("final_result_placeholder", MsgValue (VStr c))]
  ∧ downstream agents (handle_response feedback (globals st1))
    = downstream agents (synchronous_review c answer (globals st1)).
Proof.
  intros Hex Hc Hd Hne. cbv zeta.
  rewrite (run_stream_suspends agents _ _ _ _ _ _ Hex Hc Hd). cbn [snd].
  assert (Hfw : forwarded (globals (suspended (globals st) c uri preview))
                  {| resp_approval_id := uuid4 (uuid_drawn (globals st));
                     resp_approved := true; resp_comment := comment |} = VStr c).
  { eapply forwarded_approved; [|reflexivity|done].
    cbn. apply lookup_insert_eq. }
  assert (Hres : (send_responses_streaming (workflow_small agents)
             {[uuid4 (S (uuid_drawn (globals st))) :=
                 {| resp_approval_id := uuid4 (uuid_drawn (globals st));
                    resp_approved := true; resp_comment := comment |}]}
             (suspended (globals st) c uri preview)).1
          = ([WorkflowEvent (hitl_event
                 {| resp_approval_id := uuid4 (uuid_drawn (globals st));
                    resp_approved := true; resp_comment := comment |});
              ExecutorCompletedEvent "hitl_coordinator";
              WorkflowOutputEvent (MsgValue (VStr c))], None)).
  { erewrite resume_one; [rewrite Hfw; reflexivity| |cbn; lia].
    cbn. apply lookup_singleton_eq. }
  split; [exact Hres|]. split; [unfold delivers_payload; rewrite Hres; reflexivity|].
  unfold downstream. rewrite handle_response_ok. cbn [rr_data]. rewrite Hfw.
  split; reflexivity.
Qed.

(** Whatever the runtime, an empty payload is not forwarded: the matching
    approval is answered by the rejection notice. *)
Lemma empty_payload_is_rejected w comment :
  let w1 := world (prepare_request "" w) in
  let answer := {| resp_approval_id := uuid4 (uuid_drawn w); resp_approved := true;
                   resp_comment := comment |} in
  result (prepare_request "" w) = Ok tt
  ∧ MsgValue (forwarded w1 answer) = rejection_message comment.
Proof.
  cbv zeta.
  assert (Hd : describe_input ""
               = Ok (VStr "", VStr ("Testing HITL for document: " +:+ suffix 60 ""))).
  { unfold describe_input, parse_input. rewrite json_loads_empty_text. reflexivity. }
  rewrite (prepare_request_ok _ _ _ _ Hd). cbn [result world].
  split; [reflexivity|].
  unfold forwarded, rejection_message. cbn [APPROVAL_CONTEXT resp_approval_id].
  rewrite lookup_insert_eq. reflexivity.
Qed.

(** C7. A run suspended by the served workflow and resumed with an answer
    whose decision is false, whatever the approval id and the comment, ends
    with a workflow output that is the rejection notice and not the payload
    in flight: the JSON text of an object whose [overall_status] is
    [rejected_by_human] and whose [remarks] is the comment, or [Rejected]
    when there is none. The bridge turns that stream into a
    [workflow_completed] record with this text as its result, and returns. *)
Theorem rejected_resume_completes doc st ex c uri preview approval_id comment :
  run_extractor_20_agent agents (prompt_text doc) = Ok ex ->
  run_compliance_20_agent agents ex = Ok c ->
  describe_input c = Ok (uri, preview) ->
  let st1 := (run_stream (workflow_small agents) doc st).2 in
  let request_id := uuid4 (S (uuid_drawn (globals st))) in
  let answer := {| resp_approval_id := approval_id; resp_approved := false;
                   resp_comment := comment |} in
  let resumed :=
    (send_responses_streaming (workflow_small agents) {[request_id := answer]} st1).1 in
  let notice :=
    json_dumps (VDict [("overall_status", VStr "rejected_by_human");
                       ("remarks", VStr (str_or comment "Rejected"))]) in
  resumed = ([WorkflowEvent (hitl_event answer);
              ExecutorCompletedEvent "hitl_coordinator";
              WorkflowOutputEvent (MsgValue (VStr notice))], None)
  ∧ ∀ session_id acc g,
      consume session_id resumed.1 acc g
      = (sse "hitl_status" [("status", VStr "rejected");
                            ("approval_id", VStr approval_id)]
         :: completed_records "hitl_coordinator"
         ++ [sse "workflow_completed" [("session_id", VStr session_id);
                                       ("result", VStr notice)]],
         g, Returned).
Proof.
  intros Hex Hc Hd. cbv zeta.
  rewrite (run_stream_suspends agents _ _ _ _ _ _ Hex Hc Hd). cbn [snd].
  erewrite resume_one; [| cbn; apply lookup_singleton_eq | cbn; lia].
  rewrite forwarded_rejected by reflexivity.
  split; [reflexivity|]. intros session_id acc g. reflexivity.
Qed.

End Served.

(** C1, at the failing input. The sample session asks for one approval
    (request id [uuid-1]); the client submits it during the first second of
    the wait. The submission is accepted and stored under the session entry
    of [workflow_sessions], and the id leaves [pending_approvals]; but the
    poll reads the generator's own local dictionary, which nothing fills:
    the wait runs out, the stream ends with the timeout error, the workflow
    is never resumed and no [workflow_completed] record is emitted. *)
Theorem submitted_answer_never_reaches_the_poll :
  ∃ t, sample_session compliant_text (post_at_first_tick approve_uuid1) = Some t
       ∧ replies t
         = [(approve_uuid1,
             Ok (VDict [("status", VStr "success");
                        ("message", VStr "Approval granted");
                        ("approval_id", VStr "uuid-0")]))]
       ∧ (session ← workflow_sessions (final t) !! "s1";
          buffer ← pending_responses session;
          buffer !! "uuid-1")
         = Some {| resp_approval_id := "uuid-0"; resp_approved := true;
                   resp_comment := None |}
       ∧ pending_approvals (final t) !! "uuid-1" = None
       ∧ calls t = [RunStream (doc_of session_s1)]
       ∧ last (records t) = Some timeout_record
       ∧ count_type "workflow_completed" (records t) = 0.
Proof.
  eexists. split; [vm_compute; reflexivity|].
  repeat split; vm_compute; reflexivity.
Qed.

(** C2, counterexample. The compliance evaluator returns a compliant
    verdict; the stream still asks for approval and never completes. *)
Lemma compliant_run_still_asks_for_approval :
  ¬ skips_approval (sample_session compliant_text no_posts).
Proof.
  intros (tr & Ht & _ & _ & _ & Hn).
  vm_compute in Ht. inversion Ht; subst tr. vm_compute in Hn. discriminate.
Qed.

(** C3, counterexample. Nobody answers the request of the sample session;
    after the timeout its id is still in [pending_approvals]. *)
Lemma timed_out_request_stays_registered :
  ¬ purged_after_timeout (sample_session compliant_text no_posts) ["uuid-1"].
Proof.
  intros (tr & Ht & _ & Hp).
  vm_compute in Ht. inversion Ht; subst tr.
  apply Forall_inv in Hp. vm_compute in Hp. discriminate.
Qed.

(** C8, counterexample. The stream of the workflow drains after one
    progress event: the generator ends without any terminal record. *)
Lemma drained_stream_has_no_terminal_record :
  ¬ exactly_one_terminal
      (event_generator (H := sample_runtime) (scripted progress_only) no_posts 1
         "s1" session_s1 0 one_session).
Proof.
  intros (tr & Ht & Hn).
  vm_compute in Ht. inversion Ht; subst tr. vm_compute in Hn. discriminate.
Qed.

(** C6, counterexample. The payload in flight is the empty text: the run
    suspends, the matching approval resumes it, and the output is the
    rejection notice instead of the payload. *)
Lemma empty_payload_is_not_delivered :
  ¬ delivers_payload
      (send_responses_streaming (H := sample_runtime) (workflow_small (sample_agents ""))
         {[ "uuid-1" := {| resp_approval_id := "uuid-0"; resp_approved := true;
                           resp_comment := None |} ]}
         (run_stream (H := sample_runtime) (workflow_small (sample_agents ""))
            (doc_of session_s1)
            {| pending := []; outstanding := ∅; iteration := 0;
               globals := empty_world |}).2).1
      "".
Proof. intro Hd. vm_compute in Hd. discriminate. Qed.

Lemma approval_is_never_skipped_witness :
  outputs
    (run_stream (H := sample_runtime) (workflow_small (sample_agents compliant_text))
       (doc_of session_s1) idle_run).1 = []
  ∧ ∃ t before after,
      sample_session compliant_text no_posts = Some t
      ∧ records t
        = before
          ++ sse "approval_required"
               (approval_data_for "uuid-1"
                  (request_for "uuid-0" (VStr "n/a") (VStr "No preview")))
          :: after
      ∧ progress_record "extraction" "completed" ∈ before
      ∧ progress_record "compliance" "completed" ∈ before
      ∧ count_type "approval_required" before = 0
      ∧ count_type "workflow_completed" before = 0.
Proof.
  destruct (approval_is_never_skipped (H := sample_runtime) (sample_agents compliant_text)
              empty_world no_posts 0 "s1" session_s1 0 one_session
              "extracted fields" compliant_text (VStr "n/a") (VStr "No preview")
              eq_refl eq_refl eq_refl)
    as (_ & Hout & _ & Htrace).
  split; [exact Hout | exact Htrace].
Defined.

Lemma timeout_closes_without_purge_witness :
  ∃ t, sample_session compliant_text no_posts = Some t
       ∧ last (records t) = Some timeout_record
       ∧ calls t = [RunStream (doc_of session_s1)]
       ∧ ∀ rid, rid ∈ [("uuid-1", request_for "uuid-0" (VStr "n/a") (VStr "No preview"))].*1 ->
                ¬ answered no_posts 0 rid ->
                is_Some (pending_approvals (final t) !! rid).
Proof.
  apply (timeout_closes_without_purge (H := sample_runtime)
           (served (sample_agents compliant_text) empty_world) no_posts 0
           "s1" session_s1 0 one_session
           [("uuid-1", request_for "uuid-0" (VStr "n/a") (VStr "No preview"))]).
  - eexists _, _, _, _, _.
    split; [reflexivity|]. split; [vm_compute; reflexivity|].
    split; [reflexivity|]. split; [vm_compute; reflexivity|]. discriminate.
  - exists "uuid-1". split; [by left|].
    intros (k & d & _ & Hd & _). by apply elem_of_nil in Hd.
Defined.

Lemma approved_resume_delivers_payload_witness :
  delivers_payload
    (send_responses_streaming (H := sample_runtime)
       (workflow_small (sample_agents compliant_text))
       {[ "uuid-1" := {| resp_approval_id := "uuid-0"; resp_approved := true;
                         resp_comment := None |} ]}
       (run_stream (H := sample_runtime) (workflow_small (sample_agents compliant_text))
          (doc_of session_s1)
          {| pending := []; outstanding := ∅; iteration := 0;
             globals := empty_world |}).2).1
    compliant_text.
Proof.
  assert (Hne : compliant_text ≠ "") by (vm_compute; discriminate).
  exact (proj1 (proj2
    (approved_resume_delivers_payload (H := sample_runtime) (sample_agents compliant_text)
       (doc_of session_s1)
       {| pending := []; outstanding := ∅; iteration := 0; globals := empty_world |}
       "extracted fields" compliant_text (VStr "n/a") (VStr "No preview") None
       eq_refl eq_refl eq_refl Hne))).
Defined.

Lemma rejected_resume_completes_witness :
  (send_responses_streaming (H := sample_runtime)
     (workflow_small (sample_agents compliant_text))
     {[ "uuid-1" := {| resp_approval_id := "uuid-0"; resp_approved := false;
                       resp_comment := Some "figures do not add up" |} ]}
     (run_stream (H := sample_runtime) (workflow_small (sample_agents compliant_text))
        (doc_of session_s1)
        {| pending := []; outstanding := ∅; iteration := 0;
           globals := empty_world |}).2).1
  = ([WorkflowEvent
        (hitl_event {| resp_approval_id := "uuid-0"; resp_approved := false;
                       resp_comment := Some "figures do not add up" |});
      ExecutorCompletedEvent "hitl_coordinator";
      WorkflowOutputEvent
        (MsgValue (VStr (sample_dumps
           (VDict [("overall_status", VStr "rejected_by_human");
                   ("remarks", VStr "figures do not add up")]))))], None).
Proof.
  exact (proj1
    (rejected_resume_completes (H := sample_runtime) (sample_agents compliant_text)
       (doc_of session_s1)
       {| pending := []; outstanding := ∅; iteration := 0; globals := empty_world |}
       "extracted fields" compliant_text (VStr "n/a") (VStr "No preview")
       "uuid-0" (Some "figures do not add up")
       eq_refl eq_refl eq_refl)).
Defined.

End SessionProps.

(** * Further properties of the bridge tables and streams ([workflow_api.py]) *)

Module TableFacts.
Import WorkflowSmall WorkflowApi Endpoints RunTerms BridgeTerms TableTerms Statements
  BridgeFacts Samples MoreSamples.

Lemma same_sessions_refl g : same_sessions g g.
Proof. intros sid. reflexivity. Qed.

Lemma same_sessions_trans g1 g2 g3 :
  same_sessions g1 g2 -> same_sessions g2 g3 -> same_sessions g1 g3.
Proof. intros H12 H23 sid. rewrite H23, H12. reflexivity. Qed.

Lemma same_sessions_is_Some g g' sid :
  same_sessions g g' ->
  is_Some (workflow_sessions g !! sid) -> is_Some (workflow_sessions g' !! sid).
Proof.
  intros Hs [s Hsid]. specialize (Hs sid). rewrite Hsid in Hs.
  destruct (workflow_sessions g' !! sid); [eauto|discriminate].
Qed.

(** What a submission does to the tables. *)
Lemma submit_approval_same d g : same_sessions g (submit_approval d g).2.
Proof.
  unfold submit_approval.
  destruct (pending_approvals g !! request_id d) as [info|]; [|apply same_sessions_refl].
  destruct (workflow_sessions g !! info_session_id info) as [session|] eqn:Hs;
    [|apply same_sessions_refl].
  intros sid. simpl.
  destruct (decide (sid = info_session_id info)) as [->|Hne].
  - rewrite lookup_insert_eq, Hs. reflexivity.
  - rewrite lookup_insert_ne by done. reflexivity.
Qed.

Lemma submit_approval_linked d g : well_linked g -> well_linked (submit_approval d g).2.
Proof.
  intros Hl rid info Hin.
  apply (same_sessions_is_Some g); [apply submit_approval_same|].
  apply (Hl rid). revert Hin. unfold submit_approval.
  destruct (pending_approvals g !! request_id d) as [info0|]; [|done].
  destruct (workflow_sessions g !! info_session_id info0) as [session|]; [|done].
  simpl. intros Hin. apply lookup_delete_Some in Hin as [_ Hin]. done.
Qed.

Lemma submit_approval_session_found d g :
  well_linked g ->
  (submit_approval d g).1 ≠ Raise (HTTPException 404 "Workflow session not found").
Proof.
  intros Hl. unfold submit_approval.
  destruct (pending_approvals g !! request_id d) as [info|] eqn:Hd; [|simpl; congruence].
  destruct (Hl _ _ Hd) as [session Hs]. rewrite Hs. simpl. congruence.
Qed.

Section Loop.
Context `{Runtime}.
Variable wf : Workflow.
Variable posts : nat -> list ApprovalDecision.

Lemma consume_sessions session_id events acc g recs g' fin :
  consume session_id events acc g = (recs, g', fin) ->
  workflow_sessions g' = workflow_sessions g.
Proof.
  revert acc g recs g' fin.
  induction events as [|ev events IH]; intros acc g recs g' fin Hc; simpl in Hc.
  - inversion Hc; subst; done.
  - destruct ev as [output|rid' req|event_data|executor_id|name].
    + inversion Hc; subst; done.
    + destruct (consume _ events _ _) as [[recs0 g0] fin0] eqn:E.
      inversion Hc; subst. by rewrite (IH _ _ _ _ _ E).
    + destruct (consume _ events _ _) as [[recs0 g0] fin0] eqn:E.
      inversion Hc; subst. eapply IH; eauto.
    + destruct (consume _ events _ _) as [[recs0 g0] fin0] eqn:E.
      inversion Hc; subst. eapply IH; eauto.
    + eapply IH; eauto.
Qed.

Lemma consume_linked session_id events acc g recs g' fin :
  consume session_id events acc g = (recs, g', fin) ->
  is_Some (workflow_sessions g !! session_id) ->
  well_linked g -> well_linked g'.
Proof.
  revert acc g recs g' fin.
  induction events as [|ev events IH]; intros acc g recs g' fin Hc Hsid Hl; simpl in Hc.
  - inversion Hc; subst; done.
  - destruct ev as [output|rid' req|event_data|executor_id|name].
    + inversion Hc; subst; done.
    + destruct (consume _ events _ _) as [[recs0 g0] fin0] eqn:E.
      inversion Hc; subst. eapply IH; eauto.
      intros rid info. simpl. intros Hin.
      apply lookup_insert_Some in Hin as [[_ <-]|[_ Hin]]; [done|]. by apply (Hl rid).
    + destruct (consume _ events _ _) as [[recs0 g0] fin0] eqn:E.
      inversion Hc; subst. eapply IH; eauto.
    + destruct (consume _ events _ _) as [[recs0 g0] fin0] eqn:E.
      inversion Hc; subst. eapply IH; eauto.
    + eapply IH; eauto.
Qed.

Lemma consume_same session_id events acc g recs g' fin :
  consume session_id events acc g = (recs, g', fin) -> same_sessions g g'.
Proof. intros Hc sid. by rewrite (consume_sessions _ _ _ _ _ _ _ Hc). Qed.

Lemma serve_inv (P : Globals -> Prop) (ds : list ApprovalDecision) acc :
  (∀ d g, P g -> P (submit_approval d g).2) ->
  P acc.1 ->
  P (foldl (fun (acc : Globals * list (ApprovalDecision * Result value)) decision =>
               let '(reply, g') := submit_approval decision acc.1 in
               (g', acc.2 ++ [(decision, reply)])) acc ds).1.
Proof.
  intros Hstep. revert acc. induction ds as [|d ds IH]; intros acc Hacc; simpl; [done|].
  apply IH. specialize (Hstep d acc.1 Hacc).
  destruct (submit_approval d acc.1) as [reply g']. exact Hstep.
Qed.

Lemma sleep_inv (P : Globals -> Prop) now g :
  (∀ d g, P g -> P (submit_approval d g).2) -> P g -> P (sleep posts now g).1.
Proof. intros. unfold sleep. by apply serve_inv. Qed.

Lemma poll_inv (P : Globals -> Prop) n reqs pend last now g :
  (∀ d g, P g -> P (submit_approval d g).2) ->
  P g -> P (poll posts n reqs pend last now g).1.2.
Proof.
  intros Hstep. revert last now g.
  induction n as [|n IH]; intros last now g Hg; simpl; [done|].
  case_match; [done|].
  pose proof (sleep_inv P now g Hstep Hg) as Hs.
  destruct (sleep posts now g) as [g' served] eqn:Es.
  specialize (IH (Some false) (S now) g' Hs).
  destruct (poll posts n reqs pend (Some false) (S now) g') as [[[ready now'] g''] served'].
  exact IH.
Qed.

(** One turn of the loop keeps an invariant of the tables that the stream
    loop and the submissions keep. *)
Lemma loop_body_inv (P : Globals -> Prop) session_id doc pend w now g :
  (∀ d g, P g -> P (submit_approval d g).2) ->
  (∀ events acc g recs g' fin,
     consume session_id events acc g = (recs, g', fin) -> P g -> P g') ->
  P g ->
  match loop_body wf posts session_id doc pend w now g with
  | Done _ t => P (final t)
  | Again _ t _ _ _ => P (final t)
  end.
Proof.
  intros Hsub Hcons Hg. unfold loop_body.
  destruct (bool_decide (pend = ∅)).
  - destruct (wf_run_stream wf doc w) as [stream w'].
    destruct (consume session_id stream.1 [] g) as [[recs g1] fin] eqn:Hc.
    pose proof (Hcons _ _ _ _ _ _ Hc Hg) as Hg1.
    destruct fin as [|reqs]; [done|].
    destruct (stream.2); [done|].
    destruct reqs as [|r reqs]; [done|].
    pose proof (poll_inv P max_wait (r :: reqs) pend None now g1 Hsub Hg1) as Hp.
    destruct (poll posts max_wait (r :: reqs) pend None now g1) as [[[ready now'] g2] served].
    simpl in Hp. destruct ready as [[|]|]; done.
  - destruct (wf_send_responses_streaming wf pend w) as [stream w'].
    destruct (consume session_id stream.1 [] g) as [[recs g1] fin] eqn:Hc.
    pose proof (Hcons _ _ _ _ _ _ Hc Hg) as Hg1.
    destruct fin as [|reqs]; [done|].
    destruct (stream.2); [done|].
    destruct reqs as [|r reqs]; [done|].
    pose proof (poll_inv P max_wait (r :: reqs) ∅ None now g1 Hsub Hg1) as Hp.
    destruct (poll posts max_wait (r :: reqs) ∅ None now g1) as [[[ready now'] g2] served].
    simpl in Hp. destruct ready as [[|]|]; done.
Qed.

Lemma run_loop_inv (P : Globals -> Prop) fuel session_id doc pend w now g t :
  (∀ d g, P g -> P (submit_approval d g).2) ->
  (∀ events acc g recs g' fin,
     consume session_id events acc g = (recs, g', fin) -> P g -> P g') ->
  P g ->
  run_loop wf posts fuel session_id doc pend w now g = Some t ->
  P (final t).
Proof.
  intros Hsub Hcons. revert pend w now g t.
  induction fuel as [|fuel IH]; intros pend w now g t Hg Hr; simpl in Hr; [done|].
  pose proof (loop_body_inv P session_id doc pend w now g Hsub Hcons Hg) as Hb.
  destruct (loop_body wf posts session_id doc pend w now g) as [t0|t0 pend' w' now'].
  - by inversion Hr; subst.
  - destruct (run_loop wf posts fuel session_id doc pend' w' now' (final t0)) as [t1|] eqn:E;
      [|done].
    inversion Hr; subst. simpl. eapply IH; eauto.
Qed.

Lemma event_generator_inv (P : Globals -> Prop) fuel session_id session now g t :
  (∀ d g, P g -> P (submit_approval d g).2) ->
  (∀ events acc g recs g' fin,
     consume session_id events acc g = (recs, g', fin) -> P g -> P g') ->
  P g ->
  event_generator wf posts fuel session_id session now g = Some t ->
  P (final t).
Proof.
  intros Hsub Hcons Hg. unfold event_generator.
  destruct (wf_build wf (session_document_uri session)) as [w|e].
  - destruct (run_loop wf posts fuel session_id _ ∅ w now g) as [t1|] eqn:E; [|done].
    intros Ht. inversion Ht; subst. simpl. eapply run_loop_inv; eauto.
  - intros Ht. inversion Ht; subst. done.
Qed.

(** X1. No operation of the bridge leaves a registered approval without its
    session: starting a session, submitting an answer and streaming the
    events of an existing session all keep every entry of
    [pending_approvals] linked to an entry of [workflow_sessions]. So the
    second 404 of [submit_approval], for a missing session, is never
    returned. *)
Theorem approvals_stay_linked (g : Globals) :
  well_linked g ->
  (∀ request session_id now,
     well_linked (start_workflow_endpoint request session_id now g).2)
  ∧ (∀ d, well_linked (submit_approval d g).2
          ∧ (submit_approval d g).1 ≠ Raise (HTTPException 404 "Workflow session not found"))
  ∧ (∀ fuel session_id now t,
       stream_workflow_events wf posts fuel session_id now g = Ok (Some t) ->
       well_linked (final t)).
Proof.
  intros Hl. split; [|split].
  - intros request session_id now rid info Hin. simpl in *.
    destruct (Hl _ _ Hin) as [s Hs].
    destruct (decide (session_id = info_session_id info)) as [->|Hne].
    + rewrite lookup_insert_eq. eauto.
    + rewrite lookup_insert_ne by done. eauto.
  - intros d. split; [by apply submit_approval_linked|by apply submit_approval_session_found].
  - intros fuel session_id now t. unfold stream_workflow_events.
    destruct (workflow_sessions g !! session_id) as [session|] eqn:Hs; [|done].
    intros Ht. inversion Ht as [Hg]. clear Ht.
    pose (P := fun g' => well_linked g' ∧ is_Some (workflow_sessions g' !! session_id)).
    assert (HP : P (final t)); [|by destruct HP].
    eapply (event_generator_inv P); [| |split; [exact Hl|eauto]|exact Hg].
    + intros d g0 [Hl0 Hs0]. split; [by apply submit_approval_linked|].
      eapply same_sessions_is_Some; [apply submit_approval_same|done].
    + intros events acc g0 recs g' fin Hc [Hl0 Hs0]. split.
      * eapply consume_linked; eauto.
      * by rewrite (consume_sessions _ _ _ _ _ _ _ Hc).
Qed.


(** X2. Nothing updates a session entry: after a session was started and
    its event stream has run to its end, whatever the workflow did and
    whatever was submitted meanwhile, every session still has the status,
    document uri and creation time it was created with. The status endpoint
    reports [initializing] for the session. *)
Theorem status_stays_initializing (request : WorkflowStartRequest)
    (session_id created : string) (g0 : Globals) (fuel now : nat) :
  let g := (start_workflow_endpoint request session_id created g0).2 in
  ∃ t, stream_workflow_events wf posts (S fuel) session_id now g = Ok (Some t)
       ∧ same_sessions g (final t)
       ∧ ∃ s, get_workflow_status session_id (final t) = Ok s
              ∧ as_created s = ("initializing", start_document_uri request, created).
Proof.
  cbv zeta. unfold stream_workflow_events, start_workflow_endpoint. cbn [snd].
  set (g := start_workflow (start_document_uri request) session_id created g0).
  assert (Hs : workflow_sessions g !! session_id
               = Some {| status := "initializing";
                         session_document_uri := start_document_uri request;
                         created_at := created; pending_responses := None |}).
  { subst g. simpl. apply lookup_insert_eq. }
  rewrite Hs.
  destruct (generator_runs_once wf posts fuel session_id
              {| status := "initializing";
                 session_document_uri := start_document_uri request;
                 created_at := created; pending_responses := None |} now g)
    as (t & Ht & _).
  exists t. split; [by rewrite Ht|].
  assert (Hsame : same_sessions g (final t)).
  { eapply (event_generator_inv (same_sessions g)); [| |apply same_sessions_refl|exact Ht].
    - intros d g1 Hg1. eapply same_sessions_trans; [exact Hg1|apply submit_approval_same].
    - intros events acc g1 recs g' fin Hc Hg1.
      eapply same_sessions_trans; [exact Hg1|by eapply consume_same]. }
  split; [exact Hsame|].
  specialize (Hsame session_id). rewrite Hs in Hsame. unfold get_workflow_status.
  destruct (workflow_sessions (final t) !! session_id) as [s|]; [|discriminate].
  exists s. split; [reflexivity|]. simpl in Hsame. by inversion Hsame.
Qed.

Lemma consume_returned_last session_id events acc g recs g' :
  consume session_id events acc g = (recs, g', Returned) ->
  ∃ l r, recs = l ++ [r] ∧ List.filter is_terminal l = []
         ∧ event_type r = "workflow_completed".
Proof.
  revert acc g recs g'.
  induction events as [|ev events IH]; intros acc g recs g' Hc; simpl in Hc.
  - inversion Hc.
  - destruct ev as [output|rid' req|event_data|executor_id|name].
    + inversion Hc; subst. by eexists [], _.
    + destruct (consume _ events _ _) as [[recs0 g0] fin0] eqn:E.
      inversion Hc; subst. destruct (IH _ _ _ _ E) as (l & r & -> & Hl & Hr).
      eexists (_ :: l), r. split; [reflexivity|]. split; [|done]. simpl. exact Hl.
    + destruct (consume _ events _ _) as [[recs0 g0] fin0] eqn:E.
      inversion Hc; subst. destruct (IH _ _ _ _ E) as (l & r & -> & Hl & Hr).
      eexists (_ ++ l), r. split; [by rewrite app_assoc|]. split; [|done].
      by rewrite List.filter_app, custom_records_not_terminal, Hl.
    + destruct (consume _ events _ _) as [[recs0 g0] fin0] eqn:E.
      inversion Hc; subst. destruct (IH _ _ _ _ E) as (l & r & -> & Hl & Hr).
      eexists (_ ++ l), r. split; [by rewrite app_assoc|]. split; [|done].
      by rewrite List.filter_app, completed_records_not_terminal, Hl.
    + eapply IH; eauto.
Qed.

Lemma consume_exhausted_no_terminal session_id events acc g recs g' reqs :
  consume session_id events acc g = (recs, g', Exhausted reqs) ->
  List.filter is_terminal recs = [].
Proof.
  intros Hc. pose proof (consume_terminal_count _ _ _ _ _ _ _ Hc) as Hn.
  unfold terminal_count in Hn. by destruct (List.filter is_terminal recs).
Qed.

Lemma removelast_snoc {A} (l : list A) (a : A) : removelast (l ++ [a]) = l.
Proof. apply removelast_last. Qed.

Lemma removelast_snoc2 {A} (l : list A) (a b : A) : removelast (l ++ [a; b]) = l ++ [a].
Proof. change [a; b] with ([a] ++ [b]). rewrite app_assoc. apply removelast_last. Qed.

Lemma filter_removelast_nil {A} (f : A -> bool) (l : list A) :
  List.filter f l = [] -> List.filter f (removelast l) = [].
Proof.
  induction l as [|a l IH]; [done|]. simpl.
  destruct (f a) eqn:Hf; [done|]. intros Hl.
  destruct l as [|b l]; [done|]. simpl in *. rewrite Hf. by apply IH.
Qed.

(** X4. In the stream of a session, a terminal record ([workflow_completed]
    or [error]) can only be the last record: nothing is sent after it. *)
Theorem terminal_record_is_last (fuel : nat) (session_id : string) (session : Session)
    (now : nat) (g : Globals) :
  ∃ t, event_generator wf posts (S fuel) session_id session now g = Some t
       ∧ terminal_count (removelast (records t)) = 0.
Proof.
  unfold terminal_count.
  destruct (wf_build wf (session_document_uri session)) as [w|e] eqn:Hb.
  2:{ unfold event_generator. rewrite Hb. eexists; split; [reflexivity|]. reflexivity. }
  rewrite (generator_unfold wf posts _ _ _ _ _ _ Hb). simpl.
  destruct (wf_run_stream wf (doc_of session) w) as [stream w'] eqn:Hs.
  destruct (consume session_id stream.1 [] g) as [[recs g1] fin] eqn:Hc.
  destruct fin as [|reqs].
  { erewrite turn_returned by eauto. eexists; split; [reflexivity|].
    destruct (consume_returned_last _ _ _ _ _ _ Hc) as (l & r & -> & Hl & _).
    cbn [records followed_by fmap option_fmap option_map].
    rewrite app_assoc, removelast_snoc. simpl. by rewrite Hl. }
  pose proof (consume_exhausted_no_terminal _ _ _ _ _ _ _ Hc) as Hn.
  destruct (stream.2) as [e|] eqn:He.
  { erewrite turn_raised by eauto. eexists; split; [reflexivity|].
    cbn [records followed_by fmap option_fmap option_map].
    rewrite app_assoc, removelast_snoc. simpl. by rewrite Hn. }
  destruct reqs as [|r reqs].
  { erewrite turn_drained by eauto. eexists; split; [reflexivity|].
    cbn [records followed_by fmap option_fmap option_map].
    rewrite filter_removelast_nil; [done|]. simpl. exact Hn. }
  erewrite turn_timed_out by eauto.
  generalize (poll posts max_wait (r :: reqs) ∅ None now g1). intros p.
  eexists; split; [reflexivity|].
  cbn [records followed_by fmap option_fmap option_map].
  rewrite app_assoc, removelast_snoc2, List.filter_app. simpl. by rewrite Hn.
Qed.


Lemma custom_records_no_approval event_data :
  List.filter (has_type "approval_required") (custom_records event_data) = [].
Proof.
  unfold custom_records.
  destruct event_data; try reflexivity.
  cbv zeta.
  repeat case_match; reflexivity.
Qed.

Lemma completed_records_no_approval executor_id :
  List.filter (has_type "approval_required") (completed_records executor_id) = [].
Proof. unfold completed_records. by destruct executor_event_is_workflow_event. Qed.

(** The stream loop yields one [approval_required] record for each request
    it collects. *)
Lemma consume_counts_requests session_id events acc g recs g' reqs :
  consume session_id events acc g = (recs, g', Exhausted reqs) ->
  count_type "approval_required" recs + length acc = length reqs.
Proof.
  unfold count_type.
  revert acc g recs g' reqs.
  induction events as [|ev events IH]; intros acc g recs g' reqs Hc; simpl in Hc.
  - inversion Hc; subst; reflexivity.
  - destruct ev as [output|rid' req|event_data|executor_id|name].
    + inversion Hc.
    + destruct (consume _ events _ _) as [[recs0 g0] fin0] eqn:E.
      inversion Hc; subst. specialize (IH _ _ _ _ _ E).
      rewrite length_app in IH. simpl in *. lia.
    + destruct (consume _ events _ _) as [[recs0 g0] fin0] eqn:E.
      inversion Hc; subst.
      rewrite List.filter_app, custom_records_no_approval. simpl. eapply IH; eauto.
    + destruct (consume _ events _ _) as [[recs0 g0] fin0] eqn:E.
      inversion Hc; subst.
      rewrite List.filter_app, completed_records_no_approval. simpl. eapply IH; eauto.
    + eapply IH; eauto.
Qed.

(** X5. When a session reaches the wait for approval, its stream holds one
    [approval_required] record for each outstanding request, followed by
    one [waiting_for_approval] record whose count is their number. *)
Theorem waiting_count_is_number_of_requests (fuel : nat) (session_id : string)
    (session : Session) (now : nat) (g : Globals) (reqs : list (string * ApprovalRequest)) :
  awaits_approval wf session_id session g reqs ->
  ∃ t before,
    event_generator wf posts (S fuel) session_id session now g = Some t
    ∧ records t = before ++ [waiting (length reqs); timeout_record]
    ∧ count_type "approval_required" before = length reqs
    ∧ count_type "waiting_for_approval" before = 0.
Proof.
  intros (w & stream & w' & recs & g1 & Hb & Hs & He & Hc & Hreqs).
  rewrite (generator_unfold wf posts _ _ _ _ _ _ Hb).
  cbn [run_loop]. erewrite turn_timed_out by eauto.
  generalize (poll posts max_wait reqs ∅ None now g1). intros p.
  eexists _, ([connected session_id; started session_id session] ++ recs).
  split; [reflexivity|]. split; [by rewrite <- app_assoc|].
  pose proof (consume_counts_requests _ _ _ _ _ _ _ Hc) as Hn.
  pose proof (consume_record_types _ _ _ _ _ _ _ Hc) as Hty.
  split.
  - unfold count_type in *. simpl in *. lia.
  - unfold count_type. simpl. clear -Hty.
    induction Hty as [|r l Hr _ IH]; [done|]. simpl.
    unfold has_type at 1.
    destruct (String.eqb_spec (event_type r) "waiting_for_approval") as [Heq|_]; [|exact IH].
    rewrite Heq in Hr. unfold stream_record_types in Hr.
    repeat (apply elem_of_cons in Hr as [Hr|Hr]; [discriminate|]).
    by apply elem_of_nil in Hr.
Qed.

Lemma consume_stops_at_output session_id evs output rest acc g :
  consume session_id (evs ++ WorkflowOutputEvent output :: rest) acc g
  = consume session_id (evs ++ [WorkflowOutputEvent output]) acc g.
Proof.
  revert acc g. induction evs as [|ev evs IH]; intros acc g; [reflexivity|].
  destruct ev; simpl; rewrite ?IH; reflexivity.
Qed.

Lemma consume_output_returns session_id evs output acc g :
  (consume session_id (evs ++ [WorkflowOutputEvent output]) acc g).2 = Returned.
Proof.
  revert acc g. induction evs as [|ev evs IH]; intros acc g; [reflexivity|].
  destruct ev as [out|rid req|event_data|executor_id|name]; simpl; try apply IH.
  - reflexivity.
  - specialize (IH (acc ++ [(rid, req)])
      {| workflow_sessions := workflow_sessions g;
         pending_approvals :=
           <[rid := {| info_session_id := session_id;
                       info_approval_data :=
                         [("request_id", VStr rid);
                          ("approval_id", VStr (req_approval_id req));
                          ("title", VStr (req_title req));
                          ("message", VStr (req_message req));
                          ("source_uri", req_source_uri req);
                          ("preview", req_preview req)] |}]> (pending_approvals g) |}).
    destruct (consume _ _ _ _) as [[? ?] ?]. exact IH.
  - specialize (IH acc g). destruct (consume _ _ _ _) as [[? ?] ?]. exact IH.
  - specialize (IH acc g). destruct (consume _ _ _ _) as [[? ?] ?]. exact IH.
Qed.

(** X6. The stream of a session closes at the first workflow output: the
    events that follow it in the run, and a failure of the run after it,
    are never reported, and requests raised after it are not registered. *)
Theorem nothing_after_the_output_is_reported (evs rest : list Event) (output : Message)
    (e : option exn) (fuel : nat) (session_id : string) (session : Session)
    (now : nat) (g : Globals) :
  event_generator (Samples.scripted (evs ++ WorkflowOutputEvent output :: rest, e))
    posts fuel session_id session now g
  = event_generator (Samples.scripted (evs ++ [WorkflowOutputEvent output], None))
      posts fuel session_id session now g.
Proof.
  unfold event_generator. cbn [Samples.scripted wf_build].
  destruct fuel as [|fuel]; [reflexivity|].
  cbn [run_loop]. unfold loop_body.
  rewrite bool_decide_eq_true_2 by done.
  cbn [Samples.scripted wf_run_stream fst snd].
  rewrite consume_stops_at_output.
  pose proof (consume_output_returns session_id evs output [] g) as Hr.
  destruct (consume session_id (evs ++ [WorkflowOutputEvent output]) [] g) as [[recs g1] fin].
  simpl in Hr. subst fin. reflexivity.
Qed.

Lemma submit_approval_registered_here session_id rid d g :
  registered_here session_id rid g -> registered_here session_id rid (submit_approval d g).2.
Proof.
  intros Hr info. unfold submit_approval.
  destruct (pending_approvals g !! request_id d) as [info0|]; [|apply Hr].
  destruct (workflow_sessions g !! info_session_id info0) as [session|]; [|apply Hr].
  simpl. intros Hin. apply lookup_delete_Some in Hin as [_ Hin]. by apply Hr.
Qed.

Lemma consume_registered_here session_id events acc g recs g' fin rid :
  consume session_id events acc g = (recs, g', fin) ->
  registered_here session_id rid g -> registered_here session_id rid g'.
Proof.
  revert acc g recs g' fin.
  induction events as [|ev events IH]; intros acc g recs g' fin Hc Hin; simpl in Hc.
  - inversion Hc; subst; done.
  - destruct ev as [output|rid' req|event_data|executor_id|name].
    + inversion Hc; subst; done.
    + destruct (consume _ events _ _) as [[recs0 g0] fin0] eqn:E.
      inversion Hc; subst. eapply IH; eauto.
      intros info. simpl. intros Hl.
      apply lookup_insert_Some in Hl as [[_ <-]|[_ Hl]]; [done|]. by apply Hin.
    + destruct (consume _ events _ _) as [[recs0 g0] fin0] eqn:E.
      inversion Hc; subst. eapply IH; eauto.
    + destruct (consume _ events _ _) as [[recs0 g0] fin0] eqn:E.
      inversion Hc; subst. eapply IH; eauto.
    + eapply IH; eauto.
Qed.

Lemma consume_collects_here session_id events acc g recs g' reqs rid :
  consume session_id events acc g = (recs, g', Exhausted reqs) ->
  rid ∈ reqs.*1 ->
  rid ∈ acc.*1 ∨ registered_here session_id rid g'.
Proof.
  revert acc g recs g' reqs.
  induction events as [|ev events IH]; intros acc g recs g' reqs Hc Hin; simpl in Hc.
  - inversion Hc; subst; auto.
  - destruct ev as [output|rid' req|event_data|executor_id|name].
    + inversion Hc.
    + destruct (consume _ events _ _) as [[recs0 g0] fin0] eqn:E.
      inversion Hc; subst.
      destruct (IH _ _ _ _ _ E Hin) as [Hacc|Hreg]; [|auto].
      rewrite fmap_app in Hacc. apply elem_of_app in Hacc as [Hacc|Hnew]; [auto|].
      right. simpl in Hnew. apply list_elem_of_singleton in Hnew as ->.
      eapply consume_registered_here; eauto.
      intros info. simpl. rewrite lookup_insert_eq. by intros [= <-].
    + destruct (consume _ events _ _) as [[recs0 g0] fin0] eqn:E.
      inversion Hc; subst. eapply IH; eauto.
    + destruct (consume _ events _ _) as [[recs0 g0] fin0] eqn:E.
      inversion Hc; subst. eapply IH; eauto.
    + eapply IH; eauto.
Qed.

(** X7. An answer that comes after the wait has run out is still accepted:
    the request stays registered after the timeout, so a later submission
    for it gets the success reply and is stored with the session, although
    the stream has ended and nothing will read it. *)
Theorem late_answer_is_accepted (fuel : nat) (session_id : string) (session : Session)
    (now : nat) (g : Globals) (reqs : list (string * ApprovalRequest))
    (d : ApprovalDecision) :
  workflow_sessions g !! session_id = Some session ->
  awaits_approval wf session_id session g reqs ->
  request_id d ∈ reqs.*1 ->
  ¬ answered posts now (request_id d) ->
  ∃ t, stream_workflow_events wf posts (S fuel) session_id now g = Ok (Some t)
       ∧ last (records t) = Some timeout_record
       ∧ (submit_approval d (final t)).1 = Ok (accepted d)
       ∧ stored_answers (submit_approval d (final t)).2 session_id !! request_id d
         = Some (response_of d).
Proof.
  intros Hsess Haw Hin Hun.
  unfold stream_workflow_events. rewrite Hsess.
  pose proof Haw as (w & stream & w' & recs & g1 & Hb & Hs & He & Hc & Hreqs).
  destruct (wait_always_times_out wf posts fuel session_id session now g reqs Haw)
    as (t & Ht & Hlast & _).
  exists t. split; [by rewrite Ht|]. split; [exact Hlast|].
  assert (Hsame : same_sessions g (final t)).
  { eapply (event_generator_inv (same_sessions g)); [| |apply same_sessions_refl|exact Ht].
    - intros d0 g0 Hg0. eapply same_sessions_trans; [exact Hg0|apply submit_approval_same].
    - intros events acc g0 recs0 g' fin Hc0 Hg0.
      eapply same_sessions_trans; [exact Hg0|by eapply consume_same]. }
  assert (Hreg : is_Some (pending_approvals (final t) !! request_id d)
                 ∧ registered_here session_id (request_id d) (final t)).
  { revert Ht. rewrite (generator_unfold wf posts _ _ _ _ _ _ Hb).
    cbn [run_loop]. erewrite turn_timed_out by eauto.
    pose proof (poll_keeps posts max_wait reqs ∅ None now g1 (request_id d)) as Hk.
    pose proof (poll_inv (registered_here session_id (request_id d))
                  max_wait reqs ∅ None now g1) as Hp.
    revert Hk Hp. generalize (poll posts max_wait reqs ∅ None now g1). intros p Hk Hp Ht.
    inversion Ht; subst t. simpl. split.
    - apply Hk.
      + intros k d0 Hk0 Hd0 Heq. apply Hun. exists k, d0. done.
      + destruct (consume_registers _ _ _ _ _ _ _ (request_id d) Hc Hin) as [Hacc|Hr]; [|done].
        simpl in Hacc. by apply elem_of_nil in Hacc.
    - apply Hp.
      + intros d0 g0. apply submit_approval_registered_here.
      + destruct (consume_collects_here _ _ _ _ _ _ _ (request_id d) Hc Hin) as [Hacc|Hr];
          [|done].
        simpl in Hacc. by apply elem_of_nil in Hacc. }
  destruct Hreg as [[info Hinfo] Hhere]. specialize (Hhere _ Hinfo).
  assert (Hsid : is_Some (workflow_sessions (final t) !! session_id)).
  { apply (same_sessions_is_Some g); [exact Hsame|eauto]. }
  destruct Hsid as [s Hsid].
  unfold submit_approval, stored_answers. rewrite Hinfo, Hhere, Hsid.
  cbn [fst snd]. split; [reflexivity|].
  cbn [workflow_sessions]. rewrite lookup_insert_eq.
  cbn [mbind option_bind pending_responses default].
  apply lookup_insert_eq.
Qed.

End Loop.

(** X8. Answers accumulate: two submissions for two registered requests of
    one session are both accepted, and the session then holds both answers
    next to those it had; the second submission does not reset the first. *)
Theorem answers_accumulate (d1 d2 : ApprovalDecision) (g : Globals)
    (session_id : string) (data1 data2 : list (string * value)) (session : Session) :
  pending_approvals g !! request_id d1
    = Some {| info_session_id := session_id; info_approval_data := data1 |} ->
  pending_approvals g !! request_id d2
    = Some {| info_session_id := session_id; info_approval_data := data2 |} ->
  request_id d1 ≠ request_id d2 ->
  workflow_sessions g !! session_id = Some session ->
  let first := submit_approval d1 g in
  let second := submit_approval d2 first.2 in
  first.1 = Ok (accepted d1)
  ∧ second.1 = Ok (accepted d2)
  ∧ stored_answers second.2 session_id
    = <[request_id d2 := response_of d2]>
        (<[request_id d1 := response_of d1]> (stored_answers g session_id))
  ∧ pending_approvals second.2
    = delete (request_id d2) (delete (request_id d1) (pending_approvals g)).
Proof.
  intros H1 H2 Hne Hs. cbv zeta.
  assert (E1 : submit_approval d1 g
               = (Ok (accepted d1),
                  {| workflow_sessions :=
                       <[session_id :=
                           {| status := status session;
                              session_document_uri := session_document_uri session;
                              created_at := created_at session;
                              pending_responses :=
                                Some (<[request_id d1 := response_of d1]>
                                        (default ∅ (pending_responses session))) |}]>
                         (workflow_sessions g);
                     pending_approvals := delete (request_id d1) (pending_approvals g) |})).
  { unfold submit_approval. rewrite H1. cbn [info_session_id]. rewrite Hs. reflexivity. }
  rewrite E1. cbn [fst snd].
  unfold submit_approval. cbn [pending_approvals workflow_sessions].
  rewrite lookup_delete_ne by done. rewrite H2. cbn [info_session_id].
  rewrite lookup_insert_eq. cbn [fst snd pending_responses default status
    session_document_uri created_at].
  split; [reflexivity|]. split; [reflexivity|]. split; [|reflexivity].
  unfold stored_answers. cbn [workflow_sessions]. rewrite lookup_insert_eq, Hs.
  reflexivity.
Qed.

Lemma approvals_stay_linked_witness :
  well_linked (submit_approval approve_uuid1 two_pending).2
  ∧ (submit_approval approve_uuid1 two_pending).1
    ≠ Raise (HTTPException 404 "Workflow session not found").
Proof.
  assert (Hl : well_linked two_pending).
  { intros rid info Hin. vm_compute in Hin.
    repeat case_match; simplify_eq; vm_compute; eauto. }
  exact (proj1 (proj2 (approvals_stay_linked (H := sample_runtime) (scripted ([], None))
                         no_posts two_pending Hl)) approve_uuid1).
Defined.

Lemma waiting_count_is_number_of_requests_witness :
  ∃ t before,
    event_generator (H := sample_runtime) (served (sample_agents compliant_text) empty_world)
      no_posts 1 "s1" session_s1 0 one_session = Some t
    ∧ records t = before ++ [waiting 1; timeout_record]
    ∧ count_type "approval_required" before = 1
    ∧ count_type "waiting_for_approval" before = 0.
Proof.
  apply (waiting_count_is_number_of_requests (H := sample_runtime)
           (served (sample_agents compliant_text) empty_world) no_posts 0
           "s1" session_s1 0 one_session [("uuid-1", sample_request)]).
  eexists _, _, _, _, _.
  split; [reflexivity|]. split; [vm_compute; reflexivity|].
  split; [reflexivity|]. split; [vm_compute; reflexivity|]. discriminate.
Defined.

Lemma late_answer_is_accepted_witness :
  ∃ t, stream_workflow_events (H := sample_runtime)
         (served (sample_agents compliant_text) empty_world) no_posts 1 "s1" 0 one_session
       = Ok (Some t)
       ∧ last (records t) = Some timeout_record
       ∧ (submit_approval approve_uuid1 (final t)).1 = Ok (accepted approve_uuid1)
       ∧ stored_answers (submit_approval approve_uuid1 (final t)).2 "s1" !! "uuid-1"
         = Some (response_of approve_uuid1).
Proof.
  apply (late_answer_is_accepted (H := sample_runtime)
           (served (sample_agents compliant_text) empty_world) no_posts 0
           "s1" session_s1 0 one_session [("uuid-1", sample_request)] approve_uuid1).
  - vm_compute. reflexivity.
  - eexists _, _, _, _, _.
    split; [reflexivity|]. split; [vm_compute; reflexivity|].
    split; [reflexivity|]. split; [vm_compute; reflexivity|]. discriminate.
  - by left.
  - intros (k & d & _ & Hd & _). by apply elem_of_nil in Hd.
Defined.

Lemma answers_accumulate_witness :
  stored_answers (submit_approval reject_uuid3 (submit_approval approve_uuid1 two_pending).2).2
    "s1"
  = <["uuid-3" := response_of reject_uuid3]>
      (<["uuid-1" := response_of approve_uuid1]> (stored_answers two_pending "s1")).
Proof.
  assert (H1 : pending_approvals two_pending !! "uuid-1"
               = Some {| info_session_id := "s1"; info_approval_data := [] |})
    by (vm_compute; reflexivity).
  assert (H3 : pending_approvals two_pending !! "uuid-3"
               = Some {| info_session_id := "s1"; info_approval_data := [] |})
    by (vm_compute; reflexivity).
  assert (Hs : workflow_sessions two_pending !! "s1" = Some session_s1)
    by (vm_compute; reflexivity).
  exact (proj1 (proj2 (proj2
    (answers_accumulate approve_uuid1 reject_uuid3 two_pending "s1" [] [] session_s1
       H1 H3 ltac:(discriminate) Hs)))).
Defined.

End TableFacts.

(** * Further properties of the coordinator and of failing runs ([workflow_small.py]) *)

Module CoordinatorFacts.
Import WorkflowSmall WorkflowApi RunTerms BridgeTerms ValueTerms Statements RunFacts BridgeFacts
  Samples MoreSamples.

Section Coordinator.
Context `{Runtime}.

Lemma or_truthy a b : truthy b = true -> truthy (or_ a b) = true.
Proof. intros Hb. unfold or_. by destruct (truthy a) eqn:Ha. Qed.

Lemma append_not_empty s c t : s +:+ String c t ≠ "".
Proof. by destruct s. Qed.

Lemma parse_input_truthy prev uri preview :
  parse_input prev = Ok (uri, preview) ->
  truthy uri = true ∧ truthy preview = true.
Proof.
  unfold parse_input.
  destruct (json_loads prev) as [data|]; [|done].
  destruct (get data "document_details" (VDict [])) as [details|]; simpl; [|done].
  destruct (get details "source_uri" VNone) as [source_uri|]; simpl; [|done].
  destruct (truthy source_uri) eqn:Hsrc; simpl.
  - destruct (get data "document_summary" (VDict [])) as [summary|]; simpl; [|done].
    destruct (get summary "text" VNone) as [text|]; simpl; [|done].
    destruct (len (or_ text (VStr ""))) as [n|]; simpl; [|done].
    destruct (Nat.ltb 240 n).
    + destruct (or_ text (VStr "")) as [| | | |s| |]; simpl; try done.
      * intros [= <- <-]. split; [done|]. simpl.
        destruct (String.eqb_spec (prefix 240 s +:+ "…") ""); [|done].
        by eapply append_not_empty in e.
      * by destruct slice_hashable.
    + simpl. intros [= <- <-]. split; [done|]. by apply or_truthy.
  - destruct (get data "source_doc_uri" VNone) as [source_doc_uri|]; simpl; [|done].
    destruct (get data "document_summary" (VDict [])) as [summary|]; simpl; [|done].
    destruct (get summary "text" VNone) as [text|]; simpl; [|done].
    destruct (len (or_ text (VStr ""))) as [n|]; simpl; [|done].
    destruct (Nat.ltb 240 n).
    + destruct (or_ text (VStr "")) as [| | | |s| |]; simpl; try done.
      * intros [= <- <-]. split; [by apply or_truthy|]. simpl.
        destruct (String.eqb_spec (prefix 240 s +:+ "…") ""); [|done].
        by eapply append_not_empty in e.
      * by destruct slice_hashable.
    + simpl. intros [= <- <-]. split; by apply or_truthy.
Qed.

(** X9. Whenever [prepare_request] gets as far as asking for approval, the
    request it sends has a preview that is not empty, and a source uri that
    is not empty unless the text it was given is empty. *)
Theorem request_preview_is_never_empty (prev : string) (w : World) (req : ApprovalRequest)
    (target : option string) :
  SendMessage (MsgApprovalRequest req) target ∈ effects (prepare_request prev w) ->
  truthy (req_preview req) = true
  ∧ (truthy (req_source_uri req) = true ∨ prev = "").
Proof.
  destruct (describe_input prev) as [[uri preview]|e] eqn:Hd.
  2:{ rewrite (prepare_request_raises _ _ _ Hd). simpl. intros Hin. by apply elem_of_nil in Hin. }
  rewrite (prepare_request_ok _ _ _ _ Hd). simpl.
  intros Hin. apply list_elem_of_singleton in Hin. inversion Hin; subst. simpl.
  revert Hd. unfold describe_input.
  destruct (parse_input prev) as [[uri0 preview0]|e] eqn:Hp.
  - intros [= <- <-]. destruct (parse_input_truthy _ _ _ Hp). auto.
  - assert (Hfb : Ok (VStr prev, VStr ("Testing HITL for document: " +:+ suffix 60 prev))
                  = Ok (uri, preview) ->
                  truthy preview = true ∧ (truthy uri = true ∨ prev = "")).
    { intros [= <- <-]. split; [done|]. simpl.
      destruct (String.eqb_spec prev ""); auto. }
    destruct e; try done.
Qed.

(** X10. A text that is valid JSON but no object breaks the coordinator:
    the fall-back that handles a text that is no JSON at all does not apply,
    [prepare_request] raises [AttributeError], caches nothing and sends no
    request. *)
Theorem non_object_input_breaks_prepare_request (prev : string) (v : value) (w : World) :
  json_loads prev = Some v ->
  not_object v ->
  prepare_request prev w
  = {| effects := [];
       world := {| APPROVAL_CONTEXT := APPROVAL_CONTEXT w; uuid_drawn := S (uuid_drawn w) |};
       result := Raise (AttributeError "get") |}.
Proof.
  intros Hv Hno. apply prepare_request_raises.
  unfold describe_input, parse_input. rewrite Hv.
  destruct v; try reflexivity. by destruct (Hno items).
Qed.

(** X11. An approval cycle leaves the cache as it found it. After
    [prepare_request] cached the payload under a fresh approval id, the
    answer that carries this id finds the cached record, removes it, and
    forwards the payload when it approves and the payload is not empty, the
    rejection notice otherwise. *)
Theorem approval_cycle_restores_the_cache (prev : string) (w : World) (uri preview : value)
    (decision : bool) (comment : option string) (request_id : string) :
  describe_input prev = Ok (uri, preview) ->
  APPROVAL_CONTEXT w !! uuid4 (uuid_drawn w) = None ->
  let asked := prepare_request prev w in
  let answer := {| resp_approval_id := uuid4 (uuid_drawn w); resp_approved := decision;
                   resp_comment := comment |} in
  let feedback := {| rr_data := answer;
                     rr_original_request := request_for (uuid4 (uuid_drawn w)) uri preview;
                     rr_request_id := request_id |} in
  let answered := handle_response feedback (world asked) in
  APPROVAL_CONTEXT (world asked) !! uuid4 (uuid_drawn w) = Some (context_for prev uri preview)
  ∧ APPROVAL_CONTEXT (world answered) = APPROVAL_CONTEXT w
  ∧ effects answered
    = [AddEvent (hitl_event answer);
       SendMessage (if decision && negb (String.eqb prev "") then MsgValue (VStr prev)
                    else rejection_message comment) None].
Proof.
  intros Hd Hfresh. cbv zeta.
  rewrite (prepare_request_ok _ _ _ _ Hd). cbn [world].
  rewrite handle_response_ok. cbn [world effects APPROVAL_CONTEXT rr_data resp_approval_id].
  split; [apply lookup_insert_eq|].
  split; [by apply delete_insert_id|].
  unfold forwarded. cbn [APPROVAL_CONTEXT resp_approval_id resp_approved resp_comment].
  rewrite lookup_insert_eq. cbn.
  by destruct decision, (String.eqb prev "").
Qed.

End Coordinator.

Section Served.
Context `{Runtime}.
Variable agents : Agents.
Variable w0 : World.
Variable posts : nat -> list ApprovalDecision.

Arguments run_passes : simpl never.

Lemma run_stream_extractor_fails doc st e :
  run_extractor_20_agent agents (prompt_text doc) = Raise e ->
  (run_stream (workflow_small agents) doc st).1
  = ([ExecutorCompletedEvent "doc_prompt"], Some e).
Proof.
  intros Hex.
  unfold run_stream. cbn [max_iterations workflow_small start_executor].
  rewrite run_passes_S. cbn -[prompt_text describe_input].
  rewrite run_passes_S. cbn -[prompt_text describe_input].
  unfold extractor_node, mbind, handler_bind, lift. rewrite Hex. reflexivity.
Qed.

Lemma run_stream_compliance_fails doc st ex e :
  run_extractor_20_agent agents (prompt_text doc) = Ok ex ->
  run_compliance_20_agent agents ex = Raise e ->
  (run_stream (workflow_small agents) doc st).1
  = ([ExecutorCompletedEvent "doc_prompt";
      WorkflowEvent (progress "extraction" "running");
      ExecutorCompletedEvent "extractor_node";
      WorkflowEvent (progress "extraction" "completed");
      ExecutorCompletedEvent "extractor_result_node";
      WorkflowEvent (progress "compliance" "running")], Some e).
Proof.
  intros Hex Hc.
  unfold run_stream. cbn [max_iterations workflow_small start_executor].
  rewrite run_passes_S. cbn -[prompt_text describe_input].
  rewrite run_passes_S. cbn -[prompt_text describe_input].
  rewrite (extractor_node_ok _ _ _ _ Hex). cbn -[prompt_text describe_input].
  rewrite run_passes_S. cbn -[prompt_text describe_input].
  rewrite extractor_result_ok. cbn -[prompt_text describe_input].
  rewrite run_passes_S. cbn -[prompt_text describe_input].
  unfold compliance_node, mbind, handler_bind, lift. simpl. rewrite Hc. reflexivity.
Qed.

Lemma run_stream_coordinator_fails doc st ex c e :
  run_extractor_20_agent agents (prompt_text doc) = Ok ex ->
  run_compliance_20_agent agents ex = Ok c ->
  describe_input c = Raise e ->
  (run_stream (workflow_small agents) doc st).1
  = ([ExecutorCompletedEvent "doc_prompt";
      WorkflowEvent (progress "extraction" "running");
      ExecutorCompletedEvent "extractor_node";
      WorkflowEvent (progress "extraction" "completed");
      ExecutorCompletedEvent "extractor_result_node";
      WorkflowEvent (progress "compliance" "running");
      ExecutorCompletedEvent "compliance_node";
      WorkflowEvent (progress "compliance" "completed");
      ExecutorCompletedEvent "compliance_result_node"], Some e).
Proof.
  intros Hex Hc Hd.
  unfold run_stream. cbn [max_iterations workflow_small start_executor].
  rewrite run_passes_S. cbn -[prompt_text describe_input].
  rewrite run_passes_S. cbn -[prompt_text describe_input].
  rewrite (extractor_node_ok _ _ _ _ Hex). cbn -[prompt_text describe_input].
  rewrite run_passes_S. cbn -[prompt_text describe_input].
  rewrite extractor_result_ok. cbn -[prompt_text describe_input].
  rewrite run_passes_S. cbn -[prompt_text describe_input].
  rewrite (compliance_node_ok _ _ _ _ Hc). cbn -[prompt_text describe_input].
  rewrite run_passes_S. cbn -[prompt_text describe_input].
  rewrite compliance_result_ok. cbn -[prompt_text describe_input].
  rewrite run_passes_S. cbn -[prompt_text describe_input].
  rewrite (prepare_request_raises _ _ _ Hd). reflexivity.
Qed.

(** The trace of a served session whose first stream fails. *)
Lemma failed_session_trace fuel session_id session now g evs e reqs recs g1 :
  (run_stream (workflow_small agents) (doc_of session)
     {| pending := []; outstanding := ∅; iteration := 0; globals := w0 |}).1
  = (evs, Some e) ->
  consume session_id evs [] g = (recs, g1, Exhausted reqs) ->
  event_generator (served agents w0) posts (S fuel) session_id session now g
  = Some {| records := [connected session_id; started session_id session]
                       ++ recs ++ [error_record e];
            final := g1; calls := [RunStream (doc_of session)]; replies := [] |}.
Proof.
  intros Hs Hc.
  rewrite (generator_unfold (served agents w0) posts (S fuel) session_id session now g
             {| pending := []; outstanding := ∅; iteration := 0; globals := w0 |} eq_refl).
  cbn [run_loop].
  destruct (run_stream (workflow_small agents) (doc_of session)
              {| pending := []; outstanding := ∅; iteration := 0; globals := w0 |})
    as [stream st'] eqn:Hrs.
  simpl in Hs. subst stream.
  rewrite (turn_raised (served agents w0) posts session_id (doc_of session)
             _ now g _ _ _ _ _ e Hrs Hc eq_refl).
  reflexivity.
Qed.

(** X12. When the extractor fails, the stream of the session shows no
    progress record at all: the first one, extraction running, is emitted
    only after the extractor has returned. The stream ends with the error
    record of the failure, and the tables are as before. *)
Theorem extractor_failure_shows_no_progress (fuel : nat) (session_id : string)
    (session : Session) (now : nat) (g : Globals) (e : exn) :
  run_extractor_20_agent agents (prompt_text (doc_of session)) = Raise e ->
  ∃ t, event_generator (served agents w0) posts (S fuel) session_id session now g = Some t
       ∧ records t = [connected session_id; started session_id session]
                     ++ completed_records "doc_prompt" ++ [error_record e]
       ∧ count_type "progress" (records t) = 0
       ∧ final t = g.
Proof.
  intros Hex.
  pose proof (run_stream_extractor_fails (doc_of session)
                {| pending := []; outstanding := ∅; iteration := 0; globals := w0 |} e Hex) as Hs.
  erewrite failed_session_trace; [|exact Hs|reflexivity].
  eexists. split; [reflexivity|]. cbn [records final]. rewrite app_nil_r.
  split; [reflexivity|]. split; [|reflexivity].
  unfold completed_records. by destruct executor_event_is_workflow_event.
Qed.

(** X13. When the compliance evaluator fails, the stream of the session
    reports the extraction as running and completed and the compliance
    check as running, then ends with the error record of the failure: the
    check is never reported completed and no approval is asked for. *)
Theorem compliance_failure_ends_the_stream (fuel : nat) (session_id : string)
    (session : Session) (now : nat) (g : Globals) (ex : string) (e : exn) :
  run_extractor_20_agent agents (prompt_text (doc_of session)) = Ok ex ->
  run_compliance_20_agent agents ex = Raise e ->
  ∃ t, event_generator (served agents w0) posts (S fuel) session_id session now g = Some t
       ∧ List.filter (fun r => negb (has_type "executor_completed" r)) (records t)
         = [connected session_id; started session_id session;
            progress_record "extraction" "running";
            progress_record "extraction" "completed";
            progress_record "compliance" "running";
            error_record e]
       ∧ final t = g.
Proof.
  intros Hex Hc.
  pose proof (run_stream_compliance_fails (doc_of session)
                {| pending := []; outstanding := ∅; iteration := 0; globals := w0 |}
                ex e Hex Hc) as Hs.
  erewrite failed_session_trace; [|exact Hs|reflexivity].
  eexists. split; [reflexivity|]. cbn [records final].
  split; [|reflexivity].
  unfold completed_records. by destruct executor_event_is_workflow_event.
Qed.

(** X14. When the coordinator fails on the verdict, as it does on a verdict
    that is valid JSON but no object, the stream of the session reports
    both phases completed and then ends with the error record: no approval
    is asked for and nothing is registered. *)
Theorem coordinator_failure_ends_the_stream (fuel : nat) (session_id : string)
    (session : Session) (now : nat) (g : Globals) (ex c : string) (e : exn) :
  run_extractor_20_agent agents (prompt_text (doc_of session)) = Ok ex ->
  run_compliance_20_agent agents ex = Ok c ->
  describe_input c = Raise e ->
  ∃ t, event_generator (served agents w0) posts (S fuel) session_id session now g = Some t
       ∧ List.filter (fun r => negb (has_type "executor_completed" r)) (records t)
         = [connected session_id; started session_id session;
            progress_record "extraction" "running";
            progress_record "extraction" "completed";
            progress_record "compliance" "running";
            progress_record "compliance" "completed";
            error_record e]
       ∧ final t = g.
Proof.
  intros Hex Hc Hd.
  pose proof (run_stream_coordinator_fails (doc_of session)
                {| pending := []; outstanding := ∅; iteration := 0; globals := w0 |}
                ex c e Hex Hc Hd) as Hs.
  erewrite failed_session_trace; [|exact Hs|reflexivity].
  eexists. split; [reflexivity|]. cbn [records final].
  split; [|reflexivity].
  unfold completed_records. by destruct executor_event_is_workflow_event.
Qed.

End Served.

Lemma request_preview_is_never_empty_witness :
  truthy (req_preview sample_request) = true
  ∧ (truthy (req_source_uri sample_request) = true ∨ compliant_text = "").
Proof.
  apply (request_preview_is_never_empty (H := sample_runtime) compliant_text empty_world
           sample_request (Some "human_review_exec")).
  vm_compute. left.
Defined.

Lemma non_object_input_breaks_prepare_request_witness :
  prepare_request (H := review_runtime) list_text empty_world
  = {| effects := [];
       world := {| APPROVAL_CONTEXT := ∅; uuid_drawn := 1 |};
       result := Raise (AttributeError "get") |}.
Proof.
  apply (non_object_input_breaks_prepare_request (H := review_runtime)
           list_text (VList []) empty_world); [reflexivity|].
  intros items. discriminate.
Defined.

Lemma approval_cycle_restores_the_cache_witness :
  APPROVAL_CONTEXT
    (world (handle_response (H := sample_runtime) (feedback_of approve_first) one_cached))
  = APPROVAL_CONTEXT empty_world.
Proof.
  exact (proj1 (proj2
    (approval_cycle_restores_the_cache (H := sample_runtime) compliant_text empty_world
       (VStr "n/a") (VStr "No preview") true None "uuid-1" eq_refl eq_refl))).
Defined.

Lemma extractor_failure_shows_no_progress_witness :
  ∃ t, event_generator (H := sample_runtime) (served extractor_down empty_world)
         no_posts 1 "s1" session_s1 0 one_session = Some t
       ∧ records t = [connected "s1"; started "s1" session_s1]
                     ++ completed_records (H := sample_runtime) "doc_prompt"
                     ++ [error_record (StepFailure "extractor unavailable")]
       ∧ count_type "progress" (records t) = 0
       ∧ final t = one_session.
Proof.
  apply (extractor_failure_shows_no_progress (H := sample_runtime) extractor_down
           empty_world no_posts 0 "s1" session_s1 0 one_session
           (StepFailure "extractor unavailable")).
  reflexivity.
Defined.

Lemma compliance_failure_ends_the_stream_witness :
  ∃ t, event_generator (H := sample_runtime) (served compliance_down empty_world)
         no_posts 1 "s1" session_s1 0 one_session = Some t
       ∧ List.filter (fun r => negb (has_type "executor_completed" r)) (records t)
         = [connected "s1"; started "s1" session_s1;
            progress_record "extraction" "running";
            progress_record "extraction" "completed";
            progress_record "compliance" "running";
            error_record (StepFailure "compliance unavailable")]
       ∧ final t = one_session.
Proof.
  apply (compliance_failure_ends_the_stream (H := sample_runtime) compliance_down
           empty_world no_posts 0 "s1" session_s1 0 one_session "extracted fields"
           (StepFailure "compliance unavailable")); reflexivity.
Defined.

Lemma coordinator_failure_ends_the_stream_witness :
  ∃ t, event_generator (H := review_runtime)
         (served (H := review_runtime) (sample_agents list_text) empty_world)
         no_posts 1 "s1" session_s1 0 one_session = Some t
       ∧ List.filter (fun r => negb (has_type "executor_completed" r)) (records t)
         = [connected "s1"; started "s1" session_s1;
            progress_record "extraction" "running";
            progress_record "extraction" "completed";
            progress_record "compliance" "running";
            progress_record "compliance" "completed";
            error_record (AttributeError "get")]
       ∧ final t = one_session.
Proof.
  apply (coordinator_failure_ends_the_stream (H := review_runtime) (sample_agents list_text)
           empty_world no_posts 0 "s1" session_s1 0 one_session "extracted fields"
           list_text (AttributeError "get")); reflexivity.
Defined.

End CoordinatorFacts.

(** * Further properties of the compliance adapter ([workflow_one.py]) *)

Module AdapterFacts.
Import WorkflowOne ValueTerms AdapterTerms Statements Samples MoreSamples.

Lemma items_get_set_eq k v items : items_get k (items_set k v items) = Some v.
Proof.
  induction items as [|[k' v'] items IH]; simpl.
  - by rewrite String.eqb_refl.
  - destruct (String.eqb_spec k k') as [->|Hne]; simpl.
    + by rewrite String.eqb_refl.
    + destruct (String.eqb_spec k k'); [done|]. exact IH.
Qed.

Lemma items_get_set_ne k k' v items :
  k ≠ k' -> items_get k' (items_set k v items) = items_get k' items.
Proof.
  intros Hne. induction items as [|[k0 v0] items IH]; simpl.
  - destruct (String.eqb_spec k' k); [by subst|done].
  - destruct (String.eqb_spec k k0) as [->|Hne0]; simpl.
    + destruct (String.eqb_spec k' k0); [by subst|done].
    + destruct (String.eqb_spec k' k0); [done|exact IH].
Qed.

Lemma items_get_setdefault k k' v items :
  items_get k' (items_setdefault k v items)
  = if String.eqb k' k then Some (default v (items_get k items)) else items_get k' items.
Proof.
  unfold items_setdefault, items_mem.
  destruct (String.eqb_spec k' k) as [->|Hne].
  - destruct (items_get k items) eqn:Hk; [by rewrite Hk|]. apply items_get_set_eq.
  - destruct (items_get k items) eqn:Hk; [done|]. by apply items_get_set_ne.
Qed.

Section Adapter.
Context `{Runtime}.

Lemma parse_object text items :
  json_loads (text_or_braces text) = Some (VDict items) ->
  _parse_compliance_json text = VDict (with_defaults items).
Proof.
  intros Hj. unfold _parse_compliance_json, parse_body.
  fold (text_or_braces text). rewrite Hj. reflexivity.
Qed.

Lemma parse_fallback text :
  (∀ items, json_loads (text_or_braces text) ≠ Some (VDict items)) ->
  _parse_compliance_json text = forced_review text.
Proof.
  intros Hj. unfold _parse_compliance_json, parse_body.
  fold (text_or_braces text).
  destruct (json_loads (text_or_braces text)) as [v|]; [|reflexivity].
  destruct v; try reflexivity. by destruct (Hj items).
Qed.

Lemma with_defaults_get k items :
  items_get k (with_defaults items)
  = if String.eqb k "needs_human_review"
    then Some (default (VBool false) (items_get "needs_human_review" items))
    else if String.eqb k "compliance"
         then Some (default (VDict []) (items_get "compliance" items))
         else items_get k items.
Proof.
  unfold with_defaults. rewrite items_get_setdefault.
  unfold items_mem.
  destruct (String.eqb_spec k "needs_human_review") as [->|Hn].
  - destruct (items_get "compliance" items) eqn:Hc; [done|].
    by rewrite items_get_set_ne.
  - destruct (String.eqb_spec k "compliance") as [->|Hc].
    + destruct (items_get "compliance" items) eqn:Hc; [by rewrite Hc|].
      apply items_get_set_eq.
    + destruct (items_get "compliance" items) eqn:Hc'; [done|].
      by rewrite items_get_set_ne.
Qed.

(** X15. Whatever the text, [_parse_compliance_json] returns an object that
    has the two keys the adapter reads, [compliance] and
    [needs_human_review]. *)
Theorem parser_always_returns_both_keys (text : string) :
  ∃ items, _parse_compliance_json text = VDict items
           ∧ items_mem "compliance" items = true
           ∧ items_mem "needs_human_review" items = true.
Proof.
  unfold _parse_compliance_json, parse_body. fold (text_or_braces text).
  destruct (json_loads (text_or_braces text)) as [v|]; [|by eexists].
  destruct v; try (by eexists).
  fold (with_defaults items). eexists. split; [reflexivity|].
  unfold items_mem. rewrite !with_defaults_get. done.
Qed.

(** X16. On a text that is a JSON object the parser only fills in what is
    missing: every key of the object keeps its value, [compliance] is added
    as an empty object and [needs_human_review] as false when the object
    lacks them, and no other key appears. *)
Theorem parser_only_adds_defaults (text : string) (items : list (string * value)) :
  json_loads (text_or_braces text) = Some (VDict items) ->
  ∃ out, _parse_compliance_json text = VDict out
         ∧ (∀ k v, items_get k items = Some v -> items_get k out = Some v)
         ∧ (items_get "compliance" items = None ->
            items_get "compliance" out = Some (VDict []))
         ∧ (items_get "needs_human_review" items = None ->
            items_get "needs_human_review" out = Some (VBool false))
         ∧ (∀ k, k ≠ "compliance" -> k ≠ "needs_human_review" ->
                 items_get k out = items_get k items).
Proof.
  intros Hj. exists (with_defaults items). split; [by apply parse_object|].
  split; [|split; [|split]].
  - intros k v Hk. rewrite with_defaults_get.
    destruct (String.eqb_spec k "needs_human_review") as [->|_]; [by rewrite Hk|].
    destruct (String.eqb_spec k "compliance") as [->|_]; [by rewrite Hk|]. exact Hk.
  - intros Hn. rewrite with_defaults_get. simpl. by rewrite Hn.
  - intros Hn. rewrite with_defaults_get. simpl. by rewrite Hn.
  - intros k Hc Hn. rewrite with_defaults_get.
    destruct (String.eqb_spec k "needs_human_review"); [done|].
    by destruct (String.eqb_spec k "compliance").
Qed.

Lemma auto_passed_snoc ctx a b :
  auto_passed (call_send_message a b ctx)
  = auto_passed ctx || match a with VStr s => String.eqb s "save_results" | _ => false end.
Proof.
  unfold auto_passed, call_send_message. simpl.
  rewrite existsb_app. simpl. by rewrite orb_false_r.
Qed.

Lemma auto_passed_set_state ctx k v : auto_passed (set_state k v ctx) = auto_passed ctx.
Proof. reflexivity. Qed.

Lemma get_compliance items :
  get (VDict (with_defaults items)) "compliance" (VDict [])
  = Ok (default (VDict []) (items_get "compliance" items)).
Proof. unfold get. by rewrite with_defaults_get. Qed.

Lemma get_needs_human_review items :
  get (VDict (with_defaults items)) "needs_human_review" (VBool false)
  = Ok (default (VBool false) (items_get "needs_human_review" items)).
Proof. unfold get. by rewrite with_defaults_get. Qed.

(** The two flags the adapter computes on an object. *)
Lemma on_compliance_object text ctx items c :
  json_loads (text_or_braces (str_or text "")) = Some (VDict items) ->
  default (VDict []) (items_get "compliance" items) = VDict c ->
  let ctx1 := set_state "compliance_text" (VStr (str_or text "")) ctx in
  let is_ok := truthy (default (VBool false) (items_get "is_compliant" c)) in
  let needs_human := truthy (default (VBool false) (items_get "needs_human_review" items)) in
  let notes := default (VList []) (items_get "notes" c) in
  let notes_text :=
    match notes with
    | VList xs => String.concat "; " (map py_str xs)
    | _ => py_str notes
    end in
  on_compliance text ctx
  = if is_ok && negb needs_human
    then (call_send_message (VStr "save_results")
            (ArgValue (VDict [("approved", VBool true); ("auto", VBool true);
                              ("compliance", VDict (with_defaults items))])) ctx1, Ok tt)
    else (call_send_message (VStr "human_review_exec")
            (ArgPacket (review_packet ctx1
               (if String.eqb notes_text "" then "(no notes)" else notes_text))) ctx1, Ok tt).
Proof.
  intros Hj Hc. cbv zeta. unfold on_compliance.
  rewrite (parse_object _ _ Hj). cbv zeta.
  rewrite !get_compliance, get_needs_human_review, Hc.
  cbn [get mbind result_bind].
  destruct (truthy (default (VBool false) (items_get "is_compliant" c))
            && negb (truthy (default (VBool false) (items_get "needs_human_review" items))));
    reflexivity.
Qed.

Lemma on_compliance_fallback text ctx :
  (∀ items, json_loads (text_or_braces (str_or text "")) ≠ Some (VDict items)) ->
  let ctx1 := set_state "compliance_text" (VStr (str_or text "")) ctx in
  on_compliance text ctx
  = (call_send_message (VStr "human_review_exec")
       (ArgPacket (review_packet ctx1
          (if String.eqb (str_or text "") "" then "(no notes)"
           else str_or text ""))) ctx1, Ok tt).
Proof.
  intros Hj. cbv zeta. unfold on_compliance. rewrite (parse_fallback _ Hj). reflexivity.
Qed.

(** X17. The adapter takes the auto-pass branch exactly when the text is a
    JSON object whose [compliance] entry is an object with a truthy
    [is_compliant] and whose [needs_human_review] entry is missing or
    falsy. Truthiness is Python's: a string that is not empty counts as
    compliant, whatever it says. *)
Theorem auto_pass_condition (text : option string) (ctx : Context) :
  auto_passed ctx = false ->
  auto_passed (on_compliance text ctx).1 = true
  ↔ ∃ items c,
      json_loads (text_or_braces (str_or text "")) = Some (VDict items)
      ∧ items_get "compliance" items = Some (VDict c)
      ∧ truthy (default (VBool false) (items_get "is_compliant" c)) = true
      ∧ truthy (default (VBool false) (items_get "needs_human_review" items)) = false.
Proof.
  intros Hctx.
  destruct (json_loads (text_or_braces (str_or text ""))) as [v|] eqn:Hj.
  2:{ split; [|by intros (? & ? & ? & _)].
      rewrite on_compliance_fallback by (rewrite Hj; done).
      cbn [fst]. rewrite auto_passed_snoc, auto_passed_set_state, Hctx. done. }
  destruct v as [| | | | | |items];
    try (split; [|by intros (? & ? & ? & _)];
         rewrite on_compliance_fallback by (rewrite Hj; done);
         cbn [fst]; rewrite auto_passed_snoc, auto_passed_set_state, Hctx; done).
  destruct (items_get "compliance" items) as [cv|] eqn:Hc.
  - assert (Hbad : not_object cv -> auto_passed (on_compliance text ctx).1 = false).
    { intros Hno. unfold on_compliance. rewrite (parse_object _ _ Hj). cbv zeta.
      rewrite !get_compliance, Hc. cbn [default].
      destruct cv as [| | | | | |c0];
        try (cbn [id get mbind result_bind fst]; by rewrite auto_passed_set_state).
      by destruct (Hno c0). }
    destruct cv as [| | | | | |c];
      try (rewrite Hbad by done; split; [done|];
           intros (items' & c' & [= <-] & Hc' & _); rewrite Hc in Hc'; discriminate).
    rewrite (on_compliance_object text ctx items c Hj) by (by rewrite Hc).
    destruct (truthy (default (VBool false) (items_get "is_compliant" c))) eqn:Hok;
      destruct (truthy (default (VBool false) (items_get "needs_human_review" items))) eqn:Hnh;
      cbn [andb negb fst]; rewrite auto_passed_snoc, auto_passed_set_state, Hctx;
      cbn [orb String.eqb Ascii.eqb Bool.eqb].
    + split; [done|]. intros (items' & c' & [= <-] & Hc' & Ht & Hn).
      rewrite Hc in Hc'. injection Hc' as <-. congruence.
    + split; [|done]. intros _. exists items, c. done.
    + split; [done|]. intros (items' & c' & [= <-] & Hc' & Ht & Hn).
      rewrite Hc in Hc'. injection Hc' as <-. congruence.
    + split; [done|]. intros (items' & c' & [= <-] & Hc' & Ht & Hn).
      rewrite Hc in Hc'. injection Hc' as <-. congruence.
  - split; [|intros (items' & c' & [= <-] & Hc' & _); congruence].
    rewrite (on_compliance_object text ctx items [] Hj) by (by rewrite Hc).
    cbn [items_get default truthy andb fst].
    rewrite auto_passed_snoc, auto_passed_set_state, Hctx. done.
Qed.

(** X18. A JSON object whose [compliance] entry is no object breaks the
    adapter: it raises [AttributeError] after recording the text in the
    state, and sends nothing. *)
Theorem non_object_compliance_breaks_the_adapter (text : option string) (ctx : Context)
    (items : list (string * value)) (v : value) :
  json_loads (text_or_braces (str_or text "")) = Some (VDict items) ->
  items_get "compliance" items = Some v ->
  not_object v ->
  on_compliance text ctx
  = (set_state "compliance_text" (VStr (str_or text "")) ctx, Raise (AttributeError "get")).
Proof.
  intros Hj Hc Hno. unfold on_compliance. rewrite (parse_object _ _ Hj). cbv zeta.
  rewrite !get_compliance, Hc. cbn [default].
  destruct v; try reflexivity. by destruct (Hno items0).
Qed.

Lemma substring_length_le n s : String.length (String.substring 0 n s) <= n.
Proof.
  revert s. induction n as [|n IH]; intros s.
  - destruct s; simpl; lia.
  - destruct s as [|c s]; simpl; [lia|]. specialize (IH s). lia.
Qed.

(** X19. A call of the adapter records the text under [compliance_text]
    and changes nothing else in the state. When it returns it has sent
    exactly one message: the verdict to the sink, or a packet to the review
    step whose summary has at most 1000 characters and whose notes are not
    empty. When it raises it has sent nothing. *)
Theorem adapter_sends_exactly_once (text : option string) (ctx : Context) :
  let out := on_compliance text ctx in
  state out.1 = <["compliance_text" := VStr (str_or text "")]> (state ctx)
  ∧ match out.2 with
    | Ok _ => sent_once ctx out.1
    | Raise _ => sent out.1 = sent ctx
    end.
Proof.
  cbv zeta. unfold on_compliance.
  generalize (_parse_compliance_json (str_or text "")). intros comp.
  destruct (get comp "compliance" (VDict [])) as [compliance|]; cbn [mbind result_bind];
    [|done].
  destruct (get compliance "is_compliant" (VBool false)) as [is_compliant|];
    cbn [mbind result_bind]; [|done].
  destruct (get comp "needs_human_review" (VBool false)) as [needs|];
    cbn [mbind result_bind]; [|done].
  destruct (truthy is_compliant && negb (truthy needs)).
  - split; [done|]. cbn. eexists _, _. split; [reflexivity|]. left. eauto.
  - destruct (get compliance "notes" (VList [])) as [notes|]; [|done].
    split; [done|]. cbn [fst snd]. eexists _, _. split; [reflexivity|]. right.
    split; [done|]. eexists. split; [reflexivity|]. cbn [hr_summary hr_compliance_notes].
    split; [apply substring_length_le|].
    match goal with |- (if String.eqb ?n "" then _ else _) ≠ _ =>
      destruct (String.eqb_spec n ""); done end.
Qed.

(** X20. When the parser falls back, on a text that is not empty and is
    either no JSON or JSON that is no object, the review step receives the
    raw text as the compliance notes: the adapter sends it one packet that
    carries the text. *)
Theorem fallback_packet_carries_the_raw_text (text : string) (ctx : Context) :
  text ≠ "" ->
  (∀ items, json_loads text ≠ Some (VDict items)) ->
  on_compliance (Some text) ctx
  = ({| state := <["compliance_text" := VStr text]> (state ctx);
        sent := sent ctx
                ++ [(VStr "human_review_exec",
                     ArgPacket
                       {| hr_document_uri :=
                            py_str (default (VStr "") (state ctx !! "document_uri"));
                          hr_summary :=
                            prefix 1000
                              (py_str (default (VStr "") (state ctx !! "extractor_text")));
                          hr_compliance_notes := text;
                          hr_prompt := "Approve or Reject? (type 'approve' / 'reject')" |})] |},
     Ok tt).
Proof.
  intros Hne Hj.
  assert (Hs : str_or (Some text) "" = text).
  { unfold str_or. destruct (String.eqb_spec text ""); done. }
  assert (Ht : text_or_braces text = text).
  { unfold text_or_braces. destruct (String.eqb_spec text ""); done. }
  rewrite on_compliance_fallback by (by rewrite Hs, Ht).
  rewrite Hs. unfold call_send_message, review_packet, set_state. cbn [state sent].
  rewrite !lookup_insert_ne by done.
  destruct (String.eqb_spec text ""); done.
Qed.

End Adapter.

Lemma parser_only_adds_defaults_witness :
  ∃ out, _parse_compliance_json (H := sample_runtime) compliant_text = VDict out
         ∧ (∀ k v, items_get k [("overall_status", VStr "compliant")] = Some v ->
                   items_get k out = Some v)
         ∧ (items_get "compliance" [("overall_status", VStr "compliant")] = None ->
            items_get "compliance" out = Some (VDict []))
         ∧ (items_get "needs_human_review" [("overall_status", VStr "compliant")] = None ->
            items_get "needs_human_review" out = Some (VBool false))
         ∧ (∀ k, k ≠ "compliance" -> k ≠ "needs_human_review" ->
                 items_get k out = items_get k [("overall_status", VStr "compliant")]).
Proof.
  apply (parser_only_adds_defaults (H := sample_runtime) compliant_text
           [("overall_status", VStr "compliant")]).
  vm_compute. reflexivity.
Defined.

Lemma auto_pass_condition_witness :
  auto_passed (on_compliance (H := review_runtime) (Some string_flag_text) empty_context).1
  = true.
Proof.
  apply (auto_pass_condition (H := review_runtime) (Some string_flag_text) empty_context
           eq_refl).
  exists [("compliance", VDict [("is_compliant", VStr "no")])], [("is_compliant", VStr "no")].
  split; [vm_compute; reflexivity|]. split; [reflexivity|]. split; reflexivity.
Defined.

Lemma non_object_compliance_breaks_the_adapter_witness :
  on_compliance (H := review_runtime) (Some bare_compliance_text) empty_context
  = (set_state "compliance_text" (VStr bare_compliance_text) empty_context,
     Raise (AttributeError "get")).
Proof.
  apply (non_object_compliance_breaks_the_adapter (H := review_runtime)
           (Some bare_compliance_text) empty_context
           [("compliance", VStr "ok")] (VStr "ok")).
  - vm_compute. reflexivity.
  - reflexivity.
  - intros items. discriminate.
Defined.

Lemma fallback_packet_carries_the_raw_text_witness :
  ∃ uri summary,
    on_compliance (H := sample_runtime) (Some "not json") empty_context
    = ({| state := <["compliance_text" := VStr "not json"]> ∅;
          sent := [(VStr "human_review_exec",
                    ArgPacket {| hr_document_uri := uri;
                                 hr_summary := summary;
                                 hr_compliance_notes := "not json";
                                 hr_prompt := "Approve or Reject? (type 'approve' / 'reject')" |})] |},
       Ok tt).
Proof.
  eexists _, _.
  apply (fallback_packet_carries_the_raw_text (H := sample_runtime) "not json" empty_context).
  - discriminate.
  - intros items. discriminate.
Defined.

End AdapterFacts.

(** * The console driver ([main.py]) *)

Module ConsoleFacts.
Import WorkflowSmall WorkflowApi Main RunTerms BridgeTerms Statements RunFacts Samples
  MoreSamples ConsoleTerms.

Section Ask.
Variable console : Console.

Lemma ask_lines reqs line acc :
  (ask console reqs line acc).2 = line + 2 * length reqs.
Proof.
  revert line acc. induction reqs as [|[rid req] reqs IH]; intros line acc; simpl; [lia|].
  rewrite IH. lia.
Qed.

Lemma ask_keys reqs line acc rid :
  is_Some ((ask console reqs line acc).1 !! rid) ↔ rid ∈ reqs.*1 ∨ is_Some (acc !! rid).
Proof.
  revert line acc. induction reqs as [|[rid' req] reqs IH]; intros line acc; simpl.
  - split; [auto|]. intros [Hin|]; [|done]. by apply elem_of_nil in Hin.
  - rewrite IH. rewrite elem_of_cons.
    destruct (decide (rid = rid')) as [->|Hne].
    + rewrite lookup_insert_eq. split; [auto|]. intros _. right. eauto.
    + rewrite lookup_insert_ne by done. tauto.
Qed.

Lemma ask_values reqs line acc rid resp :
  (ask console reqs line acc).1 !! rid = Some resp ->
  (∃ req, (rid, req) ∈ reqs ∧ resp_approval_id resp = req_approval_id req)
  ∨ acc !! rid = Some resp.
Proof.
  revert line acc. induction reqs as [|[rid' req] reqs IH]; intros line acc; simpl.
  - auto.
  - intros Hl. destruct (IH _ _ Hl) as [(req0 & Hin & Hid)|Hacc].
    + left. exists req0. split; [by right|done].
    + apply lookup_insert_Some in Hacc as [[<- <-]|[_ Hacc]]; [|auto].
      left. exists req. split; [by left|done].
Qed.

(** X21. The batch of answers that [run_once] builds from the operator's
    lines answers exactly the requests it collected: it has one entry for
    each collected request id and no other, each entry carries the approval
    id of a request collected under that id, and two lines are read for
    each request. *)
Theorem answers_cover_the_collected_requests (reqs : list (string * ApprovalRequest))
    (line : nat) :
  let out := ask console reqs line ∅ in
  (∀ rid, is_Some (out.1 !! rid) ↔ rid ∈ reqs.*1)
  ∧ (∀ rid resp, out.1 !! rid = Some resp ->
       ∃ req, (rid, req) ∈ reqs ∧ resp_approval_id resp = req_approval_id req)
  ∧ out.2 = line + 2 * length reqs.
Proof.
  cbv zeta. split; [|split].
  - intros rid. rewrite ask_keys. rewrite lookup_empty.
    split; [intros [?|[? ?]]; done|auto].
  - intros rid resp Hl. destruct (ask_values _ _ _ _ _ Hl) as [?|Hacc]; [done|].
    by rewrite lookup_empty in Hacc.
  - apply ask_lines.
Qed.

End Ask.

Section Drivers.
Context `{Runtime}.

(** X22. The two drivers of a workflow read the end of a stream alike.
    Whenever the loop of [run_once] gets through the events of a stream, the
    loop of the bridge ends the same way on them: at the same output, which
    it reports in its last record, or with the same collected requests. *)
Theorem drivers_agree_on_the_end_of_a_stream (session_id : string) (events : list Event)
    (acc : list (string * ApprovalRequest)) (g : Globals) (ending : Collected) :
  collect events acc = Ok ending ->
  ∃ recs g',
    match ending with
    | Output output =>
        consume session_id events acc g = (recs, g', Returned)
        ∧ last recs = Some (completed_record session_id output)
    | Requests reqs => consume session_id events acc g = (recs, g', Exhausted reqs)
    end.
Proof.
  revert acc g. induction events as [|ev events IH]; intros acc g Hc; simpl in Hc.
  - inversion Hc; subst. by eexists _, _.
  - destruct ev as [output|rid req|event_data|executor_id|name].
    + inversion Hc; subst. by eexists _, _.
    + simpl.
      match goal with |- context [consume session_id events _ ?g1] =>
        destruct (IH _ g1 Hc) as (recs & g' & Hr) end.
      destruct ending as [output|reqs].
      * destruct Hr as [Hr Hl]. rewrite Hr. eexists _, _. split; [reflexivity|].
        destruct recs; [done|]. exact Hl.
      * rewrite Hr. by eexists _, _.
    + simpl. destruct (inspect_custom event_data); [|done]. simpl in Hc.
      destruct (IH _ g Hc) as (recs & g' & Hr).
      destruct ending as [output|reqs].
      * destruct Hr as [Hr Hl]. rewrite Hr. eexists _, _. split; [reflexivity|].
        rewrite last_app, Hl. done.
      * rewrite Hr. by eexists _, _.
    + simpl. destruct (IH _ g Hc) as (recs & g' & Hr).
      destruct ending as [output|reqs].
      * destruct Hr as [Hr Hl]. rewrite Hr. eexists _, _. split; [reflexivity|].
        rewrite last_app, Hl. done.
      * rewrite Hr. by eexists _, _.
    + simpl. by apply IH.
Qed.

End Drivers.

Section Served.
Context `{Runtime}.
Variable agents : Agents.
Variable w0 : World.
Variable console : Console.

Lemma collect_first_run rid request_id uri preview :
  collect (first_run_events rid request_id uri preview) []
  = Ok (Requests [(request_id, request_for rid uri preview)]).
Proof. reflexivity. Qed.

(** A run of [run_once] on the served workflow in which no step fails: one
    request is collected, the operator answers it, and the resumed run
    ends with what the coordinator forwards for that answer. *)
Lemma run_once_served fuel doc ex c uri preview :
  run_extractor_20_agent agents (prompt_text doc) = Ok ex ->
  run_compliance_20_agent agents ex = Ok c ->
  describe_input c = Ok (uri, preview) ->
  let answer := {| resp_approval_id := uuid4 (uuid_drawn w0);
                   resp_approved := decision_at console 0;
                   resp_comment := comment_at console 0 |} in
  run_once console (served agents w0) (S (S fuel)) doc (fresh_run w0)
  = Some {| returned :=
              Ok (Some (MsgValue (forwarded (globals (suspended w0 c uri preview)) answer)));
            run_calls := [RunStream doc;
                          SendResponses {[uuid4 (S (uuid_drawn w0)) := answer]}] |}.
Proof.
  intros Hex Hc Hd. cbv zeta. unfold run_once. cbn [turns].
  rewrite bool_decide_eq_true_2 by done.
  cbn [served wf_run_stream].
  rewrite (run_stream_suspends agents doc (fresh_run w0) _ _ _ _ Hex Hc Hd).
  cbn [fst snd globals fresh_run]. rewrite collect_first_run.
  cbn [ask req_approval_id request_for].
  fold (decision_at console 0). fold (comment_at console 0).
  rewrite insert_empty.
  rewrite bool_decide_eq_false_2 by apply map_non_empty_singleton.
  cbn [served wf_send_responses_streaming].
  match goal with |- context [send_responses_streaming ?gr ?rs ?st] =>
    pose proof (resume_one agents st (uuid4 (S (uuid_drawn w0)))
                  (request_for (uuid4 (uuid_drawn w0)) uri preview)
                  {| resp_approval_id := uuid4 (uuid_drawn w0);
                     resp_approved := decision_at console 0;
                     resp_comment := comment_at console 0 |}
                  ltac:(cbn; apply lookup_singleton_eq) ltac:(cbn; lia)) as Hr;
    destruct (send_responses_streaming gr rs st) as [stream st'] end.
  cbn [fst] in Hr. subst stream. cbn [fst snd collect inspect_custom].
  reflexivity.
Qed.

(** X23. Run from the console, the served workflow does resume. When no
    step fails and the verdict is not empty, an operator who types [y]
    makes [run_once] call [run_stream], then [send_responses_streaming]
    with the one answer, and return the verdict of the compliance
    evaluator. *)
Theorem console_approval_returns_the_verdict (fuel : nat) (doc : DocInput)
    (ex c : string) (uri preview : value) :
  run_extractor_20_agent agents (prompt_text doc) = Ok ex ->
  run_compliance_20_agent agents ex = Ok c ->
  describe_input c = Ok (uri, preview) ->
  c ≠ "" ->
  decision_at console 0 = true ->
  run_once console (served agents w0) (S (S fuel)) doc (fresh_run w0)
  = Some {| returned := Ok (Some (MsgValue (VStr c)));
            run_calls :=
              [RunStream doc;
               SendResponses
                 {[uuid4 (S (uuid_drawn w0)) :=
                     {| resp_approval_id := uuid4 (uuid_drawn w0);
                        resp_approved := true;
                        resp_comment := comment_at console 0 |}]}] |}.
Proof.
  intros Hex Hc Hd Hne Hy.
  rewrite (run_once_served fuel doc ex c uri preview Hex Hc Hd). cbv zeta.
  rewrite Hy.
  erewrite forwarded_approved; [reflexivity| |reflexivity|exact Hne].
  cbn. apply lookup_insert_eq.
Qed.

(** X24. When no step fails and the operator types anything but [y],
    [run_once] resumes the run with the rejection and returns the rejection
    notice, whose remarks are the operator's comment, or [Rejected] when
    the comment is empty. The verdict is not returned. *)
Theorem console_rejection_returns_the_notice (fuel : nat) (doc : DocInput)
    (ex c : string) (uri preview : value) :
  run_extractor_20_agent agents (prompt_text doc) = Ok ex ->
  run_compliance_20_agent agents ex = Ok c ->
  describe_input c = Ok (uri, preview) ->
  decision_at console 0 = false ->
  run_once console (served agents w0) (S (S fuel)) doc (fresh_run w0)
  = Some {| returned := Ok (Some (rejection_message (comment_at console 0)));
            run_calls :=
              [RunStream doc;
               SendResponses
                 {[uuid4 (S (uuid_drawn w0)) :=
                     {| resp_approval_id := uuid4 (uuid_drawn w0);
                        resp_approved := false;
                        resp_comment := comment_at console 0 |}]}] |}.
Proof.
  intros Hex Hc Hd Hn.
  rewrite (run_once_served fuel doc ex c uri preview Hex Hc Hd). cbv zeta.
  rewrite Hn. rewrite forwarded_rejected by reflexivity. reflexivity.
Qed.

End Served.

Lemma drivers_agree_on_the_end_of_a_stream_witness :
  ∃ recs g',
    consume (H := sample_runtime) "s1"
      (first_run_events "uuid-0" "uuid-1" (VStr "n/a") (VStr "No preview")) [] one_session
    = (recs, g', Exhausted [("uuid-1", sample_request)]).
Proof.
  exact (drivers_agree_on_the_end_of_a_stream (H := sample_runtime) "s1"
           (first_run_events "uuid-0" "uuid-1" (VStr "n/a") (VStr "No preview"))
           [] one_session (Requests [("uuid-1", sample_request)]) eq_refl).
Defined.

Lemma console_approval_returns_the_verdict_witness :
  returned <$> run_once (H := sample_runtime) (operator "y" "")
                 (served (sample_agents compliant_text) empty_world) 2
                 (doc_of session_s1) (fresh_run empty_world)
  = Some (Ok (Some (MsgValue (VStr compliant_text)))).
Proof.
  assert (Hne : compliant_text ≠ "") by (vm_compute; discriminate).
  rewrite (console_approval_returns_the_verdict (H := sample_runtime)
             (sample_agents compliant_text) empty_world (operator "y" "") 0
             (doc_of session_s1) "extracted fields" compliant_text
             (VStr "n/a") (VStr "No preview") eq_refl eq_refl eq_refl Hne eq_refl).
  reflexivity.
Defined.

Lemma console_rejection_returns_the_notice_witness :
  returned <$> run_once (H := sample_runtime) (operator "n" "figures do not add up")
                 (served (sample_agents compliant_text) empty_world) 2
                 (doc_of session_s1) (fresh_run empty_world)
  = Some (Ok (Some (rejection_message (H := sample_runtime)
                      (Some "figures do not add up")))).
Proof.
  rewrite (console_rejection_returns_the_notice (H := sample_runtime)
             (sample_agents compliant_text) empty_world
             (operator "n" "figures do not add up") 0
             (doc_of session_s1) "extracted fields" compliant_text
             (VStr "n/a") (VStr "No preview") eq_refl eq_refl eq_refl eq_refl).
  reflexivity.
Defined.

End ConsoleFacts.

(** * The runner ([workflow_one.py]) *)

Module RunnerFacts.
Import WorkflowOneRun RunnerTerms.

Lemma bind_returns {A B} (m : Prog A) (f : A -> Prog B) a :
  m.2 = Returns a -> m ≫= f = (m.1 ++ (f a).1, (f a).2).
Proof. intros Hm. unfold mbind, prog_bind. by rewrite Hm. Qed.

Lemma bind_fails {A B} (m : Prog A) (f : A -> Prog B) e :
  m.2 = Fails e -> m ≫= f = (m.1, Fails e).
Proof. intros Hm. unfold mbind, prog_bind. by rewrite Hm. Qed.

Lemma halts_bind_l P {A B} (m : Prog A) (f : A -> Prog B) : halts P m -> halts P (m ≫= f).
Proof.
  intros [Hs [Hn|[e He]]].
  - rewrite (bind_fails _ _ _ Hn). split; [done|by left].
  - rewrite (bind_fails _ _ _ He). split; [done|right; eauto].
Qed.

Lemma halts_bind_r P {A B} (m : Prog A) (f : A -> Prog B) :
  quiet P m -> (∀ a, halts P (f a)) -> halts P (m ≫= f).
Proof.
  intros [Hs [[a Ha]|[e He]]] Hf.
  - rewrite (bind_returns _ _ _ Ha). destruct (Hf a) as [Hfs Hfo].
    split; [by apply Forall_app|done].
  - rewrite (bind_fails _ _ _ He). split; [done|right; eauto].
Qed.

Lemma quiet_bind P {A B} (m : Prog A) (f : A -> Prog B) :
  quiet P m -> (∀ a, quiet P (f a)) -> quiet P (m ≫= f).
Proof.
  intros [Hs [[a Ha]|[e He]]] Hf.
  - rewrite (bind_returns _ _ _ Ha). destruct (Hf a) as [Hfs Hfo].
    split; [by apply Forall_app|done].
  - rewrite (bind_fails _ _ _ He). split; [done|right; eauto].
Qed.

Lemma quiet_call P {A} s (r : Result A) : P s -> quiet P (call s r).
Proof.
  intros Hs. destruct r as [a|e]; (split; [repeat constructor; done|]).
  - left. by eexists.
  - right. by eexists.
Qed.

Lemma quiet_ret P {A} (a : A) : quiet P (mret a).
Proof. split; [constructor|left; by eexists]. Qed.

Section Runner.
Variable sv : Services.
Variable document_uri : string.

Lemma quiet_getenv P k : quiet P (getenv sv k).
Proof.
  unfold getenv. destruct (os_environ sv !! k); [apply quiet_ret|].
  split; [constructor|right; by eexists].
Qed.

Lemma quiet_factory agent_id instructions :
  quiet before_build (factory sv agent_id instructions).
Proof.
  unfold factory. destruct (negb (String.eqb agent_id "")).
  - by apply quiet_call.
  - apply quiet_bind; [by apply quiet_call|]. intros created. by apply quiet_call.
Qed.

Lemma quiet_create_agent_factory : quiet before_build (create_agent_factory sv).
Proof.
  unfold create_agent_factory.
  apply quiet_bind; [by apply quiet_call|]. intros _. by apply quiet_call.
Qed.

Lemma build_and_run_halts : halts before_build (build_and_run sv document_uri).
Proof.
  unfold build_and_run.
  apply halts_bind_r; [apply quiet_getenv|intros compliance_id].
  apply halts_bind_r; [apply quiet_factory|intros _].
  apply halts_bind_r; [apply quiet_getenv|intros extractor_id].
  apply halts_bind_r; [apply quiet_factory|intros _].
  apply halts_bind_r; [apply quiet_ret|intros _].
  apply halts_bind_r; [apply quiet_ret|intros _].
  apply halts_bind_r; [apply quiet_ret|intros _].
  apply halts_bind_l. split; [constructor|by left].
Qed.

(** X25. [small_workflow] never builds or runs its workflow. Whatever the
    environment and the services do, it ends by an exception: the
    [NameError] of [ExtractorToCompliance], a class the module never
    defines, wrapped in a [RuntimeError], unless an earlier library call
    failed or closing the stack fails. *)
Theorem small_workflow_never_builds :
  let out := small_workflow sv document_uri in
  (BuildWorkflow ∉ fst out)
  ∧ (RunWorkflow ∉ fst out)
  ∧ (out.2 = Fails (RuntimeError (NameError "ExtractorToCompliance"))
     ∨ ∃ e, out.2 = Fails (RuntimeError (Library e)) ∨ out.2 = Fails (Library e)).
Proof.
  cbv zeta.
  assert (Hbody : halts (fun s => s ≠ BuildWorkflow ∧ s ≠ RunWorkflow)
                    (create_agent_factory sv ≫= (fun _ => build_and_run sv document_uri))).
  { assert (Hw : ∀ A (m : Prog A), halts before_build m ->
                 halts (fun s => s ≠ BuildWorkflow ∧ s ≠ RunWorkflow) m).
    { intros A m [Hs Ho]. split; [|done].
      eapply Forall_impl; [exact Hs|]. by intros s (? & ? & _). }
    apply Hw. apply halts_bind_r; [apply quiet_create_agent_factory|].
    intros _. apply build_and_run_halts. }
  destruct Hbody as [Hsteps Hout]. rewrite Forall_forall in Hsteps.
  unfold small_workflow. cbv zeta.
  destruct (create_agent_factory sv).2 as [[]|f] eqn:Hmade.
  - destruct (aclose sv) as [[]|e]; cbn [fst snd].
    + split; [|split].
      * intros Hin. apply elem_of_app in Hin as [Hin|Hin].
        -- by destruct (Hsteps _ Hin).
        -- by apply list_elem_of_singleton in Hin.
      * intros Hin. apply elem_of_app in Hin as [Hin|Hin].
        -- by destruct (Hsteps _ Hin).
        -- by apply list_elem_of_singleton in Hin.
      * destruct Hout as [Hn|[e He]]; [rewrite Hn; by left|].
        rewrite He. right. exists e. by left.
    + split; [|split].
      * intros Hin. by destruct (Hsteps _ Hin).
      * intros Hin. by destruct (Hsteps _ Hin).
      * right. exists e. by right.
  - cbn [fst snd]. split; [|split].
    + intros Hin. by destruct (Hsteps _ Hin).
    + intros Hin. by destruct (Hsteps _ Hin).
    + right. eexists. by right.
Qed.

(** X26. When the factory cannot be made, [small_workflow] hides the
    cause: [close] was never bound, so the [finally] clause raises
    [UnboundLocalError], which replaces the error of the [except] clause.
    The exit stack is never closed, also when the credential context had
    already been entered on it. *)
Theorem failed_factory_is_masked (f : failure) :
  (create_agent_factory sv).2 = Fails f ->
  small_workflow sv document_uri
  = ((create_agent_factory sv).1, Fails (Library (UnboundLocalError "close")))
  ∧ (CloseStack ∉ fst (small_workflow sv document_uri))
  ∧ (enter_credential sv = Ok tt -> (small_workflow sv document_uri).1 = [EnterCredential]).
Proof.
  intros Hf.
  assert (Heq : small_workflow sv document_uri
                = ((create_agent_factory sv).1, Fails (Library (UnboundLocalError "close")))).
  { unfold small_workflow. cbv zeta. rewrite Hf. by rewrite (bind_fails _ _ _ Hf). }
  split; [exact Heq|]. rewrite Heq. cbn [fst].
  destruct (quiet_create_agent_factory) as [Hs _]. rewrite Forall_forall in Hs.
  split.
  - intros Hin. by destruct (Hs _ Hin) as (_ & _ & ?).
  - intros Hc. revert Hf. unfold create_agent_factory, call, mbind, prog_bind. rewrite Hc.
    cbn [fst snd]. by destruct (enter_project sv).
Qed.

End Runner.

(** With every service up, the runner gets as far as the missing class: the
    two agents are bound, the stack is closed, and the [NameError] comes
    out wrapped. *)
Example services_up_reach_the_missing_class :
  small_workflow services_up "doc-1"
  = ([EnterCredential; EnterProject; EnterAgent "agent-c"; EnterAgent "agent-e"; CloseStack],
     Fails (RuntimeError (NameError "ExtractorToCompliance"))).
Proof. vm_compute. reflexivity. Qed.

Lemma failed_factory_is_masked_witness :
  small_workflow project_down "doc-1"
  = ([EnterCredential], Fails (Library (UnboundLocalError "close"))).
Proof.
  destruct (failed_factory_is_masked project_down "doc-1"
              (Library (StepFailure "project endpoint unreachable")) eq_refl)
    as (Heq & _ & Hsteps).
  rewrite Heq. reflexivity.
Defined.

End RunnerFacts.
